(** * nabib: normalisation, categorisation and export of bank transactions

    A shallow embedding of [nabib.py] (month arithmetic of [MonthDate], the
    currency type [NABNumber], [Transaction], [Account] and the rule based
    categoriser) together with the properties of the natural-language
    specification that can be settled on it.

    Conventions.
    - Python text is a [list ascii]; [py "..."] turns a literal into one.
    - A Python call that may raise is a function into [res]: [Ok v] is a
      normal return, [Raise e] an exception of class [e].
    - [None] is [option]'s [None].
    - The parts of the standard library the program relies on ([datetime],
      [decimal], [re], [textwrap], [str] methods) are embedded from their
      reference implementation, next to the code that uses them. *)

From Stdlib Require Import ZArith Lia List Ascii String Bool DecimalString.
From stdpp Require Import base option list gmap strings.
From Stdlib Require DecimalPos DecimalN.

Set Default Proof Using "Type".

(** ** Exceptions and results *)

Inductive exn : Type :=
  | ValueError          (* bad literal, bad unpacking, bad date field *)
  | OverflowError       (* date arithmetic left [date.min .. date.max] *)
  | AttributeError      (* attribute of [None] *)
  | KeyError            (* missing dictionary key *)
  | InvalidOperation    (* trapped [decimal.InvalidOperation] *)
  | DecimalOverflow     (* trapped [decimal.Overflow] *)
  | ReError             (* [re.error]: ill-formed pattern *)
  | AssertionError      (* [re]: more than 99 groups in a pattern *)
  | RuntimeError.       (* [re]: condition on a group the pattern has not *)

Inductive res (A : Type) : Type :=
  | Ok (a : A)
  | Raise (e : exn).
Arguments Ok {A} a.
Arguments Raise {A} e.

#[global] Instance res_ret : MRet res := @Ok.
#[global] Instance res_bind : MBind res := fun A B f m =>
  match m with
  | Ok a => f a
  | Raise e => Raise e
  end.

Definition is_ok {A} (r : res A) : bool :=
  match r with Ok _ => true | Raise _ => false end.

(** ** Python text *)

Abbreviation str := (list ascii).

Definition py (s : string) : str := list_ascii_of_string s.

(** The methods of [str] the program calls. *)
Module pystr.

(** Whitespace as [str.strip] (no argument) sees it: space, TAB, LF, VT, FF, CR. *)
Definition is_space (c : ascii) : bool :=
  match N_of_ascii c with
  | 32 | 9 | 10 | 11 | 12 | 13 => true
  | _ => false
  end%N.

Fixpoint drop_while (p : ascii -> bool) (s : str) : str :=
  match s with
  | [] => []
  | c :: t => if p c then drop_while p t else s
  end.

Fixpoint take_while (p : ascii -> bool) (s : str) : str :=
  match s with
  | [] => []
  | c :: t => if p c then c :: take_while p t else []
  end.

Definition lstrip (s : str) : str := drop_while is_space s.
Definition rstrip (s : str) : str := rev (drop_while is_space (rev s)).
Definition strip (s : str) : str := lstrip (rstrip s).

(** [s.startswith(p)] *)
Fixpoint startswith (p s : str) : bool :=
  match p, s with
  | [], _ => true
  | _ :: _, [] => false
  | a :: p', b :: s' => Ascii.eqb a b && startswith p' s'
  end.

Definition eqb (a b : str) : bool := bool_decide (a = b).

(** [s.split(sep)] for a separator of one character. *)
Fixpoint split (sep : ascii) (s : str) : list str :=
  match s with
  | [] => [[]]
  | c :: t =>
      if Ascii.eqb c sep then [] :: split sep t
      else match split sep t with
           | h :: r => (c :: h) :: r
           | [] => [[c]]
           end
  end.

(** [sep.join(parts)] *)
Fixpoint join (sep : str) (parts : list str) : str :=
  match parts with
  | [] => []
  | [p] => p
  | p :: rest => p ++ sep ++ join sep rest
  end.

(** [s.replace(old, new)] for a non-empty [old]: the occurrences of [old]
    are found from the left and do not overlap. [skip] counts the characters
    of an occurrence that are still to be passed over. *)
Fixpoint replace_from (old new : str) (skip : nat) (s : str) : str :=
  match s with
  | [] => []
  | c :: t =>
      match skip with
      | S k => replace_from old new k t
      | O =>
          if startswith old s
          then new ++ replace_from old new (length old - 1) t
          else c :: replace_from old new 0 t
      end
  end.

Definition replace (old new s : str) : str := replace_from old new 0 s.

(** [s.rjust(width)]: the padding of format alignment [>] with fill [' ']. *)
Definition rjust (width : nat) (s : str) : str :=
  repeat " "%char (width - length s) ++ s.

(** [s.lower()] on ASCII letters. *)
Definition lower_char (c : ascii) : ascii :=
  let n := N_of_ascii c in
  if ((65 <=? n) && (n <=? 90))%N then ascii_of_N (n + 32) else c.

Definition lower (s : str) : str := map lower_char s.

End pystr.

(** ** [decimal.Decimal] under the program's context *)

Module decimal.
Local Open Scope Z_scope.

(** A [Decimal] as the library holds it: sign, the coefficient [_int] as a
    text of digits without leading zeros (["0"] for zero), and the exponent;
    or one of the special values. The payload of a NaN is a text of digits
    (empty when absent). *)
Inductive Decimal : Type :=
  | Finite (sign : bool) (int : str) (exp : Z)
  | Infinity (sign : bool)
  | NaN (sign : bool) (payload : str)
  | sNaN (sign : bool) (payload : str).

(** [decimal.Context]: the fields arithmetic reads. The rounding mode of the
    program's context is ROUND_HALF_DOWN, the only one embedded; the traps
    are the default ones (InvalidOperation, DivisionByZero, Overflow), so
    these conditions raise and the others only set flags. [_clamp] is 0. *)
Record Context : Type := mkContext { prec : Z; Emin : Z; Emax : Z }.

Definition Etiny (c : Context) : Z := Emin c - prec c + 1.
Definition Etop (c : Context) : Z := Emax c - prec c + 1.

(** *** Digits *)

Definition is_digit (c : ascii) : bool :=
  let n := N_of_ascii c in ((48 <=? n) && (n <=? 57))%N.

Definition digit_val (c : ascii) : N := (N_of_ascii c - 48)%N.

(** [int(s)] for a text of digits. *)
Definition int_of_digits (s : str) : N :=
  fold_left (fun acc c => (10 * acc + digit_val c)%N) s 0%N.

(** [str(n)] for [n >= 0]. *)
Definition str_of_N (n : N) : str :=
  list_ascii_of_string (NilEmpty.string_of_uint (N.to_uint n)).

(** ['0' * k] *)
Definition zeros (k : Z) : str := repeat "0"%char (Z.to_nat k).

Definition is_zero_char (c : ascii) : bool := Ascii.eqb c "0"%char.

(** [str(int(s))] for a non-empty text of digits: leading zeros go. *)
Definition norm_int (s : str) : str :=
  match pystr.drop_while is_zero_char s with
  | [] => py "0"
  | r => r
  end.

Definition len (s : str) : Z := Z.of_nat (length s).

(** [s[:k]] and [s[k:]] for [0 <= k]. *)
Definition upto (k : Z) (s : str) : str := take (Z.to_nat k) s.
Definition from (k : Z) (s : str) : str := drop (Z.to_nat k) s.

(** [x or '0'] *)
Definition or_zero (s : str) : str :=
  match s with [] => py "0" | _ => s end.

(** *** Construction from text: the grammar of [_parser] *)

Definition span (p : ascii -> bool) (s : str) : str * str :=
  (pystr.take_while p s, pystr.drop_while p s).

Definition is_E (c : ascii) : bool :=
  Ascii.eqb c "E"%char || Ascii.eqb c "e"%char.

(** The exponent part of a number: nothing (exponent 0), or the letter E,
    an optional sign and at least one digit, up to the end of the text. *)
Definition parse_exp (s : str) : option Z :=
  match s with
  | [] => Some 0
  | e :: t =>
      if is_E e then
        let '(neg, ds) :=
          match t with
          | c :: t' =>
              if Ascii.eqb c "-"%char then (true, t')
              else if Ascii.eqb c "+"%char then (false, t')
              else (false, t)
          | [] => (false, t)
          end in
        match ds with
        | [] => None
        | _ =>
            if forallb is_digit ds
            then Some (if neg then - Z.of_N (int_of_digits ds)
                       else Z.of_N (int_of_digits ds))
            else None
        end
      else None
  end.

(** A number: digits, then optionally a point and digits, with at least one
    digit in all, then the exponent part. The result is [(int, frac, exp)]. *)
Definition parse_number (s : str) : option (str * str * Z) :=
  let '(ip, r1) := span is_digit s in
  let '(fp, r2) :=
    match r1 with
    | c :: t => if Ascii.eqb c "."%char then span is_digit t else ([], r1)
    | [] => ([], r1)
    end in
  match ip, fp with
  | [], [] => None
  | _, _ =>
      match parse_exp r2 with
      | Some e => Some (ip, fp, e)
      | None => None
      end
  end.

(** The special values, case-insensitively: Inf or Infinity; NaN or sNaN
    followed by the digits of a payload. *)
Definition parse_special (sign : bool) (s : str) : option Decimal :=
  let l := pystr.lower s in
  if pystr.eqb l (py "inf") || pystr.eqb l (py "infinity") then Some (Infinity sign)
  else if pystr.startswith (py "nan") l && forallb is_digit (drop 3 l)
  then Some (NaN sign (pystr.drop_while is_zero_char (drop 3 l)))
  else if pystr.startswith (py "snan") l && forallb is_digit (drop 4 l)
  then Some (sNaN sign (pystr.drop_while is_zero_char (drop 4 l)))
  else None.

(** [Decimal.__new__(cls, value)] for a text. Nothing is rounded here: the
    context only acts in arithmetic. A text outside the grammar signals
    ConversionSyntax, an InvalidOperation, which the context traps. *)
Definition of_str (value : str) : res Decimal :=
  let v := pystr.strip value in
  let '(sign, body) :=
    match v with
    | c :: t =>
        if Ascii.eqb c "-"%char then (true, t)
        else if Ascii.eqb c "+"%char then (false, t)
        else (false, v)
    | [] => (false, v)
    end in
  match parse_number body with
  | Some (ip, fp, e) => Ok (Finite sign (norm_int (ip ++ fp)) (e - len fp))
  | None =>
      match parse_special sign body with
      | Some d => Ok d
      | None => Raise InvalidOperation
      end
  end.

(** *** Rounding *)

Definition _all_zeros (s : str) (k : Z) : bool := forallb is_zero_char (from k s).

Definition _exact_half (s : str) (k : Z) : bool :=
  match from k s with
  | c :: t => Ascii.eqb c "5"%char && forallb is_zero_char t
  | [] => false
  end.

(** [_round_half_up]: 1 to round up, 0 when nothing is lost, -1 otherwise.
    The digit [s[k]] exists at every call. *)
Definition _round_half_up (s : str) (k : Z) : Z :=
  match from k s with
  | c :: _ =>
      if (53 <=? N_of_ascii c)%N && is_digit c then 1
      else if _all_zeros s k then 0 else -1
  | [] => 0
  end.

Definition _round_half_down (s : str) (k : Z) : Z :=
  if _exact_half s k then -1 else _round_half_up s k.

Definition is_zero (int : str) : bool := pystr.eqb int (py "0").

(** [_rescale(exp, rounding)] of a finite value. *)
Definition _rescale (sign : bool) (int : str) (e : Z) (exp : Z) : Decimal :=
  if is_zero int then Finite sign (py "0") exp
  else if exp <=? e then Finite sign (int ++ zeros (e - exp)) exp
  else
    let digits := len int + e - exp in
    let '(int, digits) := if digits <? 0 then (py "1", 0) else (int, digits) in
    let changed := _round_half_down int digits in
    let coeff := or_zero (upto digits int) in
    let coeff := if changed =? 1 then str_of_N (int_of_digits coeff + 1) else coeff in
    Finite sign coeff exp.

(** [_fix_nan]: the payload keeps at most [prec] digits. *)
Definition _fix_nan (c : Context) (d : Decimal) : Decimal :=
  let cut (p : str) :=
    if prec c <? len p
    then pystr.drop_while is_zero_char (from (len p - prec c) p)
    else p in
  match d with
  | NaN s p => NaN s (cut p)
  | sNaN s p => sNaN s (cut p)
  | _ => d
  end.

(** [_fix(context)]: round to the precision of the context. *)
Definition _fix (c : Context) (d : Decimal) : res Decimal :=
  match d with
  | Finite sign int e =>
      if is_zero int then
        Ok (Finite sign (py "0") (Z.min (Z.max e (Etiny c)) (Emax c)))
      else
        let exp_min := len int + e - prec c in
        if Etop c <? exp_min then Raise DecimalOverflow
        else
          let exp_min := if exp_min <? Etiny c then Etiny c else exp_min in
          if e <? exp_min then
            let digits := len int + e - exp_min in
            let '(int, digits) :=
              if digits <? 0 then (py "1", 0) else (int, digits) in
            let changed := _round_half_down int digits in
            let coeff := or_zero (upto digits int) in
            let '(coeff, exp_min) :=
              if 0 <? changed then
                let coeff := str_of_N (int_of_digits coeff + 1) in
                if prec c <? len coeff
                then (upto (len coeff - 1) coeff, exp_min + 1)
                else (coeff, exp_min)
              else (coeff, exp_min) in
            if Etop c <? exp_min then Raise DecimalOverflow
            else Ok (Finite sign coeff exp_min)
          else Ok d
  | Infinity _ => Ok d
  | _ => Ok (_fix_nan c d)
  end.

(** *** Addition *)

(** [_check_nans]: a signalling NaN raises, a quiet one is the answer. *)
Definition _check_nans (c : Context) (a b : Decimal) : res (option Decimal) :=
  match a, b with
  | sNaN _ _, _ => Raise InvalidOperation
  | _, sNaN _ _ => Raise InvalidOperation
  | NaN _ _, _ => Ok (Some (_fix_nan c a))
  | _, NaN _ _ => Ok (Some (_fix_nan c b))
  | _, _ => Ok None
  end.

Definition sign_min (a b : bool) : bool := a && b.

(** [_normalize(op1, op2, prec)] on [(int, exp)] pairs: both operands get
    the same exponent; an operand too small to matter becomes one unit. *)
Definition _normalize (p : Z) (op1 op2 : Z * Z) : (Z * Z) * (Z * Z) :=
  let swap := snd op1 <? snd op2 in
  let tmp := if swap then op2 else op1 in
  let other := if swap then op1 else op2 in
  let tmp_len := len (str_of_N (Z.to_N (fst tmp))) in
  let other_len := len (str_of_N (Z.to_N (fst other))) in
  let exp := snd tmp + Z.min (-1) (tmp_len - p - 2) in
  let other := if other_len + snd other - 1 <? exp then (1, exp) else other in
  let tmp := (fst tmp * 10 ^ (snd tmp - snd other), snd other) in
  if swap then (other, tmp) else (tmp, other).

(** [Decimal.__add__(self, other)] under context [c]. *)
Definition add (c : Context) (a b : Decimal) : res Decimal :=
  match a, b with
  | Finite s1 i1 e1, Finite s2 i2 e2 =>
      let exp := Z.min e1 e2 in
      if is_zero i1 && is_zero i2 then
        _fix c (Finite (sign_min s1 s2) (py "0") exp)
      else if is_zero i1 then
        let exp := Z.max exp (e2 - prec c - 1) in
        _fix c (_rescale s2 i2 e2 exp)
      else if is_zero i2 then
        let exp := Z.max exp (e1 - prec c - 1) in
        _fix c (_rescale s1 i1 e1 exp)
      else
        let '((n1, x1), (n2, _)) :=
          _normalize (prec c) (Z.of_N (int_of_digits i1), e1)
                             (Z.of_N (int_of_digits i2), e2) in
        if Bool.eqb s1 s2 then
          _fix c (Finite s1 (str_of_N (Z.to_N (n1 + n2))) x1)
        else if n1 =? n2 then
          _fix c (Finite false (py "0") exp)
        else
          (* the larger magnitude gives the sign *)
          let '(big, small, sbig) :=
            if n1 <? n2 then (n2, n1, s2) else (n1, n2, s1) in
          _fix c (Finite sbig (str_of_N (Z.to_N (big - small))) x1)
  | _, _ =>
      r ← _check_nans c a b;
      match r with
      | Some d => Ok d
      | None =>
          match a, b with
          | Infinity s1, Infinity s2 =>
              if Bool.eqb s1 s2 then Ok a else Raise InvalidOperation
          | Infinity _, _ => Ok a
          | _, _ => Ok b
          end
      end
  end.

(** *** Formatting *)

(** The two format specifiers of the program as [_parse_format_specifier]
    reads them: [''] is the general type (G, since capitals = 1) without
    precision or width; ['6.2f'] is the fixed-point type with precision 2 and
    minimum width 6. In both the fill is a space, the alignment [>], positive
    values carry no sign, and there is no zero padding or thousands
    separator. *)
Inductive spec : Type :=
  | FmtGeneral
  | FmtFixed (precision : Z) (minimumwidth : nat).

Definition minimumwidth (sp : spec) : nat :=
  match sp with FmtGeneral => 0%nat | FmtFixed _ w => w end.

Definition spec_default : spec := FmtGeneral.     (* [''] *)
Definition spec_6_2f : spec := FmtFixed 2 6.      (* ['6.2f'] *)

Definition _format_sign (sign : bool) : str := if sign then py "-" else [].

(** [_format_align] *)
Definition _format_align (sp : spec) (sign body : str) : str :=
  pystr.rjust (minimumwidth sp) (sign ++ body).

(** ['{:+}'.format(e)] *)
Definition str_of_exp (e : Z) : str :=
  if e <? 0 then py "-" ++ str_of_N (Z.to_N (- e))
  else py "+" ++ str_of_N (Z.to_N e).

(** [_format_number] *)
Definition _format_number (sp : spec) (sign : bool) (intpart fracpart : str)
    (exp : Z) : str :=
  let fracpart :=
    match fracpart with [] => [] | _ => py "." ++ fracpart end in
  let fracpart :=
    if exp =? 0 then fracpart else fracpart ++ py "E" ++ str_of_exp exp in
  _format_align sp (_format_sign sign) (intpart ++ fracpart).

(** [Decimal.__str__] of the absolute value of a special value. *)
Definition str_special_abs (d : Decimal) : str :=
  match d with
  | Infinity _ => py "Infinity"
  | NaN _ p => py "NaN" ++ p
  | sNaN _ p => py "sNaN" ++ p
  | Finite _ _ _ => []
  end.

Definition sign_of (d : Decimal) : bool :=
  match d with
  | Finite s _ _ | Infinity s | NaN s _ | sNaN s _ => s
  end.

(** The second half of [Decimal.__format__] for a finite value that has
    been rounded: where the point goes, and the digits on each side. *)
Definition layout (sp : spec) (sign : bool) (int : str) (e : Z) : str :=
  (* a zero with a positive exponent shows one digit *)
  let '(int, e) :=
    match sp with
    | FmtFixed _ _ => if is_zero int && (0 <? e) then (py "0", 0) else (int, e)
    | FmtGeneral => (int, e)
    end in
  let leftdigits := e + len int in
  let dotplace :=
    match sp with
    | FmtFixed _ _ => leftdigits
    | FmtGeneral => if (e <=? 0) && (-6 <? leftdigits) then leftdigits else 1
    end in
  let '(intpart, fracpart) :=
    if dotplace <? 0 then (py "0", zeros (- dotplace) ++ int)
    else if len int <? dotplace
    then (int ++ zeros (dotplace - len int), [])
    else (or_zero (upto dotplace int), from dotplace int) in
  _format_number sp sign intpart fracpart (leftdigits - dotplace).

(** [Decimal.__format__(self, specifier)] for a parsed specifier: a special
    value shows its name; a finite value is rounded to the precision asked
    for, with the rounding of the context, and laid out. *)
Definition format (sp : spec) (d : Decimal) : str :=
  match d with
  | Finite sign int e =>
      match (match sp with
             | FmtFixed p _ => _rescale sign int e (- p)
             | FmtGeneral => d
             end) with
      | Finite sign int e => layout sp sign int e
      | _ => []
      end
  | _ => _format_align sp (_format_sign (sign_of d)) (str_special_abs d)
  end.

(** [float(d)] as far as [math.isnan] looks at it: a signalling NaN cannot
    be converted. *)
Definition isnan (d : Decimal) : res bool :=
  match d with
  | NaN _ _ => Ok true
  | sNaN _ _ => Raise ValueError
  | _ => Ok false
  end.

End decimal.

(** ** [datetime.date] and [MonthDate] *)

Module datetime.
Local Open Scope Z_scope.

Definition MINYEAR : Z := 1.
Definition MAXYEAR : Z := 9999.
Definition MAXORDINAL : Z := 3652059.   (* date.max.toordinal() *)

Definition DI400Y : Z := 146097.        (* days in 400 years *)
Definition DI100Y : Z := 36524.
Definition DI4Y : Z := 1461.

(** [_DAYS_IN_MONTH] and [_DAYS_BEFORE_MONTH]; index 0 is the placeholder
    entry -1 of the tables. *)
Definition DAYS_IN_MONTH (m : Z) : Z :=
  match m with
  | 1 => 31 | 2 => 28 | 3 => 31 | 4 => 30 | 5 => 31 | 6 => 30
  | 7 => 31 | 8 => 31 | 9 => 30 | 10 => 31 | 11 => 30 | 12 => 31
  | _ => -1
  end.

Definition DAYS_BEFORE_MONTH (m : Z) : Z :=
  match m with
  | 1 => 0 | 2 => 31 | 3 => 59 | 4 => 90 | 5 => 120 | 6 => 151
  | 7 => 181 | 8 => 212 | 9 => 243 | 10 => 273 | 11 => 304 | 12 => 334
  | _ => -1
  end.

Definition is_leap (y : Z) : bool :=
  (y mod 4 =? 0) && (negb (y mod 100 =? 0) || (y mod 400 =? 0)).

Definition days_before_year (y : Z) : Z :=
  let y := y - 1 in y * 365 + y / 4 - y / 100 + y / 400.

Definition days_in_month (y m : Z) : Z :=
  if (m =? 2) && is_leap y then 29 else DAYS_IN_MONTH m.

Definition days_before_month (y m : Z) : Z :=
  DAYS_BEFORE_MONTH m + (if (2 <? m) && is_leap y then 1 else 0).

Definition ymd2ord (y m d : Z) : Z :=
  days_before_year y + days_before_month y m + d.

Definition ord2ymd (ordinal : Z) : Z * Z * Z :=
  let n := ordinal - 1 in
  let n400 := n / DI400Y in
  let n := n mod DI400Y in
  let y := n400 * 400 + 1 in
  let n100 := n / DI100Y in
  let n := n mod DI100Y in
  let n4 := n / DI4Y in
  let n := n mod DI4Y in
  let n1 := n / 365 in
  let n := n mod 365 in
  let y := y + n100 * 100 + n4 * 4 + n1 in
  if (n1 =? 4) || (n100 =? 4) then (y - 1, 12, 31)
  else
    let leapyear := (n1 =? 3) && (negb (n4 =? 24) || (n100 =? 3)) in
    let m := Z.shiftr (n + 50) 5 in
    let preceding :=
      DAYS_BEFORE_MONTH m + (if (2 <? m) && leapyear then 1 else 0) in
    if n <? preceding then
      let m := m - 1 in
      let preceding :=
        preceding - (DAYS_IN_MONTH m + (if (m =? 2) && leapyear then 1 else 0)) in
      (y, m, n - preceding + 1)
    else (y, m, n - preceding + 1).

Record date : Type := mkdate { year : Z; month : Z; day : Z }.

(** What the constructor checks ([ValueError] otherwise). *)
Definition valid_ymd (y m d : Z) : bool :=
  (MINYEAR <=? y) && (y <=? MAXYEAR) && (1 <=? m) && (m <=? 12) &&
  (1 <=? d) && (d <=? days_in_month y m).

Definition valid (d : date) : bool := valid_ymd (year d) (month d) (day d).

(** [date(y, m, d)] / [MonthDate(y, m, d)]. *)
Definition new (y m d : Z) : res date :=
  if valid_ymd y m d then Ok (mkdate y m d) else Raise ValueError.

Definition toordinal (d : date) : Z := ymd2ord (year d) (month d) (day d).

(** [cls.fromordinal(n)]: [ValueError] below 1; the constructor rejects a
    year above [MAXYEAR]. *)
Definition fromordinal (n : Z) : res date :=
  if n <? 1 then Raise ValueError
  else let '(y, m, d) := ord2ymd n in new y m d.

(** [d + timedelta(days=k)] ([d - timedelta(days=k)] is [add_days d (-k)]):
    the date [k] days away, [OverflowError] outside [date.min .. date.max]. *)
Definition add_days (d : date) (k : Z) : res date :=
  let o := toordinal d + k in
  if (0 <? o) && (o <=? MAXORDINAL)
  then let '(y, m, d) := ord2ymd o in Ok (mkdate y m d)
  else Raise OverflowError.

(** Comparison of dates is the comparison of [(year, month, day)]. *)
Definition lt (a b : date) : bool :=
  (year a <? year b) ||
  ((year a =? year b) &&
   ((month a <? month b) || ((month a =? month b) && (day a <? day b)))).

Definition gt (a b : date) : bool := lt b a.

End datetime.

(** [class MonthDate(datetime.date)] *)
Module MonthDate.
Import datetime.
Local Open Scope Z_scope.

(** [month_start]: a [MonthDate] of [self]'s year and month, and day 1. *)
Definition month_start (self : date) : res date :=
  new (year self) (month self) 1.

(** [MonthDate.fromordinal((self.month_start - timedelta(days=1)).toordinal())] *)
Definition month_end_prev (self : date) : res date :=
  s ← month_start self;
  p ← add_days s (-1);
  fromordinal (toordinal p).

(** [MonthDate.fromordinal((self.month_start - timedelta(days=1)).toordinal()).month_start] *)
Definition month_prev (self : date) : res date :=
  s ← month_start self;
  p ← add_days s (-1);
  q ← fromordinal (toordinal p);
  month_start q.

(** [MonthDate.fromordinal((self.month_start + timedelta(days=31)).toordinal()).month_start] *)
Definition month_next (self : date) : res date :=
  s ← month_start self;
  p ← add_days s 31;
  q ← fromordinal (toordinal p);
  month_start q.

(** [self.month_next.month_end_prev] *)
Definition month_end (self : date) : res date :=
  n ← month_next self;
  month_end_prev n.

(** [MonthDate.strptime(value, '%d %b %y')], the only format [process_row]
    uses. [_strptime] reads: a day (two characters [30]-[31], [10]-[29],
    [01]-[09] or a space and [1]-[9], else one character [1]-[9]), white
    space, a month abbreviation in any case, white space, two digits of
    year, and the end of the text. Years up to 68 are in 2000, the others
    in 1900. *)
Definition digit19 (c : ascii) : bool :=
  let n := N_of_ascii c in ((49 <=? n) && (n <=? 57))%N.

Definition dval (c : ascii) : Z := Z.of_N (decimal.digit_val c).

Definition parse_day (s : str) : option (Z * str) :=
  let one :=
    match s with
    | a :: t => if digit19 a then Some (dval a, t) else None
    | [] => None
    end in
  match s with
  | a :: b :: t =>
      if Ascii.eqb a "3"%char && (Ascii.eqb b "0"%char || Ascii.eqb b "1"%char)
      then Some (30 + dval b, t)
      else if (Ascii.eqb a "1"%char || Ascii.eqb a "2"%char) && decimal.is_digit b
      then Some (10 * dval a + dval b, t)
      else if (Ascii.eqb a "0"%char || Ascii.eqb a " "%char) && digit19 b
      then Some (dval b, t)
      else one
  | _ => one
  end.

Definition month_abbr : list str :=
  map py ["jan"; "feb"; "mar"; "apr"; "may"; "jun";
          "jul"; "aug"; "sep"; "oct"; "nov"; "dec"]%string.

Fixpoint index_of (x : str) (l : list str) (i : Z) : option Z :=
  match l with
  | [] => None
  | y :: r => if pystr.eqb x y then Some i else index_of x r (i + 1)
  end.

(** White space, at least one character of it. *)
Definition skip_spaces (s : str) : option str :=
  match s with
  | c :: _ => if pystr.is_space c then Some (pystr.drop_while pystr.is_space s) else None
  | [] => None
  end.

Definition strptime (value : str) : res date :=
  let parsed :=
    '(d, r) ← parse_day value;
    r ← skip_spaces r;
    m ← index_of (pystr.lower (take 3 r)) month_abbr 1;
    r ← skip_spaces (drop 3 r);
    match r with
    | [a; b] =>
        if decimal.is_digit a && decimal.is_digit b
        then Some (10 * dval a + dval b, m, d)
        else None
    | _ => None
    end in
  match parsed with
  | None => Raise ValueError
  | Some (yy, m, d) =>
      let y := if yy <=? 68 then yy + 2000 else yy + 1900 in
      use_date ← new y m d;
      fromordinal (toordinal use_date)
  end.

(** [str(d)]: the ISO form, which is also how [format] shows a date. *)
Definition zfill (w : nat) (s : str) : str := repeat "0"%char (w - length s) ++ s.

Definition isoformat (d : date) : str :=
  zfill 4 (decimal.str_of_N (Z.to_N (year d))) ++ py "-" ++
  zfill 2 (decimal.str_of_N (Z.to_N (month d))) ++ py "-" ++
  zfill 2 (decimal.str_of_N (Z.to_N (day d))).

End MonthDate.

(** ** [class NABNumber(decimal.Decimal)] *)

Module NABNumber.
Import decimal.
Local Open Scope Z_scope.

(** [DECIMAL_CONTEXT = decimal.Context(prec=2, rounding=ROUND_HALF_DOWN)],
    installed as the context of the process; the exponent limits are those
    of [DefaultContext]. *)
Definition DECIMAL_CONTEXT : Context := mkContext 2 (-999999999) 999999999.

(** What [NABNumber(...)] is applied to: a [Decimal], or a text or [None]. *)
Inductive value : Type :=
  | VDecimal (d : Decimal)
  | VText (s : option str).

(** [re.sub(r'[+,$]', r'', s)] *)
Definition is_symbol (c : ascii) : bool :=
  Ascii.eqb c "+"%char || Ascii.eqb c ","%char || Ascii.eqb c "$"%char.

Definition remove_symbols (s : str) : str :=
  List.filter (fun c => negb (is_symbol c)) s.

Definition LF : ascii := "010"%char.

(** [NABNumber.__new__(cls, value)] *)
Definition __new__ (v : value) : res Decimal :=
  match v with
  | VDecimal d => Ok d
  | VText t =>
      let value := match t with None | Some [] => py "NaN" | Some s => s end in
      let value :=
        pystr.strip
          (remove_symbols (concat (map pystr.strip (pystr.split LF value)))) in
      match take 2 (pystr.split " "%char value ++ [[]]) with
      | [number; dorc] =>
          let number := pystr.replace (py "-minus") (py "-") number in
          let convert_value :=
            if pystr.eqb value (py "N/A") || pystr.eqb value []
            then py "NaN"
            else (if pystr.eqb dorc (py "DR") then py "-" else []) ++ number in
          of_str convert_value
      | _ => Raise ValueError
      end
  end.

(** [NABNumber(s)] for a literal [s]. *)
Definition of_text (s : string) : res Decimal :=
  __new__ (VText (Some (py s))).

(** [NABNumber.__str__]: ['{:6.2f}'.format(self)] *)
Definition __str__ (self : Decimal) : str := format spec_6_2f self.

(** ['{}'.format(self)]: [Decimal.__format__] with the empty specifier;
    [__str__] is not consulted. *)
Definition __format__ (self : Decimal) : str := format spec_default self.

(** [NABNumber.__add__] and [__iadd__] *)
Definition __add__ (self rhs : Decimal) : res Decimal :=
  d ← add DECIMAL_CONTEXT self rhs;
  __new__ (VDecimal d).

End NABNumber.

(** ** [textwrap.dedent] *)

Module textwrap.

Definition is_indent (c : ascii) : bool :=
  Ascii.eqb c " "%char || Ascii.eqb c "009"%char.

Fixpoint common_prefix (a b : str) : str :=
  match a, b with
  | x :: a', y :: b' => if Ascii.eqb x y then x :: common_prefix a' b' else []
  | _, _ => []
  end.

Definition remove_margin (margin line : str) : str :=
  if pystr.startswith margin line then drop (length margin) line else line.

(** Lines of spaces and tabs only become empty; the margin is the longest
    run of leading spaces and tabs common to the other non-empty lines; it
    is removed from every line that starts with it. *)
Definition dedent (text : str) : str :=
  let lines := pystr.split NABNumber.LF text in
  let lines := map (fun l => if forallb is_indent l then [] else l) lines in
  let indents :=
    map (pystr.take_while is_indent)
        (List.filter (fun l => negb (pystr.eqb l [])) lines) in
  let margin :=
    match indents with
    | [] => []
    | i :: r => fold_left common_prefix r i
    end in
  pystr.join [NABNumber.LF] (map (remove_margin margin) lines).

End textwrap.

(** ** [class Transaction] *)

Module Transaction.
Import decimal.

Record t : Type := mk {
  date : datetime.date;
  type : str;
  reference : option str;
  payee : option str;
  memo : str;
  amount : Decimal;
  category : str;
  balance : Decimal
}.

(** ['{}'.format(x)] for a text or [None]. *)
Definition fmt_opt (x : option str) : str :=
  match x with Some s => s | None => py "None" end.

Definition indent12 : str := repeat " "%char 12.
Definition nl : str := [NABNumber.LF].

(** [Transaction.qif]: the template is filled in first and dedented after. *)
Definition qif (self : t) : str :=
  let a := pystr.strip (NABNumber.__str__ (amount self)) in
  textwrap.dedent
    (indent12 ++ py "D" ++ MonthDate.isoformat (date self) ++ nl ++
     indent12 ++ py "T" ++ a ++ nl ++
     indent12 ++ py "M" ++ memo self ++ nl ++
     indent12 ++ py "N" ++ type self ++ nl ++
     indent12 ++ py "P" ++ fmt_opt (payee self) ++ nl ++
     indent12 ++ py "L" ++ category self ++ nl ++
     indent12 ++ py "^" ++ nl ++
     indent12).

(** [Transaction.__str__] *)
Definition __str__ (self : t) : str :=
  pystr.join (py "|")
    [MonthDate.isoformat (date self); NABNumber.__format__ (amount self);
     memo self; type self; fmt_opt (payee self); category self].

(** [Transaction.csv]: the line ends of the template are escaped, so the
    template is one line. *)
Definition csv (self : t) : str :=
  let a := pystr.strip (NABNumber.__str__ (amount self)) in
  textwrap.dedent
    (indent12 ++ MonthDate.isoformat (date self) ++ py "," ++
     indent12 ++ a ++ py "," ++
     indent12 ++ memo self ++ py "," ++
     indent12 ++ type self ++ py "," ++
     indent12 ++ fmt_opt (payee self) ++ py "," ++
     indent12 ++ category self ++
     indent12).

End Transaction.

(** ** What the program takes from its surroundings *)

(** The regular-expression engine and the iteration order of a [dict] are
    the interpreter's. [re_match_ignorecase p s] tells whether
    [re.match(p, s, re.IGNORECASE)] finds a match, [re_sub_empty p s] is
    [re.sub(p, '', s)]; both raise [re.error] on an ill-formed pattern.
    [dict_items m] is [m.items()]: the bindings of [m] in an order the
    language does not fix. *)
Class Runtime : Type := {
  re_match_ignorecase : str -> str -> res bool;
  re_sub_empty : str -> str -> res str;
  dict_items : gmap str str -> list (str * str);
  dict_items_perm : forall m, dict_items m ≡ₚ map_to_list m
}.

(** The files next to the script: a name gives the content of a regular file
    of that name, if there is one. *)
Definition filesystem : Type := str -> option str.

(** One row of the transaction table as the page shows it: the number of
    its cells and the texts [process_row] reads from them. [debit] and
    [credit] are [None] when the cell holds no amount element; [balance_label]
    is the text of the label element inside the balance cell, [None] when
    the cell has none. *)
Record RawRow : Type := mkRow {
  cells : nat;
  date_text : str;
  narrative : str;
  trans_code : str;
  debit : option str;
  credit : option str;
  balance_label : option str;
  balance_text : str
}.

(** ** [class Account] *)

Module Account.
Import decimal.

(** A balance field holds a [NABNumber], or the float [0.0] that is the
    default of [opening_balance]. *)
Inductive balance : Type :=
  | Float0
  | Amount (d : Decimal).

Record t : Type := mk {
  var_names : list str;
  type : str;
  bsb : option str;
  number : str;
  nick_name : str;
  current_balance : balance;
  available_balance : balance;
  at_date : datetime.date;
  closing_balance : balance;
  closing_balance_date : datetime.date;
  transactions : list (option Transaction.t);
  _payee_category_map : option (gmap str str)
}.

Definition set_closing (a : t) (b : balance) (d : datetime.date) : t :=
  mk (var_names a) (type a) (bsb a) (number a) (nick_name a)
     (current_balance a) (available_balance a) (at_date a)
     b d (transactions a) (_payee_category_map a).

Definition set_transactions (a : t) (l : list (option Transaction.t)) : t :=
  mk (var_names a) (type a) (bsb a) (number a) (nick_name a)
     (current_balance a) (available_balance a) (at_date a)
     (closing_balance a) (closing_balance_date a) l (_payee_category_map a).

Definition set_var_names (a : t) (v : list str) : t :=
  mk v (type a) (bsb a) (number a) (nick_name a)
     (current_balance a) (available_balance a) (at_date a)
     (closing_balance a) (closing_balance_date a) (transactions a)
     (_payee_category_map a).

Definition set_payee_category_map (a : t) (m : gmap str str) : t :=
  mk (var_names a) (type a) (bsb a) (number a) (nick_name a)
     (current_balance a) (available_balance a) (at_date a)
     (closing_balance a) (closing_balance_date a) (transactions a) (Some m).

Definition VAR_NAMES : list str :=
  map py ["date"; "details"; "debit"; "credit"; "balance"]%string.

(** [Account.identifier]: the digits of the number. *)
Definition identifier (number : str) : str := List.filter is_digit number.

Definition truthy (b : balance) : bool :=
  match b with
  | Float0 => false
  | Amount (Finite _ i _) => negb (is_zero i)
  | Amount _ => true
  end.

(** [Account.__init__]. The split of the account-number text of the page
    into [bsb] and [number] is taken as done; [today] is
    [datetime.date.today()] when the account is made; [available_balance]
    is [None] when the argument is absent. *)
Definition __init__ (trans_type : str) (bsb : option str) (number : str)
    (nick_name : option str) (opening_balance : balance)
    (available_balance : option balance) (at_date today : datetime.date)
    : res t :=
  zero ← NABNumber.of_text "0.00";
  Ok (mk VAR_NAMES
         (pystr.drop_while (Ascii.eqb "'"%char)
            (rev (pystr.drop_while (Ascii.eqb "'"%char) (rev trans_type))))
         bsb number
         (match nick_name with
          | Some (c :: n) => c :: n
          | _ => identifier number
          end)
         opening_balance
         (match available_balance with
          | Some b => if truthy b then b else opening_balance
          | None => opening_balance
          end)
         at_date
         (Amount zero) today [] None).

(** [acct_type_map.get(self.type, 'Bank')] *)
Definition acct_type (type : str) : str :=
  if pystr.eqb type (py "VCD") || pystr.eqb type (py "credit-card")
  then py "CCard" else py "Bank".

(** *** Category rules *)

(** [in_file.readlines()] followed by [line.strip()]: the lines of the file,
    stripped. *)
Definition stripped_lines (content : str) : list str :=
  map pystr.strip (pystr.split NABNumber.LF content).

(** The loop over the lines of one rule file. *)
Fixpoint read_rules (lines : list str) (m : gmap str str)
    : res (gmap str str) :=
  match lines with
  | [] => Ok m
  | line :: rest =>
      match line with
      | [] => read_rules rest m
      | _ =>
          match pystr.split "|"%char line with
          | [payee; category] => read_rules rest (<[payee := category]> m)
          | _ => Raise ValueError
          end
      end
  end.

Definition rule_files (nick_name : str) : list str :=
  [py "PayeeCategories-" ++ nick_name ++ py ".txt"; py "PayeeCategories.txt"].

(** The loop over the candidate files: every one that exists is read into
    the same mapping. *)
Fixpoint load_rules (fs : filesystem) (names : list str) (m : gmap str str)
    : res (gmap str str) :=
  match names with
  | [] => Ok m
  | name :: rest =>
      match fs name with
      | Some content =>
          m' ← read_rules (stripped_lines content) m;
          load_rules fs rest m'
      | None => load_rules fs rest m
      end
  end.

(** [Account.payee_category_map]: read on first use, kept afterwards. *)
Definition payee_category_map (fs : filesystem) (self : t)
    : res (gmap str str * t) :=
  match _payee_category_map self with
  | Some m => Ok (m, self)
  | None =>
      m ← load_rules fs (rule_files (nick_name self)) ∅;
      Ok (m, set_payee_category_map self m)
  end.

(** The inner loop of the categoriser: the value of the first rule, in
    iteration order, whose pattern is found in [field]. *)
Fixpoint first_match `{Runtime} (rules : list (str * str)) (field : str)
    : res (option str) :=
  match rules with
  | [] => Ok None
  | (re_key, value) :: rest =>
      found ← re_match_ignorecase (py "^.*" ++ re_key ++ py ".*") field;
      if found : bool then Ok (Some value) else first_match rest field
  end.

(** The outer loop: the payee is tried before the memo; [None] leaves the
    category to its default. *)
Definition categorise `{Runtime} (fs : filesystem) (self : t)
    (payee : option str) (memo : str) : res (option str * t) :=
  '(m, self) ← payee_category_map fs self;
  c ← first_match (dict_items m) (default [] payee);
  match c with
  | Some v => Ok (Some v, self)
  | None =>
      '(m, self) ← payee_category_map fs self;
      c ← first_match (dict_items m) memo;
      Ok (c, self)
  end.

(** *** Normalising a row *)

(** [re.split(r'   *', s, 1)]: the text before and the text after the first
    run of two or more spaces, or the text alone when there is none. *)
Fixpoint split_spaces (s : str) : list str :=
  match s with
  | a :: t =>
      match t with
      | b :: _ =>
          if Ascii.eqb a " "%char && Ascii.eqb b " "%char
          then [[]; pystr.drop_while (Ascii.eqb " "%char) t]
          else match split_spaces t with
               | h :: r => (a :: h) :: r
               | [] => [[a]]
               end
      | [] => [[a]]
      end
  | [] => [[]]
  end.

(** The assignment to [values['location'], values['memo']] and the
    statement after it. Unpacking needs exactly two values. *)
Definition location_memo (narrative : str) : res (str * str) :=
  match rev (split_spaces (pystr.strip narrative)) ++ [[]] with
  | [location; memo] =>
      match memo with
      | [] => Ok ([], location)
      | _ => Ok (location, memo)
      end
  | _ => Raise ValueError
  end.

(** The payee: four calls of [str.replace], whose first argument is a plain
    text, on a non-empty memo. *)
Definition payee_of (memo : str) : option str :=
  match memo with
  | [] => None
  | _ =>
      Some (pystr.replace (py "^FEES *") []
           (pystr.replace (py "^INTERNET TRANSFER *") []
           (pystr.replace (py "^INTERNET BPAY *") []
           (pystr.replace (py "^.*[0-9][0-9]:[0-9][0-9] ") [] memo))))
  end.

(** The text given to [NABNumber] for the debit cell. *)
Definition debit_arg (x : option str) : str :=
  match x with
  | None | Some [] => py "NaN"
  | Some s => py "-" ++ s
  end.

(** [Account.process_row]: [None] for a row with too few cells, else the
    transaction. *)
Definition process_row `{Runtime} (fs : filesystem) (self : t) (row : RawRow)
    : res (option Transaction.t * t) :=
  if (cells row <? length (var_names self))%nat then Ok (None, self)
  else
    '(location, memo) ← location_memo (narrative row);
    debit ← NABNumber.__new__ (NABNumber.VText (Some (debit_arg (debit row))));
    credit ← NABNumber.__new__ (NABNumber.VText (credit row));
    (* [values['balance']] is missing once the last name was dropped *)
    if negb (bool_decide (py "balance" ∈ var_names self)) then Raise KeyError
    else
      balance_text ← re_sub_empty (default [] (balance_label row)) (balance_text row);
      balance ← NABNumber.__new__ (NABNumber.VText (Some balance_text));
      amt ← NABNumber.of_text "0.00";
      credit_nan ← isnan credit;
      let amt := if credit_nan : bool then amt else credit in
      debit_nan ← isnan debit;
      let amt := if debit_nan : bool then amt else debit in
      let payee := payee_of memo in
      '(category, self) ← categorise fs self payee memo;
      date ← MonthDate.strptime (date_text row);
      Ok (Some (Transaction.mk date (trans_code row) None payee memo amt
                  (default (py "Unspecified") category) balance),
          self).

(** The loop of [download_transactions] over the rows. *)
Fixpoint process_rows `{Runtime} (fs : filesystem) (self : t)
    (rows : list RawRow) : res (list (option Transaction.t) * t) :=
  match rows with
  | [] => Ok ([], self)
  | row :: rest =>
      '(tr, self) ← process_row fs self row;
      '(trs, self) ← process_rows fs self rest;
      Ok (tr :: trs, self)
  end.

(** [Account.download_transactions] on the rows the page shows for the
    period. [alert_302033] tells whether loading the table raised the alert
    (error, 302033), after which the last column name is dropped. *)
Definition download_transactions `{Runtime} (fs : filesystem) (self : t)
    (alert_302033 : bool) (rows : list RawRow) (end_date : datetime.date)
    : res (Decimal * t) :=
  let self :=
    if alert_302033
    then set_var_names self (take (length (var_names self) - 1) (var_names self))
    else self in
  zero ← NABNumber.of_text "0.00";
  match rows with
  | [] => Ok (zero, self)
  | _ =>
      '(transactions, self) ← process_rows fs self rows;
      let self := set_transactions self (rev transactions) in
      let '(b, d) :=
        match last (Account.transactions self) with
        | Some (Some tr) => (Transaction.balance tr, Transaction.date tr)
        | _ => (zero, end_date)
        end in
      Ok (b, set_closing self (Amount b) d)
  end.

(** *** Export *)

(** [math.isnan] of a balance. *)
Definition balance_isnan (b : balance) : res bool :=
  match b with
  | Float0 => Ok false
  | Amount d => isnan d
  end.

(** ['{}'.format] of a balance. *)
Definition balance_format (b : balance) : str :=
  match b with
  | Float0 => py "0.0"
  | Amount d => NABNumber.__format__ d
  end.

(** The loop of [qif] over the transactions; [None] has no attribute [qif]. *)
Fixpoint qif_loop (trs : list (option Transaction.t)) (acc : str)
    (cb : balance) (cbd : datetime.date) : res (str * balance * datetime.date) :=
  match trs with
  | [] => Ok (acc, cb, cbd)
  | None :: _ => Raise AttributeError
  | Some tr :: rest =>
      qif_loop rest (acc ++ Transaction.qif tr)
        (Amount (Transaction.balance tr)) (Transaction.date tr)
  end.

(** [Account.qif]: the text of the ledger export, and the account with the
    closing balance and date the property assigns. *)
Definition qif (self : t) : res (str * t) :=
  let i12 := Transaction.indent12 in
  let nl := Transaction.nl in
  let head :=
    textwrap.dedent
      (i12 ++ py "!Account" ++ nl ++
       i12 ++ py "N" ++
         (match bsb self with Some b => b ++ py " " | None => [] end) ++
         number self ++ nl ++
       i12 ++ py "T" ++ acct_type (type self) ++ nl ++
       i12) in
  '(trans_qif_string, cb, cbd) ←
    qif_loop (transactions self) [] (current_balance self) (at_date self);
  let self := set_closing self cb cbd in
  nan ← balance_isnan cb;
  let foot :=
    textwrap.dedent
      (i12 ++ py "$" ++ (if nan : bool then py "0.00" else balance_format cb) ++ nl ++
       i12 ++ py "/" ++ MonthDate.isoformat cbd ++ nl ++
       i12 ++ py "^" ++ nl ++
       i12 ++ py "!Type:" ++ acct_type (type self) ++ nl ++
       i12) in
  Ok (head ++ foot ++ trans_qif_string, self).

(** [Account.generate_qif]: extraction, then the export written to the
    file; the result is the closing balance, the content of the file and
    the account. *)
Definition generate_qif `{Runtime} (fs : filesystem) (self : t)
    (alert_302033 : bool) (rows : list RawRow) (end_date : datetime.date)
    : res (Decimal * str * t) :=
  '(closing, self) ← download_transactions fs self alert_302033 rows end_date;
  '(text, self) ← qif self;
  Ok (closing, text ++ Transaction.nl, self).

End Account.

(** ** Containment *)

Module literal.

(** [k in s] *)
Fixpoint contains (k s : str) : bool :=
  pystr.startswith k s ||
  match s with
  | [] => false
  | _ :: t => contains k t
  end.

(** The text up to its first line break. *)
Definition first_line (s : str) : str :=
  pystr.take_while (fun c => negb (Ascii.eqb c NABNumber.LF)) s.

End literal.

(** ** The regular expressions of the interpreter: module [re] *)

(** The engine of Python 2.7 ([sre_parse], [sre_compile] and the matcher of
    [_sre]) on texts of 8-bit characters, for [re.match] and for [re.sub]
    with an empty replacement. *)
Module sre.
Local Open Scope N_scope.

(** *** Characters *)

Definition ord (c : ascii) : N := N_of_ascii c.

(** [value & 0xff] as a character. *)
Definition chr (n : N) : ascii := ascii_of_N (n mod 256).

Definition between (lo hi n : N) : bool := (lo <=? n) && (n <=? hi).

Definition is_digit (c : ascii) : bool := between 48 57 (ord c).
Definition is_octdigit (c : ascii) : bool := between 48 55 (ord c).
Definition is_hexdigit (c : ascii) : bool :=
  between 48 57 (ord c) || between 65 70 (ord c) || between 97 102 (ord c).

(** [sre_char_info]: the classes of the characters below 128. *)
Definition is_space (c : ascii) : bool := between 9 13 (ord c) || (ord c =? 32).
Definition is_alnum (c : ascii) : bool :=
  between 48 57 (ord c) || between 65 90 (ord c) || between 97 122 (ord c).
Definition is_word (c : ascii) : bool := is_alnum c || (ord c =? 95).
Definition is_linebreak (c : ascii) : bool := ord c =? 10.

(** The classes of the Unicode database on the first 256 code points, which
    the flag [UNICODE] selects. *)
Definition uni_is_space (c : ascii) : bool :=
  between 9 13 (ord c) || between 28 32 (ord c) || (ord c =? 133) || (ord c =? 160).
Definition uni_is_alnum (c : ascii) : bool :=
  is_alnum c ||
  existsb (N.eqb (ord c)) [170; 178; 179; 181; 185; 186; 188; 189; 190] ||
  between 192 214 (ord c) || between 216 246 (ord c) || between 248 255 (ord c).
Definition uni_is_word (c : ascii) : bool := uni_is_alnum c || (ord c =? 95).

(** [sre_lower] and the lower case of the Unicode database. *)
Definition lower (c : ascii) : ascii :=
  if between 65 90 (ord c) then chr (ord c + 32) else c.
Definition uni_lower (c : ascii) : ascii :=
  if between 65 90 (ord c) || between 192 214 (ord c) || between 216 222 (ord c)
  then chr (ord c + 32) else c.

(** *** Flags *)

Record flagset : Type := mkFlags {
  IGNORECASE : bool;
  LOCALE : bool;
  MULTILINE : bool;
  DOTALL : bool;
  VERBOSE : bool;
  TEMPLATE : bool;
  UNICODE : bool
}.

Definition no_flags : flagset := mkFlags false false false false false false false.
Definition IGNORECASE_only : flagset :=
  mkFlags true false false false false false false.

(** [FLAGS[c]] added to the flags; [None] when [c] is no flag letter. *)
Definition add_flag (c : ascii) (f : flagset) : option flagset :=
  let '(mkFlags i l m s x t u) := f in
  if Ascii.eqb c "i" then Some (mkFlags true l m s x t u)
  else if Ascii.eqb c "L" then Some (mkFlags i true m s x t u)
  else if Ascii.eqb c "m" then Some (mkFlags i l true s x t u)
  else if Ascii.eqb c "s" then Some (mkFlags i l m true x t u)
  else if Ascii.eqb c "x" then Some (mkFlags i l m s true t u)
  else if Ascii.eqb c "t" then Some (mkFlags i l m s x true u)
  else if Ascii.eqb c "u" then Some (mkFlags i l m s x t true)
  else None.

(** The process runs in the C locale, where the classes of [LOCALE] are the
    plain ones; [LOCALE] goes before [UNICODE]. *)
Definition word_of (f : flagset) (c : ascii) : bool :=
  if LOCALE f then is_word c else if UNICODE f then uni_is_word c else is_word c.
Definition space_of (f : flagset) (c : ascii) : bool :=
  if LOCALE f then is_space c else if UNICODE f then uni_is_space c else is_space c.
Definition lower_of (f : flagset) (c : ascii) : ascii :=
  if LOCALE f then lower c else if UNICODE f then uni_lower c else lower c.

(** *** Parsed patterns *)

Inductive category : Type :=
  | CATEGORY_DIGIT | CATEGORY_NOT_DIGIT
  | CATEGORY_SPACE | CATEGORY_NOT_SPACE
  | CATEGORY_WORD | CATEGORY_NOT_WORD.

Inductive at_code : Type :=
  | AT_BEGINNING | AT_END
  | AT_BEGINNING_STRING | AT_END_STRING
  | AT_BOUNDARY | AT_NON_BOUNDARY.

(** The members of a character set. *)
Inductive set_item : Type :=
  | SLITERAL (c : ascii)
  | SRANGE (lo hi : ascii)
  | SCATEGORY (k : category).

(** The operators of a parsed pattern. A sequence of items is [SEQ], a
    branch of alternatives is [BRANCH], the first alternative at the left.
    [MAXREPEAT] as the greatest count of a repeat stands for no limit. The
    group of a condition is kept as the integer the pattern gives; a
    condition without second alternative has the empty one. *)
Inductive node : Type :=
  | EMPTY
  | SEQ (a b : node)
  | LITERAL (c : ascii)
  | ANY
  | IN (negate : bool) (items : list set_item)
  | AT (a : at_code)
  | BRANCH (a b : node)
  | SUBPATTERN (group : option nat) (p : node)
  | MAX_REPEAT (lo hi : N) (p : node)
  | MIN_REPEAT (lo hi : N) (p : node)
  | GROUPREF (group : nat)
  | GROUPREF_EXISTS (group : Z) (item_yes item_no : node)
  | ASSERT (ahead : bool) (p : node)
  | ASSERT_NOT (ahead : bool) (p : node).

Definition MAXREPEAT : N := 4294967295.

(** *** [sre_parse.Tokenizer] *)

(** A token is a character, or a backslash and the character after it. *)
Inductive token : Type :=
  | Ch (c : ascii)
  | Esc (c : ascii).

(** [next] is the token read ahead, [rest] the text after it. *)
Record Tokenizer : Type := mkTokenizer { next : option token; rest : str }.

(** [Tokenizer.__next]: a backslash at the end of the pattern is an error. *)
Definition __next (s : str) : res Tokenizer :=
  match s with
  | [] => Ok (mkTokenizer None [])
  | c :: t =>
      if Ascii.eqb c "\"%char then
        match t with
        | [] => Raise ReError
        | d :: t' => Ok (mkTokenizer (Some (Esc d)) t')
        end
      else Ok (mkTokenizer (Some (Ch c)) t)
  end.

(** [source.get()] *)
Definition get (source : Tokenizer) : res (option token * Tokenizer) :=
  s ← __next (rest source); Ok (next source, s).

(** [source.next == char] *)
Definition at_char (c : ascii) (source : Tokenizer) : bool :=
  match next source with
  | Some (Ch d) => Ascii.eqb c d
  | _ => false
  end.

(** [source.next in chars] for a set of characters. *)
Definition at_class (p : ascii -> bool) (source : Tokenizer) : bool :=
  match next source with
  | Some (Ch d) => p d
  | _ => false
  end.

Definition skip (source : Tokenizer) : res Tokenizer := __next (rest source).

(** The characters of a token, as they are appended to a name. *)
Definition token_text (t : token) : str :=
  match t with
  | Ch c => [c]
  | Esc c => ["\"%char; c]
  end.

(** *** [sre_parse.Pattern]: the state of the parser *)

Record State : Type := mkState {
  flags : flagset;
  groups : nat;
  groupdict : list (str * nat);
  open : list nat
}.

Definition set_flags (st : State) (f : flagset) : State :=
  mkState f (groups st) (groupdict st) (open st).

Definition lookup_name (name : str) (d : list (str * nat)) : option nat :=
  option_map snd (List.find (fun kv => pystr.eqb (fst kv) name) d).

(** [state.opengroup(name)]: a name is defined once. *)
Definition opengroup (name : option str) (st : State) : res (nat * State) :=
  let gid := groups st in
  match name with
  | Some n =>
      match lookup_name n (groupdict st) with
      | Some _ => Raise ReError
      | None =>
          Ok (gid, mkState (flags st) (S gid) ((n, gid) :: groupdict st)
                     (open st ++ [gid]))
      end
  | None => Ok (gid, mkState (flags st) (S gid) (groupdict st) (open st ++ [gid]))
  end.

Definition closegroup (gid : nat) (st : State) : State :=
  mkState (flags st) (groups st) (groupdict st)
          (List.filter (fun g => negb (Nat.eqb g gid)) (open st)).

Definition checkgroup (gid : nat) (st : State) : bool :=
  (gid <? groups st)%nat && negb (existsb (Nat.eqb gid) (open st)).

(** *** Numbers in a pattern *)

Definition digit_value (c : ascii) : N :=
  if between 48 57 (ord c) then ord c - 48
  else if between 65 70 (ord c) then ord c - 55
  else ord c - 87.

(** [int(s, base)] for a text of digits of the base. *)
Definition int_of (base : N) (s : str) : N :=
  fold_left (fun acc c => acc * base + digit_value c) s 0.

Definition isident (c : ascii) : bool :=
  between 97 122 (ord c) || between 65 90 (ord c) || (ord c =? 95).

(** [isname(name)] for a non-empty name. *)
Definition isname (name : str) : bool :=
  match name with
  | [] => false
  | c :: t => isident c && forallb (fun x => isident x || is_digit x) t
  end.

Definition is_pyspace (c : ascii) : bool := between 9 13 (ord c) || (ord c =? 32).

(** [int(s)]: white space around an optional sign and digits. *)
Definition int_of_text (s : str) : option Z :=
  let t := pystr.drop_while is_pyspace (rev (pystr.drop_while is_pyspace (rev s))) in
  let '(neg, ds) :=
    match t with
    | c :: r =>
        if Ascii.eqb c "-" then (true, r)
        else if Ascii.eqb c "+" then (false, r)
        else (false, t)
    | [] => (false, t)
    end in
  match ds with
  | [] => None
  | _ =>
      if forallb is_digit ds
      then Some (if neg : bool then (- Z.of_N (int_of 10 ds))%Z
                 else Z.of_N (int_of 10 ds))
      else None
  end.

(** *** Escapes *)

(** [ESCAPES]: the escapes that stand for one character. *)
Definition ESCAPES (c : ascii) : option ascii :=
  if Ascii.eqb c "a" then Some (chr 7)
  else if Ascii.eqb c "b" then Some (chr 8)
  else if Ascii.eqb c "f" then Some (chr 12)
  else if Ascii.eqb c "n" then Some (chr 10)
  else if Ascii.eqb c "r" then Some (chr 13)
  else if Ascii.eqb c "t" then Some (chr 9)
  else if Ascii.eqb c "v" then Some (chr 11)
  else if Ascii.eqb c "\" then Some "\"%char
  else None.

(** [CATEGORIES]: the escapes for a class of characters... *)
Definition CATEGORIES_IN (c : ascii) : option category :=
  if Ascii.eqb c "d" then Some CATEGORY_DIGIT
  else if Ascii.eqb c "D" then Some CATEGORY_NOT_DIGIT
  else if Ascii.eqb c "s" then Some CATEGORY_SPACE
  else if Ascii.eqb c "S" then Some CATEGORY_NOT_SPACE
  else if Ascii.eqb c "w" then Some CATEGORY_WORD
  else if Ascii.eqb c "W" then Some CATEGORY_NOT_WORD
  else None.

(** ... and for a place in the text. *)
Definition CATEGORIES_AT (c : ascii) : option at_code :=
  if Ascii.eqb c "A" then Some AT_BEGINNING_STRING
  else if Ascii.eqb c "b" then Some AT_BOUNDARY
  else if Ascii.eqb c "B" then Some AT_NON_BOUNDARY
  else if Ascii.eqb c "Z" then Some AT_END_STRING
  else None.

(** Up to [k] more characters of the class [p] are read from the source. *)
Fixpoint get_while (p : ascii -> bool) (k : nat) (source : Tokenizer)
    : res (str * Tokenizer) :=
  match k with
  | O => Ok ([], source)
  | S k' =>
      match next source with
      | Some (Ch d) =>
          if p d then
            s ← skip source;
            '(ds, s) ← get_while p k' s;
            Ok (d :: ds, s)
          else Ok ([], source)
      | _ => Ok ([], source)
      end
  end.

(** [_class_escape(source, escape)]: an escape inside a character set. *)
Definition _class_escape (source : Tokenizer) (c : ascii)
    : res (set_item * Tokenizer) :=
  match ESCAPES c with
  | Some x => Ok (SLITERAL x, source)
  | None =>
      match CATEGORIES_IN c with
      | Some k => Ok (SCATEGORY k, source)
      | None =>
          if Ascii.eqb c "x" then
            '(ds, s) ← get_while is_hexdigit 2 source;
            if (length ds =? 2)%nat then Ok (SLITERAL (chr (int_of 16 ds)), s)
            else Raise ReError
          else if is_octdigit c then
            '(ds, s) ← get_while is_octdigit 2 source;
            Ok (SLITERAL (chr (int_of 8 (c :: ds))), s)
          else if is_digit c then Raise ReError
          else Ok (SLITERAL c, source)
      end
  end.

(** [_escape(source, escape, state)]: an escape outside a character set. A
    backslash and digits are an octal escape or the reference to a group
    that is closed. *)
Definition _escape (source : Tokenizer) (c : ascii) (st : State)
    : res (node * Tokenizer) :=
  match CATEGORIES_AT c with
  | Some a => Ok (AT a, source)
  | None =>
    match CATEGORIES_IN c with
    | Some k => Ok (IN false [SCATEGORY k], source)
    | None =>
      match ESCAPES c with
      | Some x => Ok (LITERAL x, source)
      | None =>
          if Ascii.eqb c "x" then
            '(ds, s) ← get_while is_hexdigit 2 source;
            if (length ds =? 2)%nat then Ok (LITERAL (chr (int_of 16 ds)), s)
            else Raise ReError
          else if Ascii.eqb c "0" then
            '(ds, s) ← get_while is_octdigit 2 source;
            Ok (LITERAL (chr (int_of 8 (c :: ds))), s)
          else if is_digit c then
            '(d2, s) ← get_while is_digit 1 source;
            let octal :=
              match d2 with
              | [d] => is_octdigit c && is_octdigit d && at_class is_octdigit s
              | _ => false
              end in
            if octal then
              '(d3, s) ← get_while is_octdigit 1 s;
              Ok (LITERAL (chr (int_of 8 (c :: d2 ++ d3))), s)
            else
              let group := N.to_nat (int_of 10 (c :: d2)) in
              if (group <? groups st)%nat then
                if checkgroup group st then Ok (GROUPREF group, s)
                else Raise ReError
              else Raise ReError
          else Ok (LITERAL c, source)
      end
    end
  end.

(** *** [sre_parse._parse] *)

Definition SPECIAL_CHARS : str := py ".\[{()*+?^$|".

Definition is_special (c : ascii) : bool := existsb (Ascii.eqb c) SPECIAL_CHARS.

Definition is_whitespace (c : ascii) : bool :=
  existsb (Ascii.eqb c) [" "%char; chr 9; chr 10; chr 13; chr 11; chr 12].

(** A comment of a verbose pattern: up to the end of the line. *)
Fixpoint skip_comment (fuel : nat) (source : Tokenizer) : res Tokenizer :=
  match fuel with
  | O => Ok source
  | S f =>
      '(this, s) ← get source;
      match this with
      | None => Ok s
      | Some (Ch c) => if Ascii.eqb c (chr 10) then Ok s else skip_comment f s
      | Some (Esc _) => skip_comment f s
      end
  end.

(** The tokens up to the character [stop], which is passed; the pattern may
    not end before. *)
Fixpoint get_until (stop : ascii) (fuel : nat) (source : Tokenizer)
    : res (str * Tokenizer) :=
  match fuel with
  | O => Raise ReError
  | S f =>
      '(char, s) ← get source;
      match char with
      | None => Raise ReError
      | Some t =>
          match t with
          | Ch c =>
              if Ascii.eqb c stop then Ok ([], s)
              else '(name, s) ← get_until stop f s; Ok (c :: name, s)
          | Esc _ =>
              '(name, s) ← get_until stop f s; Ok (token_text t ++ name, s)
          end
      end
  end.

(** The text of a comment group: up to the closing parenthesis, which is
    left in the source. *)
Fixpoint skip_to_paren (fuel : nat) (source : Tokenizer) : res Tokenizer :=
  match fuel with
  | O => Ok source
  | S f =>
      match next source with
      | None => Ok source
      | Some (Ch c) =>
          if Ascii.eqb c ")" then Ok source
          else s ← skip source; skip_to_paren f s
      | Some (Esc _) => s ← skip source; skip_to_paren f s
      end
  end.

(** The letters of the flags of a group [(?iLmsux)]. *)
Fixpoint get_flags (fuel : nat) (source : Tokenizer) (f : flagset)
    : res (flagset * Tokenizer) :=
  match fuel with
  | O => Ok (f, source)
  | S k =>
      match next source with
      | Some (Ch c) =>
          match add_flag c f with
          | Some f' => s ← skip source; get_flags k s f'
          | None => Ok (f, source)
          end
      | _ => Ok (f, source)
      end
  end.

(** The members of a character set, up to the closing bracket. [first]
    tells that no member was read yet: a bracket is then a member. *)
Fixpoint parse_set (fuel : nat) (source : Tokenizer) (first : bool)
    (set : list set_item) : res (list set_item * Tokenizer) :=
  match fuel with
  | O => Raise ReError
  | S f =>
      '(this, source) ← get source;
      match this with
      | None => Raise ReError
      | Some t =>
          let closing :=
            match t with Ch c => Ascii.eqb c "]" && negb first | Esc _ => false end in
          if closing then Ok (rev set, source)
          else
            '(code1, source) ←
              match t with
              | Esc c => _class_escape source c
              | Ch c => Ok (SLITERAL c, source)
              end;
            if at_char "-" source then
              source ← skip source;
              '(this, source) ← get source;
              match this with
              | None => Raise ReError
              | Some t2 =>
                  let closing2 :=
                    match t2 with Ch c => Ascii.eqb c "]" | Esc _ => false end in
                  if closing2
                  then Ok (rev (SLITERAL "-"%char :: code1 :: set), source)
                  else
                    '(code2, source) ←
                      match t2 with
                      | Esc c => _class_escape source c
                      | Ch c => Ok (SLITERAL c, source)
                      end;
                    match code1, code2 with
                    | SLITERAL lo, SLITERAL hi =>
                        if ord hi <? ord lo then Raise ReError
                        else parse_set f source false (SRANGE lo hi :: set)
                    | _, _ => Raise ReError
                    end
              end
            else parse_set f source false (code1 :: set)
      end
  end.

(** The counts of a repeat in braces, after the opening brace: [None] when
    the text is no repeat, and the brace then stands for itself. *)
Definition parse_braces (fuel : nat) (source : Tokenizer)
    : res (option (N * N * Tokenizer)) :=
  '(lo, s) ← get_while is_digit fuel source;
  '(hi, s) ←
    (if at_char "," s
     then s ← skip s; get_while is_digit fuel s
     else Ok (lo, s));
  if at_char "}" s then
    s ← skip s;
    let min := match lo with [] => 0 | _ => int_of 10 lo end in
    if MAXREPEAT <=? min then Raise OverflowError
    else
      match hi with
      | [] => Ok (Some (min, MAXREPEAT, s))
      | _ =>
          let max := int_of 10 hi in
          if MAXREPEAT <=? max then Raise OverflowError
          else if max <? min then Raise ReError
          else Ok (Some (min, max, s))
      end
  else Ok None.

(** The items of a subpattern, in reverse, as one operator. *)
Definition seq_of (items : list node) : node :=
  fold_left (fun acc x => match acc with EMPTY => x | _ => SEQ x acc end) items EMPTY.

Definition is_repeat (n : node) : bool :=
  match n with MAX_REPEAT _ _ _ | MIN_REPEAT _ _ _ => true | _ => false end.

Definition is_at (n : node) : bool :=
  match n with AT _ => true | _ => false end.

(** The last item of [subpattern] becomes a repeat of itself. *)
Definition repeat_last (min max : N) (source : Tokenizer) (subpattern : list node)
    : res (list node * Tokenizer) :=
  match subpattern with
  | [] => Raise ReError
  | item :: before =>
      if is_at item then Raise ReError
      else if is_repeat item then Raise ReError
      else if at_char "?" source
      then s ← skip source; Ok (MIN_REPEAT min max item :: before, s)
      else Ok (MAX_REPEAT min max item :: before, source)
  end.

(** [_parse_sub] reads the alternatives of a branch, [_parse] the items of
    one alternative, up to a bar, a closing parenthesis or the end;
    [subpattern] holds the items read, the last one first. Every call reads
    at least one token, so the calls are never more than [fuel]. *)
Fixpoint _parse_sub (fuel : nat) (source : Tokenizer) (st : State)
    : res (node * Tokenizer * State) :=
  match fuel with
  | O => Raise ReError
  | S f =>
      '(item, source, st) ← _parse f source st [];
      if at_char "|" source then
        source ← skip source;
        '(others, source, st) ← _parse_sub f source st;
        Ok (BRANCH item others, source, st)
      else Ok (item, source, st)
  end
with _parse (fuel : nat) (source : Tokenizer) (st : State) (subpattern : list node)
    : res (node * Tokenizer * State) :=
  match fuel with
  | O => Raise ReError
  | S f =>
    if at_char "|" source || at_char ")" source
    then Ok (seq_of subpattern, source, st)
    else
      '(this, source) ← get source;
      match this with
      | None => Ok (seq_of subpattern, source, st)
      | Some (Esc c) =>
          '(code, source) ← _escape source c st;
          _parse f source st (code :: subpattern)
      | Some (Ch c) =>
        if VERBOSE (flags st) && is_whitespace c then _parse f source st subpattern
        else if VERBOSE (flags st) && Ascii.eqb c "#" then
          source ← skip_comment fuel source;
          _parse f source st subpattern
        else if negb (is_special c) then _parse f source st (LITERAL c :: subpattern)
        else if Ascii.eqb c "[" then
          let negate := at_char "^" source in
          source ← (if negate then skip source else Ok source);
          '(set, source) ← parse_set fuel source true [];
          _parse f source st (IN negate set :: subpattern)
        else if Ascii.eqb c "?" then
          '(items, source) ← repeat_last 0 1 source subpattern;
          _parse f source st items
        else if Ascii.eqb c "*" then
          '(items, source) ← repeat_last 0 MAXREPEAT source subpattern;
          _parse f source st items
        else if Ascii.eqb c "+" then
          '(items, source) ← repeat_last 1 MAXREPEAT source subpattern;
          _parse f source st items
        else if Ascii.eqb c "{" then
          if at_char "}" source then _parse f source st (LITERAL c :: subpattern)
          else
            counts ← parse_braces fuel source;
            match counts with
            | None => _parse f source st (LITERAL c :: subpattern)
            | Some (min, max, source) =>
                '(items, source) ← repeat_last min max source subpattern;
                _parse f source st items
            end
        else if Ascii.eqb c "." then _parse f source st (ANY :: subpattern)
        else if Ascii.eqb c "^" then _parse f source st (AT AT_BEGINNING :: subpattern)
        else if Ascii.eqb c "$" then _parse f source st (AT AT_END :: subpattern)
        else if Ascii.eqb c "(" then
          if at_char "?" source then
            source ← skip source;
            if at_char "P" source then
              source ← skip source;
              if at_char "<" source then
                (* a named group *)
                source ← skip source;
                '(name, source) ← get_until ">" fuel source;
                if negb (isname name) then Raise ReError
                else
                  '(group, st) ← opengroup (Some name) st;
                  '(p, source, st) ← _parse_sub f source st;
                  if at_char ")" source then
                    source ← skip source;
                    _parse f source (closegroup group st)
                      (SUBPATTERN (Some group) p :: subpattern)
                  else Raise ReError
              else if at_char "=" source then
                (* a reference to a named group *)
                source ← skip source;
                '(name, source) ← get_until ")" fuel source;
                if negb (isname name) then Raise ReError
                else
                  match lookup_name name (groupdict st) with
                  | None => Raise ReError
                  | Some gid => _parse f source st (GROUPREF gid :: subpattern)
                  end
              else Raise ReError
            else if at_char ":" source then
              (* a group without number *)
              source ← skip source;
              '(p, source, st) ← _parse_sub f source st;
              if at_char ")" source then
                source ← skip source;
                _parse f source st (SUBPATTERN None p :: subpattern)
              else Raise ReError
            else if at_char "#" source then
              (* a comment *)
              source ← skip source;
              source ← skip_to_paren fuel source;
              if at_char ")" source then
                source ← skip source;
                _parse f source st subpattern
              else Raise ReError
            else if at_char "=" source || at_char "!" source || at_char "<" source then
              (* an assertion *)
              let behind := at_char "<" source in
              source ← (if behind then skip source else Ok source);
              if behind && negb (at_char "=" source || at_char "!" source)
              then Raise ReError
              else
                let positive := at_char "=" source in
                source ← skip source;
                '(p, source, st) ← _parse_sub f source st;
                if at_char ")" source then
                  source ← skip source;
                  _parse f source st
                    ((if positive then ASSERT (negb behind) p
                      else ASSERT_NOT (negb behind) p) :: subpattern)
                else Raise ReError
            else if at_char "(" source then
              (* a condition on a group *)
              source ← skip source;
              '(condname, source) ← get_until ")" fuel source;
              condgroup ←
                (match condname with
                 | [] => Raise ReError
                 | _ =>
                     if isname condname then
                       match lookup_name condname (groupdict st) with
                       | None => Raise ReError
                       | Some gid => Ok (Z.of_nat gid)
                       end
                     else
                       match int_of_text condname with
                       | None => Raise ReError
                       | Some g => Ok g
                       end
                 end);
              if (condgroup =? 0)%Z then
                '(p, source, st) ← _parse_sub f source st;
                if at_char ")" source then
                  source ← skip source;
                  _parse f source st (SUBPATTERN None p :: subpattern)
                else Raise ReError
              else
                (* [_parse_sub_cond] *)
                '(item_yes, source, st) ← _parse f source st [];
                '(item_no, source, st) ←
                  (if at_char "|" source then
                     source ← skip source;
                     '(item_no, source, st) ← _parse f source st [];
                     if at_char "|" source then Raise ReError
                     else Ok (item_no, source, st)
                   else Ok (EMPTY, source, st));
                if at_char ")" source then
                  source ← skip source;
                  _parse f source st
                    (SUBPATTERN None (GROUPREF_EXISTS condgroup item_yes item_no)
                     :: subpattern)
                else Raise ReError
            else
              (* flags *)
              '(fl, source') ← get_flags fuel source (flags st);
              match next source, next source' with
              | Some (Ch x), Some (Ch y) =>
                  match add_flag x (flags st) with
                  | None => Raise ReError
                  | Some _ =>
                      if Ascii.eqb y ")" then
                        source ← skip source';
                        _parse f source (set_flags st fl) subpattern
                      else Raise ReError
                  end
              | _, _ => Raise ReError
              end
          else
            (* a numbered group *)
            '(group, st) ← opengroup None st;
            '(p, source, st) ← _parse_sub f source st;
            if at_char ")" source then
              source ← skip source;
              _parse f source (closegroup group st)
                (SUBPATTERN (Some group) p :: subpattern)
            else Raise ReError
        else Raise ReError
      end
  end.

(** [sre_parse.parse(str, flags)]: when the pattern switches [VERBOSE] on,
    it is parsed again with the flags it has set. *)
Definition parse_once (pattern : str) (f : flagset) : res (node * State) :=
  source ← __next pattern;
  '(p, source, st) ← _parse_sub (4 * length pattern + 8)%nat source (mkState f 1 [] []);
  match next source with
  | Some _ => Raise ReError
  | None => Ok (p, st)
  end.

Definition parse (pattern : str) (f : flagset) : res (node * State) :=
  '(p, st) ← parse_once pattern f;
  if negb (VERBOSE f) && VERBOSE (flags st)
  then parse_once pattern (flags st)
  else Ok (p, st).

(** *** [sre_compile]: what the compiler refuses *)

(** [SubPattern.getwidth]: the least and the greatest number of characters
    of a match; references and assertions count for nothing. *)
Fixpoint width (n : node) : N * N :=
  match n with
  | SEQ a b => (fst (width a) + fst (width b), snd (width a) + snd (width b))
  | LITERAL _ | ANY | IN _ _ => (1, 1)
  | BRANCH a b =>
      (N.min (fst (width a)) (fst (width b)), N.max (snd (width a)) (snd (width b)))
  | SUBPATTERN _ p => width p
  | MAX_REPEAT lo hi p | MIN_REPEAT lo hi p => (fst (width p) * lo, snd (width p) * hi)
  | EMPTY | AT _ | GROUPREF _ | GROUPREF_EXISTS _ _ _ | ASSERT _ _ | ASSERT_NOT _ _ =>
      (0, 0)
  end.

Definition getwidth (n : node) : N * N :=
  (N.min (fst (width n)) (MAXREPEAT - 1), N.min (snd (width n)) MAXREPEAT).

(** [_compile]: no repeat in a template, no repeat of an item that may be
    empty and has no greatest width, no assertion backwards of a pattern
    without fixed width. *)
Fixpoint check (f : flagset) (n : node) : res unit :=
  match n with
  | SEQ a b | BRANCH a b => _ ← check f a; check f b
  | SUBPATTERN _ p => check f p
  | MAX_REPEAT _ _ p | MIN_REPEAT _ _ p =>
      if TEMPLATE f then Raise ReError
      else if (fst (getwidth p) =? 0) && (snd (getwidth p) =? MAXREPEAT)
      then Raise ReError
      else check f p
  | ASSERT ahead p | ASSERT_NOT ahead p =>
      if negb ahead && negb (fst (getwidth p) =? snd (getwidth p))
      then Raise ReError
      else check f p
  | GROUPREF_EXISTS _ item_yes item_no => _ ← check f item_yes; check f item_no
  | EMPTY | LITERAL _ | ANY | IN _ _ | AT _ | GROUPREF _ => Ok tt
  end.

(** The groups of the conditions of a pattern. *)
Fixpoint conditions (n : node) : list Z :=
  match n with
  | SEQ a b | BRANCH a b => conditions a ++ conditions b
  | SUBPATTERN _ p | MAX_REPEAT _ _ p | MIN_REPEAT _ _ p
  | ASSERT _ p | ASSERT_NOT _ p => conditions p
  | GROUPREF_EXISTS g item_yes item_no =>
      g :: conditions item_yes ++ conditions item_no
  | EMPTY | LITERAL _ | ANY | IN _ _ | AT _ | GROUPREF _ => []
  end.

(** A compiled pattern: the operators, the flags, and the number of
    groups. *)
Record Pattern : Type := mkPattern { code : node; pflags : flagset; ngroups : nat }.

(** [sre_compile.compile(p, flags)]. After the checks of [_compile], a
    pattern has 99 groups at most; the code of a condition is a word of 32
    bits, and names a group of the pattern. *)
Definition compile (pattern : str) (f : flagset) : res Pattern :=
  '(p, st) ← parse pattern f;
  _ ← check (flags st) p;
  if (100 <? groups st)%nat then Raise AssertionError
  else if existsb (fun g => (g <? 1)%Z || (4294967296 <? g)%Z) (conditions p)
  then Raise OverflowError
  else if existsb (fun g => (Z.of_nat (groups st - 1) <? g)%Z) (conditions p)
  then Raise RuntimeError
  else Ok (mkPattern p (flags st) (groups st - 1)%nat).

(** *** The matcher *)

(** A place in the text: the number of characters before it, these
    characters (the nearest first) and the characters after it; and the
    marks: the places where the groups started and ended, in the order of
    their numbers, as far as the highest mark set. *)
Record state : Type := mkSt {
  pos : nat;
  before : str;
  after : str;
  marks : list (option nat)
}.

(** A match ends in a state; a failure leaves the marks as they were when
    it was met. *)
Inductive outcome : Type :=
  | Success (s : state)
  | Failure (m : list (option nat)).

Definition is_success (o : outcome) : bool :=
  match o with Success _ => true | Failure _ => false end.

Definition with_marks (s : state) (m : list (option nat)) : state :=
  mkSt (pos s) (before s) (after s) m.

(** One character forward. *)
Definition step (c : ascii) (r : str) (s : state) : state :=
  mkSt (S (pos s)) (c :: before s) r (marks s).

(** [k] characters back, when there are as many. *)
Fixpoint back (k : nat) (s : state) : option state :=
  match k with
  | O => Some s
  | S k' =>
      match before s with
      | [] => None
      | c :: b => back k' (mkSt (pos s - 1)%nat b (c :: after s) (marks s))
      end
  end.

(** [MARK i]: the marks between the highest one and [i] are unset. *)
Definition set_mark (i : nat) (s : state) : state :=
  with_marks s
    (if (i <? length (marks s))%nat
     then <[i := Some (pos s)]> (marks s)
     else marks s ++ repeat None (i - length (marks s))%nat ++ [Some (pos s)]).

(** The text of a group that was matched: both marks are set, below the
    highest one, and in order. *)
Definition group_text (subject : str) (g : Z) (s : state) : option str :=
  if (g <? 1)%Z then None
  else
    let i := (2 * (Z.to_nat g - 1))%nat in
    if (i + 1 <? length (marks s))%nat then
      match marks s !! i, marks s !! (i + 1)%nat with
      | Some (Some p), Some (Some e) =>
          if (e <? p)%nat then None
          else Some (take (e - p)%nat (drop p subject))
      | _, _ => None
      end
    else None.

Section Matcher.
Variable f : flagset.
Variable subject : str.

Definition same_char (a b : ascii) : bool :=
  if IGNORECASE f then Ascii.eqb (lower_of f a) (lower_of f b) else Ascii.eqb a b.

Definition in_category (k : category) (c : ascii) : bool :=
  match k with
  | CATEGORY_DIGIT => is_digit c
  | CATEGORY_NOT_DIGIT => negb (is_digit c)
  | CATEGORY_SPACE => space_of f c
  | CATEGORY_NOT_SPACE => negb (space_of f c)
  | CATEGORY_WORD => word_of f c
  | CATEGORY_NOT_WORD => negb (word_of f c)
  end.

(** A member of a set; without regard to case, the characters of the set,
    those of a range one by one, and the character of the text are taken in
    lower case. *)
Definition in_item (c : ascii) (i : set_item) : bool :=
  let fix_ := fun x => if IGNORECASE f then lower_of f x else x in
  match i with
  | SLITERAL x => Ascii.eqb (fix_ x) (fix_ c)
  | SRANGE lo hi =>
      if IGNORECASE f
      then existsb (fun k => Ascii.eqb (fix_ (chr (ord lo + N.of_nat k))) (fix_ c))
             (seq 0 (S (N.to_nat (ord hi - ord lo))))
      else between (ord lo) (ord hi) (ord c)
  | SCATEGORY k => in_category k (fix_ c)
  end.

Definition in_set (negate : bool) (items : list set_item) (c : ascii) : bool :=
  xorb negate (existsb (in_item c) items).

Definition at_place (a : at_code) (s : state) : bool :=
  let that_word := match before s with c :: _ => word_of f c | [] => false end in
  let this_word := match after s with c :: _ => word_of f c | [] => false end in
  match a with
  | AT_BEGINNING =>
      match before s with
      | [] => true
      | c :: _ => MULTILINE f && is_linebreak c
      end
  | AT_END =>
      match after s with
      | [] => true
      | c :: r => is_linebreak c && (MULTILINE f || match r with [] => true | _ => false end)
      end
  | AT_BEGINNING_STRING => match before s with [] => true | _ => false end
  | AT_END_STRING => match after s with [] => true | _ => false end
  | AT_BOUNDARY =>
      match subject with [] => false | _ => negb (Bool.eqb this_word that_word) end
  | AT_NON_BOUNDARY =>
      match subject with [] => false | _ => Bool.eqb this_word that_word end
  end.

(** The text of a group again, at the place of the state. *)
Fixpoint match_text (t : str) (s : state) : option state :=
  match t with
  | [] => Some s
  | x :: t' =>
      match after s with
      | c :: r => if same_char x c then match_text t' (step c r s) else None
      | [] => None
      end
  end.

Definition cont : Type := state -> outcome.

(** [n] times the item, and then [k]. *)
Fixpoint times_pos (item : cont -> cont) (n : positive) (k : cont) (s : state)
    : outcome :=
  match n with
  | xH => item k s
  | xO p => times_pos item p (times_pos item p k) s
  | xI p => item (times_pos item p (times_pos item p k)) s
  end.

Definition times (item : cont -> cont) (n : N) (k : cont) (s : state) : outcome :=
  match n with
  | N0 => k s
  | Npos p => times_pos item p k s
  end.

(** [MAX_UNTIL], once the least count is reached: one more item if the
    count allows it and the last item was not empty, else the tail. [last]
    is the place where the last item started. *)
Fixpoint max_until (item : cont -> cont) (hi : N) (k : cont) (fuel : nat)
    (count : N) (last : option nat) (s : state) : outcome :=
  match fuel with
  | O => k s
  | S fl =>
      if ((count <? hi) || (hi =? MAXREPEAT)) &&
         negb (bool_decide (last = Some (pos s)))
      then
        match item (max_until item hi k fl (count + 1) (Some (pos s))) s with
        | Success r => Success r
        | Failure _ => k s
        end
      else k s
  end.

(** [MIN_UNTIL]: the tail first, then one more item. *)
Fixpoint min_until (item : cont -> cont) (hi : N) (k : cont) (fuel : nat)
    (count : N) (last : option nat) (s : state) : outcome :=
  match fuel with
  | O => k s
  | S fl =>
      match k s with
      | Success r => Success r
      | Failure _ =>
          if ((hi <=? count) && negb (hi =? MAXREPEAT)) ||
             bool_decide (last = Some (pos s))
          then Failure (marks s)
          else item (min_until item hi k fl (count + 1) (Some (pos s))) s
      end
  end.

(** The matcher, with the rest of the pattern as [k]. *)
Fixpoint _match (n : node) (k : cont) (s : state) : outcome :=
  match n with
  | EMPTY => k s
  | SEQ a b => _match a (_match b k) s
  | LITERAL x =>
      match after s with
      | c :: r => if same_char x c then k (step c r s) else Failure (marks s)
      | [] => Failure (marks s)
      end
  | ANY =>
      match after s with
      | c :: r =>
          if DOTALL f || negb (is_linebreak c) then k (step c r s)
          else Failure (marks s)
      | [] => Failure (marks s)
      end
  | IN negate items =>
      match after s with
      | c :: r => if in_set negate items c then k (step c r s) else Failure (marks s)
      | [] => Failure (marks s)
      end
  | AT a => if at_place a s then k s else Failure (marks s)
  | BRANCH a b =>
      match _match a k s with
      | Success r => Success r
      | Failure _ =>
          match _match b k s with
          | Success r => Success r
          | Failure _ => Failure (marks s)
          end
      end
  | SUBPATTERN None p => _match p k s
  | SUBPATTERN (Some g) p =>
      _match p (fun s' => k (set_mark (2 * (g - 1) + 1)%nat s'))
        (set_mark (2 * (g - 1))%nat s)
  | MAX_REPEAT lo hi p =>
      times (_match p) lo
        (fun s' => max_until (_match p) hi k (2 + length (after s'))%nat lo None s') s
  | MIN_REPEAT lo hi p =>
      times (_match p) lo
        (fun s' => min_until (_match p) hi k (2 + length (after s'))%nat lo None s') s
  | GROUPREF g =>
      match group_text subject (Z.of_nat g) s with
      | Some t =>
          match match_text t s with
          | Some s' => k s'
          | None => Failure (marks s)
          end
      | None => Failure (marks s)
      end
  | GROUPREF_EXISTS g item_yes item_no =>
      match group_text subject g s with
      | Some _ => _match item_yes k s
      | None => _match item_no k s
      end
  | ASSERT ahead p =>
      match (if ahead then Some s else back (N.to_nat (fst (getwidth p))) s) with
      | Some s0 =>
          match _match p Success s0 with
          | Success s' => k (with_marks s (marks s'))
          | Failure m => Failure m
          end
      | None => Failure (marks s)
      end
  | ASSERT_NOT ahead p =>
      match (if ahead then Some s else back (N.to_nat (fst (getwidth p))) s) with
      | Some s0 =>
          match _match p Success s0 with
          | Success s' => Failure (marks s')
          | Failure m => k (with_marks s m)
          end
      | None => k s
      end
  end.

(** The end of the match that starts at the place [i] of the text. *)
Definition match_at (n : node) (i : nat) : option nat :=
  match _match n Success (mkSt i (rev (take i subject)) (drop i subject) []) with
  | Success s => Some (pos s)
  | Failure _ => None
  end.

(** [sre_search]: the first place from [i] on where a match starts. *)
Fixpoint search (n : node) (fuel : nat) (i : nat) : option (nat * nat) :=
  match fuel with
  | O => None
  | S fl =>
      if (length subject <? i)%nat then None
      else
        match match_at n i with
        | Some e => Some (i, e)
        | None => search n fl (S i)
        end
  end.

(** [pattern.sub('', subject)]: what no match covers. [i] is the end of the
    last match, [start] the place where the search goes on. *)
Fixpoint subx (n : node) (fuel : nat) (i start : nat) : str :=
  match fuel with
  | O => drop i subject
  | S fl =>
      match search n (2 + length subject)%nat start with
      | None => drop i subject
      | Some (b, e) =>
          take (b - i)%nat (drop i subject) ++
          (if (e =? b)%nat then subx n fl b (S b) else subx n fl e e)
      end
  end.

End Matcher.

(** *** [re.match] and [re.sub] *)

(** [re.match(pattern, string, flags)]: is there a match at the start of
    the text? *)
Definition re_match (pattern subject : str) (f : flagset) : res bool :=
  p ← compile pattern f;
  Ok (is_success
        (_match (pflags p) subject (code p) Success (mkSt 0%nat [] subject []))).

(** [re.sub(pattern, '', string)] *)
Definition re_sub_empty (pattern subject : str) : res str :=
  p ← compile pattern no_flags;
  Ok (subx (pflags p) subject (code p) (2 + length subject)%nat 0%nat 0%nat).

End sre.

(** ** The interpreter as the program runs on it *)

(** The engine is that of Python 2.7. A [dict] is iterated in the order of
    [map_to_list]: one of the orders the class allows. The interpreter
    iterates in the order of the slots of its hash table; the two orders
    are the same on the mappings of the worked examples, which hold one key,
    or the keys [shop] and [coffee] (slots 0 and 2 of a table of 8). The
    statements that depend on the order hold for every order. *)
#[global] Instance PythonRuntime : Runtime := {|
  re_match_ignorecase := fun p s => sre.re_match p s sre.IGNORECASE_only;
  re_sub_empty := sre.re_sub_empty;
  dict_items := map_to_list;
  dict_items_perm := fun m => reflexivity (map_to_list m)
|}.

(** ** The rest of the program *)

(** Two more methods of [str]. *)
Module pysplit.

(** [s.split(' ', maxsplit)]: the text is cut at each of the first
    [maxsplit] spaces. *)
Fixpoint split_max (maxsplit : nat) (s : str) : list str :=
  match maxsplit with
  | O => [s]
  | S k =>
      match pystr.drop_while (fun c => negb (Ascii.eqb c " "%char)) s with
      | [] => [s]
      | _ :: after =>
          pystr.take_while (fun c => negb (Ascii.eqb c " "%char)) s
            :: split_max k after
      end
  end.

(** [s.strip(chars)] for the characters [p] accepts. *)
Definition strip_chars (p : ascii -> bool) (s : str) : str :=
  pystr.drop_while p (rev (pystr.drop_while p (rev s))).

End pysplit.

(** *** The number text of an account: [Account.__init__], lines 215 to 221 *)

Module AccountInit.

(** [re.match(r'BSB:.*Acct No:.*', number)]: the text starts with [BSB:] and
    [Acct No:] follows on the same line. *)
Definition match_bsb (number : str) : bool :=
  pystr.startswith (py "BSB:") number &&
  literal.contains (py "Acct No:") (literal.first_line (drop 4 number)).

(** [re.match(r'Card ending .*', number)] *)
Definition match_card (number : str) : bool :=
  pystr.startswith (py "Card ending ") number.

(** The length of what [(L1 *|L2 *|  )] matches at the start of [s], for
    the labels [L1], [L2] in the order of the pattern: a label and the spaces
    after it, or two spaces. *)
Definition label_match (labels : list str) (s : str) : option nat :=
  match List.find (fun l => pystr.startswith l s) labels with
  | Some l =>
      Some (length l +
            length (pystr.take_while (Ascii.eqb " "%char) (drop (length l) s)))
  | None => if pystr.startswith (py "  ") s then Some 2%nat else None
  end.

(** [re.sub(r'(L1 *|L2 *|  )', r'', s)]: the matches are found from the
    left and removed; [skip] counts the characters of a match that are still
    to be passed over. *)
Fixpoint sub_labels (labels : list str) (skip : nat) (s : str) : str :=
  match s with
  | [] => []
  | c :: t =>
      match skip with
      | S k => sub_labels labels k t
      | O =>
          match label_match labels s with
          | Some n => sub_labels labels (n - 1) t
          | None => c :: sub_labels labels 0 t
          end
      end
  end.

(** The three branches; the first unpacks into exactly two names. *)
Definition bsb_number (number : str) : res (option str * str) :=
  if match_bsb number then
    match pysplit.split_max 1
            (pystr.strip (sub_labels [py "BSB:"; py "Acc:"] 0 number)) with
    | [bsb; n] => Ok (Some bsb, n)
    | _ => Raise ValueError
    end
  else if match_card number then
    match pysplit.split_max 1
            (pystr.strip (sub_labels [py "Card ending"] 0 number)) with
    | n :: _ => Ok (None, n)
    | [] => Ok (None, number)
    end
  else Ok (None, number).

(** [Account(trans_type, number, nick_name, opening_balance,
    available_balance, at_date)] on the number text as the page shows it. *)
Definition new (trans_type number : str) (nick_name : option str)
    (opening_balance : Account.balance)
    (available_balance : option Account.balance)
    (at_date today : datetime.date) : res Account.t :=
  '(bsb, n) ← bsb_number number;
  Account.__init__ trans_type bsb n nick_name opening_balance
    available_balance at_date today.

End AccountInit.

(** *** [wrap_for_unexpected_alert] *)

(** What calling [action()] does: it returns, the browser shows an alert of
    the given text, or another exception is raised. *)
Inductive attempt (A : Type) : Type :=
  | Returned (a : A)
  | UnexpectedAlertPresent (alert_text : str)
  | Failed (e : exn).
Arguments Returned {A} a.
Arguments UnexpectedAlertPresent {A} alert_text.
Arguments Failed {A} e.

(** The three fields read from the text of an alert: the last three of
    [['info', 'unknown'] + text.split(' ', 2)], the first two in lower case,
    the second without colons at its ends, all stripped. *)
Definition alert_fields (alert_text : str) : str * str * str :=
  let l := [py "info"; py "unknown"] ++ pysplit.split_max 2 alert_text in
  match drop (length l - 3) l with
  | [x; y; z] =>
      (pystr.strip (pystr.lower x),
       pystr.strip (pysplit.strip_chars (Ascii.eqb ":"%char) (pystr.lower y)),
       pystr.strip z)
  | _ => ([], [], [])
  end.

(** The result is [(result, severity, code, msg_text)]; only the alert is
    caught. *)
Definition wrap_for_unexpected_alert {A} (action : attempt A)
    : res (option A * str * str * str) :=
  match action with
  | Returned a => Ok (Some a, [], [], [])
  | UnexpectedAlertPresent alert_text =>
      let '(severity, code, msg_text) := alert_fields alert_text in
      Ok (None, severity, code, msg_text)
  | Failed e => Raise e
  end.

(** The test of [download_transactions] on the load of the table:
    [...[1:3] == (u'error', u'302033')]. *)
Definition alert_302033 {A} (action : attempt A) : res bool :=
  '(_, severity, code, _) ← wrap_for_unexpected_alert action;
  Ok (pystr.eqb severity (py "error") && pystr.eqb code (py "302033")).

(** *** [wait_spinner] *)

(** [spinner_count i] is the number of spinner elements the page shows when
    it is looked at for the [i]-th time. The result lists the arguments of
    [time.sleep], in order. *)
Fixpoint wait_spinner_from (spinner_count : nat -> nat) (index remaining : nat)
    : list nat :=
  match remaining with
  | O => []
  | S k =>
      if (0 <? spinner_count index)%nat
      then index :: wait_spinner_from spinner_count (S index) k
      else []
  end.

Definition wait_spinner (spinner_count : nat -> nat) (timeout : nat) : list nat :=
  wait_spinner_from spinner_count 0 timeout.

(** *** [class SavedPages] *)

Module SavedPages.

Definition page_file_map (name : str) : option str :=
  if pystr.eqb name (py "acctInfo_acctBal.ctl") then Some (py "Account summary")
  else if pystr.eqb name (py "transactionHistoryValidate.ctl")
          || pystr.eqb name (py "transactionHistoryGetSettings.ctl")
          || pystr.eqb name (py "transactionHistoryDisplay.ctl")
  then Some (py "Transaction history")
  else None.

(** [os.path.join(a, b)] *)
Definition join (a b : str) : str :=
  if pystr.startswith (py "/") b then b
  else match last a with
       | None => b
       | Some c => if Ascii.eqb c "/"%char then a ++ b else a ++ py "/" ++ b
       end.

Record t : Type := mk { path : str; test_key : option str }.

Definition EXTS : list str := [[]; py ".html"; py "htm"].

(** The loop over the extensions: the name itself is tried before the title
    [page_file_map] gives it. *)
Fixpoint try_exts (isfile : str -> bool) (use_path name : str) (exts : list str)
    : option str :=
  match exts with
  | [] => None
  | ext :: rest =>
      let use_file := join use_path (name ++ ext) in
      if isfile use_file then Some use_file
      else
        let use_file :=
          join use_path (default name (page_file_map name) ++ ext) in
        if isfile use_file then Some use_file
        else try_exts isfile use_path name rest
  end.

(** The loop over the keys. *)
Fixpoint try_keys (isfile : str -> bool) (self : t) (name : str)
    (test_keys : list str) : str :=
  match test_keys with
  | [] => []
  | try_key :: rest =>
      match try_exts isfile (join (path self) try_key) name EXTS with
      | Some use_file => use_file
      | None => try_keys isfile self name rest
      end
  end.

(** [SavedPages.get_page(name, test_key)]; [isfile] is [os.path.isfile]. *)
Definition get_page (isfile : str -> bool) (self : t) (name : str)
    (test_key : option str) : str :=
  let use_key :=
    match test_key with
    | Some (_ :: _) => test_key
    | _ => SavedPages.test_key self
    end in
  let test_keys :=
    match use_key with None => [] | Some k => [k] end ++ [[]] in
  try_keys isfile self name test_keys.

End SavedPages.

(** *** [get_accounts] *)

(** One row of the table of accounts: the texts of the elements
    [get_accounts] selects, and the [name] property of the icon. *)
Record AccountRow : Type := mkAccountRow {
  row_nick_name : str;
  row_icon_name : option str;
  row_number : str;
  row_current : str;
  row_available : str
}.

(** The loop of [get_accounts] over the rows of the summary page. The
    account is stored under the nick name the page shows; [opening_balance]
    is left to its default. *)
Fixpoint get_accounts_from (rows : list AccountRow) (end_date today : datetime.date)
    (_accounts : gmap str Account.t) : res (gmap str Account.t) :=
  match rows with
  | [] => Ok _accounts
  | row :: rest =>
      let trans_type :=
        match row_icon_name row with
        | Some (c :: n) => c :: n
        | _ => py "transaction-account"
        end in
      available ← NABNumber.__new__ (NABNumber.VText (Some (row_available row)));
      account ← AccountInit.new trans_type (row_number row)
                  (Some (row_nick_name row)) Account.Float0
                  (Some (Account.Amount available)) end_date today;
      get_accounts_from rest end_date today
        (<[row_nick_name row := account]> _accounts)
  end.

Definition get_accounts (rows : list AccountRow) (end_date today : datetime.date)
    : res (gmap str Account.t) :=
  get_accounts_from rows end_date today ∅.

(** *** Dates of the command line *)

(** [strftime('%Y%m%d')] and [strptime(d, '%Y%m%d')]. *)
Module Ymd.
Import datetime.
Local Open Scope Z_scope.

(** [d.strftime('%Y%m%d')]: years before 1900 are refused. *)
Definition strftime (d : date) : res str :=
  if year d <? 1900 then Raise ValueError
  else Ok (MonthDate.zfill 4 (decimal.str_of_N (Z.to_N (year d))) ++
           MonthDate.zfill 2 (decimal.str_of_N (Z.to_N (month d))) ++
           MonthDate.zfill 2 (decimal.str_of_N (Z.to_N (day d)))).

(** The year: four digits. *)
Definition read_year (s : str) : option (Z * str) :=
  match s with
  | a :: b :: c :: e :: r =>
      if forallb decimal.is_digit [a; b; c; e]
      then Some (1000 * MonthDate.dval a + 100 * MonthDate.dval b +
                 10 * MonthDate.dval c + MonthDate.dval e, r)
      else None
  | _ => None
  end.

(** The ways to read a month at the start of [s], in the order the engine
    tries them: [1] and one of [0] to [2]; [0] and one of [1] to [9]; one
    of [1] to [9]. *)
Definition month_readings (s : str) : list (Z * str) :=
  match s with
  | a :: b :: r =>
      (if Ascii.eqb a "1"%char &&
          (Ascii.eqb b "0"%char || Ascii.eqb b "1"%char || Ascii.eqb b "2"%char)
       then [(10 + MonthDate.dval b, r)] else []) ++
      (if Ascii.eqb a "0"%char && MonthDate.digit19 b
       then [(MonthDate.dval b, r)] else [])
  | _ => []
  end ++
  match s with
  | a :: r => if MonthDate.digit19 a then [(MonthDate.dval a, r)] else []
  | [] => []
  end.

(** The ways to read a day: [3] and [0] or [1]; [1] or [2] and a digit; [0]
    and one of [1] to [9]; one of [1] to [9]; a space and one of [1] to
    [9]. *)
Definition day_readings (s : str) : list (Z * str) :=
  match s with
  | a :: b :: r =>
      (if Ascii.eqb a "3"%char && (Ascii.eqb b "0"%char || Ascii.eqb b "1"%char)
       then [(30 + MonthDate.dval b, r)] else []) ++
      (if (Ascii.eqb a "1"%char || Ascii.eqb a "2"%char) && decimal.is_digit b
       then [(10 * MonthDate.dval a + MonthDate.dval b, r)] else []) ++
      (if Ascii.eqb a "0"%char && MonthDate.digit19 b
       then [(MonthDate.dval b, r)] else [])
  | _ => []
  end ++
  match s with
  | a :: r => if MonthDate.digit19 a then [(MonthDate.dval a, r)] else []
  | [] => []
  end ++
  match s with
  | a :: b :: r =>
      if Ascii.eqb a " "%char && MonthDate.digit19 b
      then [(MonthDate.dval b, r)] else []
  | _ => []
  end.

(** [MonthDate.strptime(value, '%Y%m%d')]: the first way to read a year, a
    month and a day at the start of the text is taken, and nothing may
    follow it. *)
Definition strptime (value : str) : res date :=
  match read_year value with
  | None => Raise ValueError
  | Some (y, r) =>
      match
        concat (map (fun mr : Z * str =>
                       map (fun dr : Z * str => (mr.1, dr.1, dr.2))
                           (day_readings mr.2))
                    (month_readings r))
      with
      | [] => Raise ValueError
      | (m, d, rest) :: _ =>
          match rest with
          | [] =>
              use_date ← new y m d;
              fromordinal (toordinal use_date)
          | _ => Raise ValueError
          end
      end
  end.

End Ymd.

(** [get_command_line_options]: the dates of the period. *)

(** The options of the group of which one at most can be given: none of
    them, [--last-month], [--this-month] or [--start-date]. *)
Inductive period : Type :=
  | NoPeriod
  | LastMonth
  | ThisMonth
  | StartDate (d : datetime.date).

(** [built] is the day the parser is built, on which the default of
    [--start-date] is computed; [today] the day after parsing. The result is
    [(cl_opts.start_date, cl_opts.end_date)]. *)
Definition get_command_line_options (built today : datetime.date)
    (p : period) (end_date : option datetime.date)
    : res (datetime.date * datetime.date) :=
  default ← MonthDate.month_prev built;
  let start_date := match p with StartDate d => d | _ => default end in
  start_date ←
    match p with
    | ThisMonth => MonthDate.month_start today
    | LastMonth => MonthDate.month_prev today
    | _ => Ok start_date
    end;
  end_date ←
    match end_date with
    | Some e => Ok e
    | None => MonthDate.month_end start_date
    end;
  Ok (start_date, end_date).

(** * Properties *)

(** ** Notions the statements use *)

(** *** Months *)

Definition prev_ym (y m : Z) : Z * Z :=
  (if m =? 1 then (y - 1, 12) else (y, m - 1))%Z.

Definition next_ym (y m : Z) : Z * Z :=
  (if m =? 12 then (y + 1, 1) else (y, m + 1))%Z.

Definition last_of_month (y m : Z) : datetime.date :=
  datetime.mkdate y m (datetime.days_in_month y m).

(** The end of the previous month, plus one day, is the start of the month. *)
Definition prev_end_meets_start (d : datetime.date) : Prop :=
  exists p s,
    MonthDate.month_end_prev d = Ok p /\
    MonthDate.month_start d = Ok s /\
    datetime.add_days p 1 = Ok s.

(** The start of the next month is after the end of the month, which is the
    day before it and the last day the calendar gives the month. *)
Definition next_start_after_end (d : datetime.date) : Prop :=
  exists nx nxs e,
    MonthDate.month_next d = Ok nx /\
    MonthDate.month_start nx = Ok nxs /\
    MonthDate.month_end d = Ok e /\
    datetime.gt nxs e = true /\
    datetime.add_days nxs (-1) = Ok e /\
    e = last_of_month (datetime.year d) (datetime.month d).

(** Month and day from the day of the year, as [ord2ymd] finds them. *)
Definition month_day (leapyear : bool) (n : Z) : Z * Z :=
  (let m := Z.shiftr (n + 50) 5 in
   let preceding :=
     datetime.DAYS_BEFORE_MONTH m + (if (2 <? m) && leapyear then 1 else 0) in
   if n <? preceding then
     let m := m - 1 in
     let preceding :=
       preceding -
       (datetime.DAYS_IN_MONTH m + (if (m =? 2) && leapyear then 1 else 0)) in
     (m, n - preceding + 1)
   else (m, n - preceding + 1))%Z.

(** *** Amounts *)

(** The undefined amount, and [NABNumber('0.00')]. *)
Definition undefined : decimal.Decimal := decimal.NaN false [].
Definition zero : decimal.Decimal := decimal.Finite false (py "0") (-2).
Definition five : decimal.Decimal := decimal.Finite false (py "500") (-2).

Definition is_undefined (r : res decimal.Decimal) : bool :=
  match r with Ok (decimal.NaN _ _) => true | _ => false end.

Definition is_snan (d : decimal.Decimal) : bool :=
  match d with decimal.sNaN _ _ => true | _ => false end.

(** The characters of a plain amount: digits, the point and the minus sign. *)
Definition amount_char (c : ascii) : bool :=
  decimal.is_digit c || Ascii.eqb c "."%char || Ascii.eqb c "-"%char.

(** A plain amount with two decimals: a whole part [i] without superfluous
    leading zero, and two digits [f] after the point. *)
Definition whole_part (i : str) : bool :=
  forallb decimal.is_digit i &&
  match i with
  | [] => false
  | [_] => true
  | c :: _ => negb (decimal.is_zero_char c)
  end.

Definition two_decimals (i f : str) : bool :=
  whole_part i && forallb decimal.is_digit f && (length f =? 2)%nat.

Definition amount_text (neg : bool) (i f : str) : str :=
  (if neg then py "-" else []) ++ i ++ py "." ++ f.

(** Where [layout] puts the point in a coefficient [n] of exponent -2: the
    digits before it and the two digits after it. *)
Definition places (n : str) : str * str :=
  (if decimal.len n - 2 <? 0
   then (py "0", decimal.zeros (2 - decimal.len n) ++ n)
   else (decimal.or_zero (decimal.upto (decimal.len n - 2) n),
         decimal.from (decimal.len n - 2) n))%Z.

(** [str(NABNumber(x))] *)
Definition parse_then_str (x : str) : res str :=
  d ← NABNumber.__new__ (NABNumber.VText (Some x)); Ok (NABNumber.__str__ d).

Definition lines (s : str) : list str := pystr.split NABNumber.LF s.

(** *** Accounts *)

(** Normalising rows touches one field of the account only: the rule
    mapping that is kept after its first use. *)
Definition with_rules (a : Account.t) (c : option (gmap str str)) : Account.t :=
  Account.mk (Account.var_names a) (Account.type a) (Account.bsb a)
    (Account.number a) (Account.nick_name a) (Account.current_balance a)
    (Account.available_balance a) (Account.at_date a) (Account.closing_balance a)
    (Account.closing_balance_date a) (Account.transactions a) c.

Definition rules_only (a a' : Account.t) : Prop := exists c, a' = with_rules a c.

(** The closing balance and date that the last element of the sequence
    gives, with a fallback for an element that is no transaction and for the
    empty sequence. *)
Definition closing_of (last_elem : option (option Transaction.t))
    (fallback : Account.balance * datetime.date)
    : Account.balance * datetime.date :=
  match last_elem with
  | Some (Some tr) => (Account.Amount (Transaction.balance tr), Transaction.date tr)
  | _ => fallback
  end.

Definition closing (a : Account.t) : Account.balance * datetime.date :=
  (Account.closing_balance a, Account.closing_balance_date a).

(** *** Category rules *)

(** The rules a file holds, in the order of its lines. *)
Fixpoint parse_rules (lines : list str) : res (list (str * str)) :=
  match lines with
  | [] => Ok []
  | [] :: rest => parse_rules rest
  | line :: rest =>
      match pystr.split "|"%char line with
      | [payee; category] => rs ← parse_rules rest; Ok ((payee, category) :: rs)
      | _ => Raise ValueError
      end
  end.

Definition rules_in (fs : filesystem) (name : str) : res (list (str * str)) :=
  match fs name with
  | Some content => parse_rules (Account.stripped_lines content)
  | None => Ok []
  end.

Definition add_rule (m : gmap str str) (kv : str * str) : gmap str str :=
  <[kv.1 := kv.2]> m.

(** The mapping an account consults: the one it kept, or the one the files
    give. *)
Definition rules_of (fs : filesystem) (a : Account.t) : res (gmap str str) :=
  match Account._payee_category_map a with
  | Some m => Ok m
  | None => Account.load_rules fs (Account.rule_files (Account.nick_name a)) ∅
  end.

(** Is the pattern of the rule found in the text? *)
Definition hit `{Runtime} (field : str) (kv : str * str) : res bool :=
  re_match_ignorecase (py "^.*" ++ kv.1 ++ py ".*") field.

(** [(k, v)] is the first rule of [rules], in their order, found in [field]. *)
Definition first_hit `{Runtime} (field : str) (rules : list (str * str))
    (k v : str) : Prop :=
  exists pre post,
    rules = pre ++ (k, v) :: post /\
    hit field (k, v) = Ok true /\
    Forall (fun kv => hit field kv = Ok false) pre.

Definition no_hit `{Runtime} (field : str) (rules : list (str * str)) : Prop :=
  Forall (fun kv => hit field kv = Ok false) rules.

(** The category the categoriser settles on: the value of the first rule of
    the mapping, in iteration order, found in the payee; failing that, of
    the first rule found in the memo; failing that, none. *)
Definition category_found `{Runtime} (m : gmap str str) (payee : option str)
    (memo : str) (c : option str) : Prop :=
  match c with
  | Some v =>
      (exists k, m !! k = Some v /\
                 first_hit (default [] payee) (dict_items m) k v) \/
      (no_hit (default [] payee) (dict_items m) /\
       exists k, m !! k = Some v /\ first_hit memo (dict_items m) k v)
  | None =>
      no_hit (default [] payee) (dict_items m) /\ no_hit memo (dict_items m)
  end.

(** What the rules and the category of a row are, for an account [a]. *)
Definition rules_and_category `{Runtime} (fs : filesystem) (a : Account.t)
    : Prop :=
  Account.load_rules fs (Account.rule_files (Account.nick_name a)) ∅ =
    (rs1 ← rules_in fs (py "PayeeCategories-" ++ Account.nick_name a ++ py ".txt");
     rs2 ← rules_in fs (py "PayeeCategories.txt");
     Ok (foldl add_rule ∅ (rs1 ++ rs2))) /\
  (forall payee memo c a',
     Account.categorise fs a payee memo = Ok (c, a') ->
     exists m, rules_of fs a = Ok m /\ category_found m payee memo c) /\
  (forall row tr a',
     Account.process_row fs a row = Ok (Some tr, a') ->
     Transaction.payee tr = Account.payee_of (Transaction.memo tr) /\
     exists c,
       Account.categorise fs a (Transaction.payee tr) (Transaction.memo tr)
         = Ok (c, a') /\
       Transaction.category tr = default (py "Unspecified") c).

(** The words of the specification on the source of the rules: one file at
    most, the one of the account first. *)
Definition rules_from_one_file (fs : filesystem) (nick : str)
    : res (gmap str str) :=
  match fs (py "PayeeCategories-" ++ nick ++ py ".txt") with
  | Some c => Account.read_rules (Account.stripped_lines c) ∅
  | None =>
      match fs (py "PayeeCategories.txt") with
      | Some c => Account.read_rules (Account.stripped_lines c) ∅
      | None => Ok ∅
      end
  end.

(** *** Rows *)

(** Does the text hold a run of two or more spaces? *)
Fixpoint has_run (s : str) : bool :=
  match s with
  | a :: t =>
      match t with
      | b :: _ => (Ascii.eqb a " "%char && Ascii.eqb b " "%char) || has_run t
      | [] => false
      end
  | [] => false
  end.

(** *** Worked data *)

Definition no_files : filesystem := fun _ => None.

Definition two_files : filesystem := fun name =>
  if pystr.eqb name (py "PayeeCategories-Main.txt")
  then Some (py "coffee|Dining")
  else if pystr.eqb name (py "PayeeCategories.txt")
  then Some (py "coffee|Food")
  else None.

Definition ymd (y m d : Z) : datetime.date := datetime.mkdate y m d.

(** The account [Main] of type [transaction-account], with the BSB
    [083-004] and the number [123456789], the balance [opening] and the
    as-of date 2024-01-31, made on 3 February 2024. *)
Definition main_account (opening : Account.balance) : Account.t :=
  Account.mk Account.VAR_NAMES (py "transaction-account") (Some (py "083-004"))
    (py "123456789") (py "Main") opening opening (ymd 2024 1 31)
    (Account.Amount zero) (ymd 2024 2 3) [] None.

Definition row_coffee : RawRow :=
  mkRow 5 (py "15 Jan 24") (py "COFFEE SHOP") (py "EFTPOS")
        (Some (py "50.00")) None None (py "100.00").

Definition row_salary : RawRow :=
  mkRow 5 (py "10 Jan 24") (py "SALARY ACME") (py "CREDIT")
        None (Some (py "200.00")) None (py "150.00").

Definition row_short : RawRow :=
  mkRow 3 (py "12 Jan 24") (py "PENDING") [] None None None [].

Definition tx_five : Transaction.t :=
  Transaction.mk (ymd 2024 1 10) (py "EFTPOS") None (Some (py "COFFEE SHOP"))
    (py "COFFEE SHOP") five (py "Dining") five.

Definition account_five : Account.t :=
  Account.mk Account.VAR_NAMES (py "transaction-account") (Some (py "083-004"))
    (py "123456789") (py "Main") Account.Float0 Account.Float0 (ymd 2024 1 31)
    (Account.Amount five) (ymd 2024 1 10) [Some tx_five] None.

(** *** Rows and their transactions *)

(** What a call returns, the account left aside. *)
Definition outcome {A B} (r : res (A * B)) : res A := '(x, _) ← r; Ok x.

(** A cell without amount: no element, or an element without text. *)
Definition no_amount (x : option str) : bool :=
  match x with None | Some [] => true | Some _ => false end.

(** The column names after the alert (error, 302033). *)
Definition without_balance (a : Account.t) : Account.t :=
  Account.set_var_names a
    (take (length (Account.var_names a) - 1) (Account.var_names a)).

(** *** Export *)

(** A character of a line of a template: no line feed. *)
Definition no_LF (s : str) : bool :=
  forallb (fun c => negb (Ascii.eqb c NABNumber.LF)) s.

(** A line that is kept as it is when the margin goes: it starts with a
    character that is no space or tab, and holds no line feed. *)
Definition flush_line (l : str) : bool :=
  match l with
  | c :: _ => negb (textwrap.is_indent c)
  | [] => false
  end && no_LF l.

(** A [Decimal] as the library makes it: the coefficient, or the payload,
    is a text of digits. *)
Definition digits_only (d : decimal.Decimal) : bool :=
  match d with
  | decimal.Finite _ int _ => forallb decimal.is_digit int
  | decimal.Infinity _ => true
  | decimal.NaN _ p | decimal.sNaN _ p => forallb decimal.is_digit p
  end.

Definition balance_digits_only (b : Account.balance) : bool :=
  match b with
  | Account.Float0 => true
  | Account.Amount d => digits_only d
  end.

(** The lines of a template, each after the margin of twelve spaces and
    before its line feed. *)
Definition template (body : list str) : str :=
  concat (map (fun l => Transaction.indent12 ++ l ++ Transaction.nl) body) ++
  Transaction.indent12.

Definition flush (body : list str) : str :=
  concat (map (fun l => l ++ Transaction.nl) body).

(** *** Account numbers *)

(** A character of a BSB or of an account number: a digit or a hyphen. *)
Definition id_char (c : ascii) : bool :=
  decimal.is_digit c || Ascii.eqb c "-"%char.

(** A BSB or an account number as the page shows it. *)
Definition id_text (s : str) : bool :=
  match s with [] => false | _ => forallb id_char s end.

(** *** Alerts *)

(** A word: a text without a space. *)
Definition no_blank (s : str) : bool :=
  forallb (fun c => negb (Ascii.eqb c " "%char)) s.

(** *** Saved pages *)

(** The paths [get_page] probes, in order: for each key, and then for the
    directory of the pages itself, the name and the title of the page with
    each extension. *)
Definition page_candidates (self : SavedPages.t) (name : str)
    (test_key : option str) : list str :=
  let use_key :=
    match test_key with
    | Some (_ :: _) => test_key
    | _ => SavedPages.test_key self
    end in
  let test_keys := match use_key with None => [] | Some k => [k] end ++ [[]] in
  concat (map (fun k =>
    concat (map (fun ext =>
      [SavedPages.join (SavedPages.join (SavedPages.path self) k) (name ++ ext);
       SavedPages.join (SavedPages.join (SavedPages.path self) k)
         (default name (SavedPages.page_file_map name) ++ ext)])
      SavedPages.EXTS)) test_keys).

(** *** Accounts of the summary page *)

(** What [get_accounts] makes of a row: the account as [__init__] leaves
    it. *)
Definition built_from (row : AccountRow) (end_date today : datetime.date)
    (a : Account.t) : Prop :=
  AccountInit.bsb_number (row_number row) = Ok (Account.bsb a, Account.number a) /\
  Account.nick_name a =
    match row_nick_name row with
    | [] => Account.identifier (Account.number a)
    | k => k
    end /\
  Account.current_balance a = Account.Float0 /\
  Account.at_date a = end_date /\
  closing a = (Account.Amount zero, today) /\
  Account.transactions a = [] /\
  Account.var_names a = Account.VAR_NAMES /\
  Account._payee_category_map a = None.

(** The row of the account [Main] on the summary page, and the account
    [get_accounts] makes of it for the period that ends on 31 January 2024,
    on 3 February 2024. *)
Definition summary_row : AccountRow :=
  mkAccountRow (py "Main") (Some (py "transaction-account"))
    (py "BSB: 083-004 Acct No: 123456789") (py "$1,234.56") (py "$1,200.00").

Definition summary_account : Account.t :=
  Account.mk Account.VAR_NAMES (py "transaction-account") (Some (py "083-004"))
    (py "Acct No: 123456789") (py "Main") Account.Float0
    (Account.Amount (decimal.Finite false (py "120000") (-2))) (ymd 2024 1 31)
    (Account.Amount zero) (ymd 2024 2 3) [] None.

(** *** Rule files *)

(** How often a character occurs in a text. *)
Definition count_char (c : ascii) (s : str) : nat :=
  length (List.filter (Ascii.eqb c) s).

(** A rule file with a line of three fields. *)
Definition bad_rules : filesystem := fun name =>
  if pystr.eqb name (py "PayeeCategories.txt")
  then Some (py "coffee|Dining|Cafe")
  else None.

(** *** Text that is no amount *)

(** A character that stands in no decimal literal and that [NABNumber]
    neither removes nor replaces: no digit, no white space, none of
    [+ - . , $], no letter of [E], [Inf], [Infinity], [NaN] and [sNaN] in
    either case, and no letter of the word [minus]. *)
Definition foreign_char (c : ascii) : bool :=
  negb (decimal.is_digit c || pystr.is_space c ||
        existsb (Ascii.eqb c) (py "+-.,$eEinfatysINFATYSmu")).

(** White space or one of the symbols [NABNumber] removes. *)
Definition blank_or_symbol (c : ascii) : bool :=
  pystr.is_space c || NABNumber.is_symbol c.

(** *** The closing fields *)

(** The account as extraction reads the rows with it: without its last
    column name after the alert (error, 302033). *)
Definition reading (a : Account.t) (alert : bool) : Account.t :=
  if alert then without_balance a else a.

(** No row is skipped: each has a cell for every column. *)
Definition full_rows (a : Account.t) (rows : list RawRow) : Prop :=
  Forall (fun row => (length (Account.var_names a) <= cells row)%nat) rows.

(** What extraction and export leave in the closing fields. [a] is the
    account before extraction, [a1] the account after it, [cb] the balance
    extraction returned. The sequence of [a1] holds the transactions of the
    rows, the last row of the page first; the closing fields are those of
    the last transaction, which is that of the first row. The export keeps
    the sequence and closes on its last transaction, or on the current
    balance and the as-of date of the account when there is none. *)
Definition closing_settled `{Runtime} (fs : filesystem) (a : Account.t)
    (alert : bool) (rows : list RawRow) (cb : decimal.Decimal) (a1 : Account.t)
    : Prop :=
  (forall row rest, rows = row :: rest -> full_rows (reading a alert) rows ->
     exists txs tr,
       Account.transactions a1 = map Some txs /\
       Forall2 (fun r t =>
                  outcome (Account.process_row fs (reading a alert) r) = Ok (Some t))
               rows (rev txs) /\
       last txs = Some tr /\
       outcome (Account.process_row fs (reading a alert) row) = Ok (Some tr) /\
       closing a1 = (Account.Amount (Transaction.balance tr), Transaction.date tr) /\
       cb = Transaction.balance tr) /\
  (forall out a2, Account.qif a1 = Ok (out, a2) ->
     exists txs,
       Account.transactions a1 = map Some txs /\
       Account.transactions a2 = Account.transactions a1 /\
       closing a2 =
         match last txs with
         | Some tr => (Account.Amount (Transaction.balance tr), Transaction.date tr)
         | None => (Account.current_balance a, Account.at_date a)
         end /\
       Account.qif a2 = Ok (out, a2)).

(** *** Rules as patterns *)

(** The engine of the runtime is that of the interpreter. *)
Definition python_engine `{Runtime} : Prop :=
  forall p s, re_match_ignorecase p s = sre.re_match p s sre.IGNORECASE_only.

(** A key without special character of a pattern and without line break. *)
Definition plain_key (k : str) : bool :=
  forallb (fun c => negb (sre.is_special c || Ascii.eqb c NABNumber.LF)) k.

(** The words of the specification on the order of the rules: the first
    rule, in the order of the lines of the file, that is found in the
    text. *)
Definition first_in_file_order `{Runtime} (fs : filesystem) (name field : str)
    : res (option str) :=
  rs ← rules_in fs name; Account.first_match rs field.

(** The file of the account with a rule for coffee before a rule for shop,
    and with the same rules in the other order. *)
Definition coffee_first : filesystem := fun name =>
  if pystr.eqb name (py "PayeeCategories-Main.txt")
  then Some (py "coffee|Dining" ++ [NABNumber.LF] ++ py "shop|Shopping" ++ [NABNumber.LF])
  else None.

Definition shop_first : filesystem := fun name =>
  if pystr.eqb name (py "PayeeCategories-Main.txt")
  then Some (py "shop|Shopping" ++ [NABNumber.LF] ++ py "coffee|Dining" ++ [NABNumber.LF])
  else None.

(** A rule whose key is a pattern. *)
Definition pattern_rule : filesystem := fun name =>
  if pystr.eqb name (py "PayeeCategories.txt")
  then Some (py "COFFEE.*SHOP|Dining" ++ [NABNumber.LF])
  else None.

(** The pattern made of a plain key, as the parser reads it, and what the
    matcher looks for. *)

(** The tokenizer at a text that starts with no backslash. *)
Definition tok (s : str) : sre.Tokenizer :=
  match s with
  | [] => sre.mkTokenizer None []
  | c :: t => sre.mkTokenizer (Some (sre.Ch c)) t
  end.

(** Any characters of a line, as many as there are. *)
Definition star : sre.node := sre.MAX_REPEAT 0 sre.MAXREPEAT sre.ANY.

(** The characters of a key, before [tail]. *)
Fixpoint lits (k : str) (tail : sre.node) : sre.node :=
  match k with
  | [] => tail
  | c :: k' => sre.SEQ (sre.LITERAL c) (lits k' tail)
  end.

(** What the pattern made of a plain key is parsed into. *)
Definition pattern_of (k : str) : sre.node :=
  sre.SEQ (sre.AT sre.AT_BEGINNING) (sre.SEQ star (lits k star)).

(** The state of the parser at the start of a pattern. *)
Definition st0 : sre.State := sre.mkState sre.IGNORECASE_only 1 [] [].

(** One step of [seq_of]. *)
Definition seq_step (acc x : sre.node) : sre.node :=
  match acc with sre.EMPTY => x | _ => sre.SEQ x acc end.

(** Does the text start with the key, letter case apart? *)
Fixpoint ci_prefix (k a : str) : bool :=
  match k, a with
  | [], _ => true
  | _ :: _, [] => false
  | x :: k', c :: r =>
      Ascii.eqb (pystr.lower_char x) (pystr.lower_char c) && ci_prefix k' r
  end.

(** Is the key at a place of the first line of the text? *)
Fixpoint scan (k a : str) : bool :=
  ci_prefix k a ||
  match a with
  | c :: r => negb (Ascii.eqb c NABNumber.LF) && scan k r
  | [] => false
  end.

(** ** Tactics *)

Lemma res_bind_ok {A B} (f : A -> res B) (m : res A) (b : B) :
  m ≫= f = Ok b -> exists a, m = Ok a /\ f a = Ok b.
Proof. destruct m as [a|e]; simpl; [eauto | discriminate]. Qed.

(** From [m ≫= f = Ok b]: the value [m] returned, and [f] of it. *)
Ltac bind_as H x Hx := apply res_bind_ok in H as (x & Hx & H).

Ltac bind_ok H :=
  let x := fresh "x" in
  let Hx := fresh "Hx" in
  bind_as H x Hx.

Ltac by_cases_on_ascii c :=
  destruct c as [[] [] [] [] [] [] [] []]; try discriminate; try reflexivity.

Ltac twelve_months m Hm :=
  let Hcases := fresh "Hcases" in
  assert (m = 1 \/ m = 2 \/ m = 3 \/ m = 4 \/ m = 5 \/ m = 6 \/ m = 7 \/ m = 8 \/
          m = 9 \/ m = 10 \/ m = 11 \/ m = 12)%Z as Hcases by lia;
  clear Hm;
  repeat (destruct Hcases as [-> | Hcases]); try subst m.

(** Closed entries of the month tables and closed tests are evaluated. *)
Ltac eval_tables :=
  repeat match goal with
    | |- context [datetime.DAYS_BEFORE_MONTH ?x] =>
        let v := eval vm_compute in (datetime.DAYS_BEFORE_MONTH x) in
        change (datetime.DAYS_BEFORE_MONTH x) with v
    | |- context [datetime.DAYS_IN_MONTH ?x] =>
        let v := eval vm_compute in (datetime.DAYS_IN_MONTH x) in
        change (datetime.DAYS_IN_MONTH x) with v
    | |- context [if ?c then _ else _] =>
        let v := eval vm_compute in c in
        change c with v; cbv iota
    end.

Ltac eval_consts :=
  repeat match goal with
    | |- context [(Z.pos ?a - Z.pos ?b)%Z] =>
        let v := eval vm_compute in (Z.pos a - Z.pos b)%Z in
        change (Z.pos a - Z.pos b)%Z with v
    | |- context [(Z.pos ?a + Z.pos ?b)%Z] =>
        let v := eval vm_compute in (Z.pos a + Z.pos b)%Z in
        change (Z.pos a + Z.pos b)%Z with v
    end.

(** ** Months: the ordinal of a date and back *)

Section MonthBoundaries.
Import datetime MonthDate.
Local Open Scope Z_scope.

Lemma divmod_unique (a b q r : Z) :
  0 <= r < b -> a = b * q + r -> a / b = q /\ a mod b = r.
Proof.
  intros Hr Ha. split.
  - symmetry. apply (Z.div_unique a b q r); [lia | exact Ha].
  - symmetry. apply (Z.mod_unique a b q r); [lia | exact Ha].
Qed.

(** Decomposition of [y - 1] along the cycles of 400, 100, 4 and 1 years. *)
Lemma year_cycles (y : Z) :
  exists a b c e,
    y - 1 = 400 * a + 100 * b + 4 * c + e /\
    0 <= b < 4 /\ 0 <= c < 25 /\ 0 <= e < 4 /\
    days_before_year y = DI400Y * a + DI100Y * b + DI4Y * c + 365 * e /\
    is_leap y = (e =? 3) && (negb (c =? 24) || (b =? 3)).
Proof.
  set (Y := y - 1).
  exists (Y / 400), (Y mod 400 / 100), (Y mod 100 / 4), (Y mod 4).
  assert (H400 := Z.div_mod Y 400 ltac:(lia)).
  assert (B400 := Z.mod_pos_bound Y 400 ltac:(lia)).
  assert (H100 := Z.div_mod (Y mod 400) 100 ltac:(lia)).
  assert (B100 := Z.mod_pos_bound (Y mod 400) 100 ltac:(lia)).
  assert (E100 : Y mod 100 = (Y mod 400) mod 100).
  { replace 400 with (100 * 4) by lia. rewrite Z.rem_mul_r by lia.
    rewrite (Z.mul_comm 100), Z.mod_add by lia. now rewrite Z.mod_mod. }
  assert (H4 := Z.div_mod (Y mod 100) 4 ltac:(lia)).
  assert (B4 := Z.mod_pos_bound (Y mod 100) 4 ltac:(lia)).
  assert (E4 : Y mod 4 = (Y mod 100) mod 4).
  { replace 100 with (4 * 25) by lia. rewrite Z.rem_mul_r by lia.
    rewrite (Z.mul_comm 4), Z.mod_add by lia. now rewrite Z.mod_mod. }
  set (a := Y / 400) in *. set (r := Y mod 400) in *.
  set (b := r / 100) in *. set (r2 := Y mod 100) in *.
  set (c := r2 / 4) in *. set (e := Y mod 4) in *.
  assert (Hb : 0 <= b < 4).
  { subst b. split; [apply Z.div_pos; lia | apply Z.div_lt_upper_bound; lia]. }
  assert (Hc : 0 <= c < 25).
  { subst c. assert (0 <= r2 < 100) by (rewrite E100; apply Z.mod_pos_bound; lia).
    split; [apply Z.div_pos; lia | apply Z.div_lt_upper_bound; lia]. }
  assert (He : 0 <= e < 4) by (subst e; apply Z.mod_pos_bound; lia).
  assert (HY : Y = 400 * a + 100 * b + 4 * c + e) by lia.
  repeat split; try lia.
  - unfold days_before_year, DI400Y, DI100Y, DI4Y. fold Y.
    destruct (divmod_unique Y 4 (100 * a + 25 * b + c) e) as [-> _]; [lia | lia |].
    destruct (divmod_unique Y 100 (4 * a + b) (4 * c + e)) as [-> _]; [lia | lia |].
    fold a. lia.
  - unfold is_leap. replace y with (Y + 1) by (subst Y; lia).
    destruct (divmod_unique (Y + 1) 4 (100 * a + 25 * b + c + (e + 1) / 4)
                ((e + 1) mod 4)) as [_ ->].
    { apply Z.mod_pos_bound; lia. }
    { pose proof (Z.div_mod (e + 1) 4 ltac:(lia)). lia. }
    assert (Hm4 : ((e + 1) mod 4 =? 0) = (e =? 3)).
    { assert (e = 0 \/ e = 1 \/ e = 2 \/ e = 3) as [->|[->|[->| ->]]] by lia;
        reflexivity. }
    rewrite Hm4. destruct (Z.eqb_spec e 3) as [He3|He3]; [|reflexivity]. simpl.
    subst e. rewrite He3 in HY.
    destruct (divmod_unique (Y + 1) 100 (4 * a + b + (c + 1) / 25)
                (4 * ((c + 1) mod 25))) as [_ ->].
    { pose proof (Z.mod_pos_bound (c + 1) 25 ltac:(lia)). lia. }
    { pose proof (Z.div_mod (c + 1) 25 ltac:(lia)). lia. }
    assert (Hm25 : (4 * ((c + 1) mod 25) =? 0) = (c =? 24)).
    { destruct (Z.eqb_spec c 24) as [->|Hc24]; [reflexivity|].
      rewrite Z.mod_small by lia. apply Z.eqb_neq. lia. }
    rewrite Hm25. destruct (Z.eqb_spec c 24) as [Hc24|Hc24]; [|reflexivity]. simpl.
    rewrite Hc24 in HY.
    destruct (divmod_unique (Y + 1) 400 (a + (b + 1) / 4) (100 * ((b + 1) mod 4)))
      as [_ ->].
    { pose proof (Z.mod_pos_bound (b + 1) 4 ltac:(lia)). lia. }
    { pose proof (Z.div_mod (b + 1) 4 ltac:(lia)). lia. }
    assert (b = 0 \/ b = 1 \/ b = 2 \/ b = 3) as [->|[->|[->| ->]]] by lia;
      reflexivity.
Qed.

Lemma shiftr5 (n : Z) : Z.shiftr n 5 = n / 32.
Proof. rewrite Z.shiftr_div_pow2 by lia. reflexivity. Qed.

(** The estimate [(n + 50) >> 5] of the month is right or one too large, and
    the correction finds the month and the day. *)
Lemma month_day_spec (lp : bool) (m d : Z) :
  1 <= m <= 12 ->
  1 <= d <= (if (m =? 2) && lp then 29 else DAYS_IN_MONTH m) ->
  month_day lp (DAYS_BEFORE_MONTH m + (if (2 <? m) && lp then 1 else 0) + d - 1)
    = (m, d).
Proof.
  intros Hm Hd. unfold month_day. rewrite shiftr5.
  destruct lp; twelve_months m Hm;
    cbn in Hd;
    cbn [DAYS_BEFORE_MONTH Z.ltb Z.compare Pos.compare Pos.compare_cont andb];
    match goal with
    | |- context [ (?n / 32) ] =>
        pose proof (Z.div_mod n 32 ltac:(lia)) as Hq;
        pose proof (Z.mod_pos_bound n 32 ltac:(lia)) as Hr;
        generalize dependent (n mod 32); generalize dependent (n / 32)
    end; intros q r Hq Hr.
  all: match goal with
       | |- _ = (?m, _) =>
           let m1 := eval vm_compute in (m + 1) in
           assert (q = m \/ q = m1) as [-> | ->] by lia
       end.
  all: match goal with
       | |- context [?a <? ?b] => destruct (Z.ltb_spec a b) as [Hlt | Hge]
       end.
  all: try (exfalso; revert Hlt; eval_tables; lia).
  all: try (exfalso; revert Hge; eval_tables; lia).
  all: eval_tables; f_equal; lia.
Qed.

Lemma ord2ymd_month_day (o : Z) :
  ord2ymd o =
    let n := o - 1 in
    let n400 := n / DI400Y in
    let n := n mod DI400Y in
    let n100 := n / DI100Y in
    let n := n mod DI100Y in
    let n4 := n / DI4Y in
    let n := n mod DI4Y in
    let n1 := n / 365 in
    let n := n mod 365 in
    let y := n400 * 400 + 1 + n100 * 100 + n4 * 4 + n1 in
    if (n1 =? 4) || (n100 =? 4) then (y - 1, 12, 31)
    else
      let '(m, d) :=
        month_day ((n1 =? 3) && (negb (n4 =? 24) || (n100 =? 3))) n in
      (y, m, d).
Proof.
  unfold ord2ymd, month_day. cbv zeta.
  destruct (_ || _); [reflexivity|].
  destruct (_ <? _); reflexivity.
Qed.

Lemma doy_bounds (y m d : Z) :
  1 <= m <= 12 -> 1 <= d <= days_in_month y m ->
  0 <= days_before_month y m + d - 1 <= (if is_leap y then 365 else 364) /\
  (days_before_month y m + d - 1 = 365 -> m = 12 /\ d = 31).
Proof.
  intros Hm Hd. unfold days_before_month, days_in_month in *.
  destruct (is_leap y); twelve_months m Hm;
    cbn in Hd;
    cbn [DAYS_BEFORE_MONTH Z.ltb Z.compare Pos.compare Pos.compare_cont andb];
    lia.
Qed.

(** [ord2ymd] undoes [ymd2ord] on every day of the calendar. *)
Lemma ord2ymd_ymd2ord (y m d : Z) :
  1 <= m <= 12 -> 1 <= d <= days_in_month y m ->
  ord2ymd (ymd2ord y m d) = (y, m, d).
Proof.
  intros Hm Hd.
  destruct (year_cycles y) as (a & b & c & e & HY & Hb & Hc & He & Hdby & Hleap).
  destruct (doy_bounds y m d Hm Hd) as [Hdoy Hlast].
  rewrite ord2ymd_month_day. cbv zeta.
  unfold ymd2ord. rewrite Hdby.
  set (doy := days_before_month y m + d - 1) in *.
  unfold DI400Y, DI100Y, DI4Y in *.
  destruct (Z.eq_dec doy 365) as [E365 | N365].
  - (* 31 December of a leap year *)
    destruct (Hlast E365) as [-> ->].
    rewrite Hleap in Hdoy.
    assert (He3 : e = 3).
    { destruct (Z.eqb_spec e 3); [assumption | simpl in Hdoy; lia]. }
    subst e.
    destruct (Z.eq_dec c 24) as [Ec | Nc].
    + assert (Hb3 : b = 3).
      { subst c. destruct (Z.eqb_spec b 3); [assumption | simpl in Hdoy; lia]. }
      subst b c.
      set (n := _ - 1).
      destruct (divmod_unique n 146097 a 146096) as [-> ->];
        [lia | subst n doy; lia |].
      change (146096 / 36524) with 4. change (146096 mod 36524) with 0.
      cbn [Z.eqb orb]. change (4 =? 4) with true. rewrite orb_true_r.
      f_equal. f_equal. change (0 / 1461) with 0. change (0 mod 1461) with 0.
      change (0 / 365) with 0. lia.
    + set (n := _ - 1).
      destruct (divmod_unique n 146097 a (36524 * b + 1461 * c + 1460)) as [-> ->];
        [lia | subst n doy; lia |].
      destruct (divmod_unique (36524 * b + 1461 * c + 1460) 36524 b (1461 * c + 1460))
        as [-> ->]; [lia | lia |].
      destruct (divmod_unique (1461 * c + 1460) 1461 c 1460) as [-> ->];
        [lia | lia |].
      change (1460 / 365) with 4. change (4 =? 4) with true. cbn [orb].
      f_equal. f_equal. lia.
  - assert (Hd364 : doy <= 364) by (destruct (is_leap y); lia).
    set (n := _ - 1).
    destruct (divmod_unique n 146097 a (36524 * b + 1461 * c + 365 * e + doy))
      as [-> ->]; [lia | subst n; lia |].
    destruct (divmod_unique (36524 * b + 1461 * c + 365 * e + doy) 36524 b
                (1461 * c + 365 * e + doy)) as [-> ->]; [lia | lia |].
    destruct (divmod_unique (1461 * c + 365 * e + doy) 1461 c (365 * e + doy))
      as [-> ->]; [lia | lia |].
    destruct (divmod_unique (365 * e + doy) 365 e doy) as [-> ->]; [lia | lia |].
    replace (e =? 4) with false by (symmetry; apply Z.eqb_neq; lia).
    replace (b =? 4) with false by (symmetry; apply Z.eqb_neq; lia).
    cbn [orb]. rewrite <- Hleap.
    subst doy. unfold days_before_month.
    rewrite month_day_spec; [f_equal; f_equal; lia | lia | exact Hd].
Qed.

Lemma days_before_year_succ (y : Z) :
  days_before_year (y + 1) = days_before_year y + (if is_leap y then 366 else 365).
Proof.
  unfold days_before_year, is_leap. cbv zeta.
  replace (y + 1 - 1) with y by lia.
  destruct (Z.eqb_spec (y mod 4) 0) as [H4|H4];
  destruct (Z.eqb_spec (y mod 100) 0) as [H100|H100];
  destruct (Z.eqb_spec (y mod 400) 0) as [H400|H400];
  cbn [negb orb andb]; Z.div_mod_to_equations; lia.
Qed.

Lemma days_before_year_bounds (y : Z) :
  MINYEAR <= y <= MAXYEAR ->
  0 <= days_before_year y /\ days_before_year (y + 1) <= MAXORDINAL.
Proof.
  unfold MINYEAR, MAXYEAR, MAXORDINAL, days_before_year. cbv zeta.
  intros Hy. split; Z.div_mod_to_equations; lia.
Qed.

Lemma valid_ymd_spec (y m d : Z) :
  valid_ymd y m d = true <->
  MINYEAR <= y <= MAXYEAR /\ 1 <= m <= 12 /\ 1 <= d <= days_in_month y m.
Proof. unfold valid_ymd. rewrite !andb_true_iff, !Z.leb_le. lia. Qed.

Lemma days_in_month_range (y m : Z) :
  1 <= m <= 12 -> 28 <= days_in_month y m <= 31.
Proof.
  intros Hm. unfold days_in_month.
  destruct (is_leap y); twelve_months m Hm; cbn; lia.
Qed.

Lemma toordinal_range (y m d : Z) :
  valid_ymd y m d = true -> 1 <= ymd2ord y m d <= MAXORDINAL.
Proof.
  intros Hv. apply valid_ymd_spec in Hv as (Hy & Hm & Hd).
  destruct (doy_bounds y m d Hm Hd) as [Hdoy _].
  destruct (days_before_year_bounds y Hy) as [Hlo Hhi].
  rewrite days_before_year_succ in Hhi.
  unfold ymd2ord. destruct (is_leap y); lia.
Qed.

(** The day before the first of a month is the last day of the month
    before. *)
Lemma ymd2ord_first_pred (y m : Z) :
  1 <= m <= 12 ->
  let '(y', m') := prev_ym y m in
  ymd2ord y m 1 - 1 = ymd2ord y' m' (days_in_month y' m').
Proof.
  intros Hm. unfold prev_ym.
  destruct (Z.eqb_spec m 1) as [-> | Hm1].
  - unfold ymd2ord. replace y with (y - 1 + 1) at 1 by lia.
    rewrite days_before_year_succ.
    unfold days_before_month, days_in_month. cbn.
    destruct (is_leap (y - 1)); cbn; lia.
  - unfold ymd2ord, days_before_month, days_in_month.
    assert (Hm2 : 2 <= m <= 12) by lia. clear Hm Hm1.
    assert (m = 2 \/ m = 3 \/ m = 4 \/ m = 5 \/ m = 6 \/ m = 7 \/ m = 8 \/
            m = 9 \/ m = 10 \/ m = 11 \/ m = 12) as Hcases by lia.
    destruct (is_leap y); repeat (destruct Hcases as [-> | Hcases]); try subst m;
      eval_consts; cbn; lia.
Qed.

(** Thirty-one days after the first of a month is one of the first four
    days of the next month. *)
Lemma ymd2ord_first_plus31 (y m : Z) :
  1 <= m <= 12 ->
  let '(y', m') := next_ym y m in
  ymd2ord y m 1 + 31 = ymd2ord y' m' (32 - days_in_month y m).
Proof.
  intros Hm. unfold next_ym.
  destruct (Z.eqb_spec m 12) as [-> | Hm12].
  - unfold ymd2ord. rewrite days_before_year_succ.
    unfold days_before_month, days_in_month. cbn.
    destruct (is_leap y); cbn; lia.
  - unfold ymd2ord, days_before_month, days_in_month.
    assert (m = 1 \/ m = 2 \/ m = 3 \/ m = 4 \/ m = 5 \/ m = 6 \/ m = 7 \/
            m = 8 \/ m = 9 \/ m = 10 \/ m = 11) as Hcases by lia.
    destruct (is_leap y); repeat (destruct Hcases as [-> | Hcases]); try subst m;
      eval_consts; cbn; lia.
Qed.

Lemma add_days_ymd (y m d k y' m' d' : Z) :
  valid_ymd y' m' d' = true ->
  ymd2ord y m d + k = ymd2ord y' m' d' ->
  add_days (mkdate y m d) k = Ok (mkdate y' m' d').
Proof.
  intros Hv Heq. unfold add_days, toordinal. cbn [year month day].
  rewrite Heq. pose proof (toordinal_range _ _ _ Hv) as Hr.
  apply valid_ymd_spec in Hv as (_ & Hm & Hd).
  rewrite ord2ymd_ymd2ord by assumption.
  replace (0 <? _) with true by (symmetry; apply Z.ltb_lt; lia).
  replace (_ <=? MAXORDINAL) with true by (symmetry; apply Z.leb_le; lia).
  reflexivity.
Qed.

Lemma fromordinal_toordinal (d : date) :
  valid d = true -> fromordinal (toordinal d) = Ok d.
Proof.
  destruct d as [y m dd]. unfold valid, fromordinal, toordinal.
  cbn [year month day].
  intros Hv. pose proof (toordinal_range _ _ _ Hv) as Hr.
  replace (_ <? 1) with false by (symmetry; apply Z.ltb_ge; lia).
  pose proof Hv as Hv'. apply valid_ymd_spec in Hv' as (_ & Hm & Hd).
  rewrite ord2ymd_ymd2ord by assumption. unfold new. now rewrite Hv.
Qed.

Lemma month_start_ok (d : date) :
  valid d = true -> month_start d = Ok (mkdate (year d) (month d) 1).
Proof.
  unfold valid, month_start, new. intros Hv.
  apply valid_ymd_spec in Hv as (Hy & Hm & Hd).
  pose proof (days_in_month_range (year d) _ Hm).
  replace (valid_ymd _ _ 1) with true; [reflexivity|].
  symmetry. apply valid_ymd_spec. lia.
Qed.

Lemma last_of_month_valid (y m : Z) :
  MINYEAR <= y <= MAXYEAR -> 1 <= m <= 12 -> valid (last_of_month y m) = true.
Proof.
  intros Hy Hm. apply valid_ymd_spec. cbn [year month day last_of_month].
  pose proof (days_in_month_range y _ Hm). lia.
Qed.

Lemma month_end_prev_spec (d : date) :
  valid d = true -> ~ (year d = 1 /\ month d = 1) ->
  month_end_prev d =
    Ok (last_of_month (fst (prev_ym (year d) (month d)))
                      (snd (prev_ym (year d) (month d)))).
Proof.
  intros Hv Hne. unfold month_end_prev. rewrite (month_start_ok d Hv).
  cbn [mbind res_bind].
  apply valid_ymd_spec in Hv as (Hy & Hm & Hd). unfold MINYEAR, MAXYEAR in Hy.
  pose proof (ymd2ord_first_pred (year d) (month d) Hm) as Hp.
  destruct (prev_ym (year d) (month d)) as [y' m'] eqn:Hpm. cbn [fst snd].
  assert (Hv' : valid (last_of_month y' m') = true).
  { unfold prev_ym in Hpm. apply last_of_month_valid; unfold MINYEAR, MAXYEAR;
      destruct (Z.eqb_spec (month d) 1); injection Hpm as <- <-; lia. }
  rewrite (add_days_ymd _ _ _ _ y' m' (days_in_month y' m')); [| exact Hv' | lia].
  cbn [mbind res_bind]. apply (fromordinal_toordinal _ Hv').
Qed.

Lemma month_next_spec (d : date) :
  valid d = true -> ~ (year d = 9999 /\ month d = 12) ->
  month_next d =
    Ok (mkdate (fst (next_ym (year d) (month d)))
               (snd (next_ym (year d) (month d))) 1).
Proof.
  intros Hv Hne. unfold month_next. rewrite (month_start_ok d Hv).
  cbn [mbind res_bind].
  apply valid_ymd_spec in Hv as (Hy & Hm & Hd). unfold MINYEAR, MAXYEAR in Hy.
  pose proof (ymd2ord_first_plus31 (year d) (month d) Hm) as Hp.
  pose proof (days_in_month_range (year d) _ Hm) as Hdim.
  destruct (next_ym (year d) (month d)) as [y' m'] eqn:Hnm. cbn [fst snd].
  assert (Hym : MINYEAR <= y' <= MAXYEAR /\ 1 <= m' <= 12).
  { unfold next_ym in Hnm. unfold MINYEAR, MAXYEAR.
    destruct (Z.eqb_spec (month d) 12); injection Hnm as <- <-; lia. }
  destruct Hym as [Hy' Hm'].
  pose proof (days_in_month_range y' _ Hm') as Hdim'.
  assert (Hv' : valid (mkdate y' m' (32 - days_in_month (year d) (month d))) = true).
  { apply valid_ymd_spec. cbn [year month day]. lia. }
  rewrite (add_days_ymd _ _ _ _ y' m' (32 - days_in_month (year d) (month d)));
    [| exact Hv' | lia].
  cbn [mbind res_bind]. rewrite (fromordinal_toordinal _ Hv').
  cbn [mbind res_bind]. apply (month_start_ok _ Hv').
Qed.

Lemma prev_next_ym (y m : Z) :
  1 <= m <= 12 -> prev_ym (fst (next_ym y m)) (snd (next_ym y m)) = (y, m).
Proof.
  intros Hm. unfold next_ym, prev_ym.
  destruct (Z.eqb_spec m 12) as [-> | H12]; cbn [fst snd].
  - change (1 =? 1) with true. cbv iota. f_equal; lia.
  - destruct (Z.eqb_spec (m + 1) 1); [lia|]. f_equal; lia.
Qed.

(** [month_end] is the last day the calendar gives the month. *)
Lemma month_end_spec (d : date) :
  valid d = true -> ~ (year d = 9999 /\ month d = 12) ->
  month_end d = Ok (last_of_month (year d) (month d)).
Proof.
  intros Hv Hne. unfold month_end. rewrite (month_next_spec d Hv Hne).
  cbn [mbind res_bind].
  apply valid_ymd_spec in Hv as (Hy & Hm & Hd). unfold MINYEAR, MAXYEAR in Hy.
  set (nx := mkdate _ _ 1).
  assert (Hym : MINYEAR <= year nx <= MAXYEAR /\ 1 <= month nx <= 12 /\
                ~ (year nx = 1 /\ month nx = 1)).
  { subst nx. cbn [year month]. unfold next_ym, MINYEAR, MAXYEAR.
    destruct (Z.eqb_spec (month d) 12); cbn [fst snd]; lia. }
  destruct Hym as (Hy' & Hm' & Hne').
  assert (Hvn : valid nx = true).
  { apply valid_ymd_spec. pose proof (days_in_month_range (year nx) _ Hm').
    subst nx. cbn [year month day] in *. lia. }
  rewrite (month_end_prev_spec nx Hvn Hne').
  subst nx. cbn [year month]. now rewrite prev_next_ym.
Qed.

(** C9, as amended. For every date [d] outside January of year 1, the end of
    the previous month plus one day is the start of the month of [d]; for
    every date outside December of year 9999, the start of the next month is
    after the end of the month, and the end of the month is the day before
    the start of the next month and the last day the calendar gives the
    month, leap years included. *)
Theorem C9_month_boundaries (d : date) :
  valid d = true ->
  (~ (year d = 1 /\ month d = 1) -> prev_end_meets_start d) /\
  (~ (year d = 9999 /\ month d = 12) -> next_start_after_end d).
Proof.
  intros Hv. pose proof Hv as Hv0.
  apply valid_ymd_spec in Hv0 as (Hy & Hm & Hd). unfold MINYEAR, MAXYEAR in Hy.
  split; intros Hne.
  - eexists _, _. split; [apply (month_end_prev_spec d Hv Hne)|].
    split; [apply (month_start_ok d Hv)|].
    pose proof (ymd2ord_first_pred (year d) (month d) Hm) as Hp.
    destruct (prev_ym (year d) (month d)) as [y' m']. cbn [fst snd].
    unfold last_of_month.
    apply add_days_ymd; [|lia].
    apply valid_ymd_spec. pose proof (days_in_month_range (year d) _ Hm).
    unfold MINYEAR, MAXYEAR. lia.
  - pose proof (month_next_spec d Hv Hne) as Hnx.
    set (nx := mkdate _ _ 1) in Hnx.
    assert (Hym : MINYEAR <= year nx <= MAXYEAR /\ 1 <= month nx <= 12).
    { subst nx. cbn [year month]. unfold next_ym, MINYEAR, MAXYEAR.
      destruct (Z.eqb_spec (month d) 12); cbn [fst snd]; lia. }
    destruct Hym as (Hy' & Hm').
    assert (Hvn : valid nx = true).
    { apply valid_ymd_spec. pose proof (days_in_month_range (year nx) _ Hm').
      subst nx. cbn [year month day] in *. lia. }
    exists nx, nx, (last_of_month (year d) (month d)).
    split; [exact Hnx|]. split; [apply (month_start_ok nx Hvn)|].
    split; [apply (month_end_spec d Hv Hne)|].
    split; [|split; [|reflexivity]].
    + unfold gt, lt, last_of_month. subst nx. cbn [year month day].
      unfold next_ym. destruct (Z.eqb_spec (month d) 12) as [E|E]; cbn [fst snd].
      * replace (year d <? year d + 1) with true by (symmetry; apply Z.ltb_lt; lia).
        reflexivity.
      * rewrite Z.eqb_refl.
        replace (month d <? month d + 1) with true
          by (symmetry; apply Z.ltb_lt; lia).
        now rewrite orb_true_r.
    + pose proof (ymd2ord_first_pred (year nx) (month nx) Hm') as Hp.
      subst nx. cbn [year month] in Hp. rewrite prev_next_ym in Hp by assumption.
      unfold last_of_month. apply add_days_ymd; [|lia].
      apply (last_of_month_valid (year d) (month d)); unfold MINYEAR, MAXYEAR; lia.
Qed.

(** February of a leap year. *)
Lemma C9_witness :
  valid (mkdate 2024 2 10) = true /\
  prev_end_meets_start (mkdate 2024 2 10) /\
  next_start_after_end (mkdate 2024 2 10).
Proof.
  split; [reflexivity|].
  destruct (C9_month_boundaries (mkdate 2024 2 10) eq_refl) as [Hp Hn].
  split; [apply Hp | apply Hn]; cbn [year month]; lia.
Defined.

(** C9 as stated fails at the two ends of the calendar: the day before
    1 January of year 1 and the day 31 days after 1 December 9999 are no
    dates, and the subtraction and the addition raise. *)
Lemma C9_counterexample :
  valid (mkdate 1 1 1) = true /\
  month_end_prev (mkdate 1 1 1) = Raise OverflowError /\
  ~ prev_end_meets_start (mkdate 1 1 1) /\
  valid (mkdate 9999 12 31) = true /\
  month_end (mkdate 9999 12 31) = Raise OverflowError /\
  ~ next_start_after_end (mkdate 9999 12 31).
Proof.
  split; [reflexivity|]. split; [reflexivity|]. split.
  { intros (p & s & Hp & _). discriminate Hp. }
  split; [reflexivity|]. split; [reflexivity|].
  intros (nx & nxs & e & Hn & _). discriminate Hn.
Qed.

End MonthBoundaries.

(** ** Amounts: parsing, rendering and addition *)

Section Amounts.
Import decimal.
Local Open Scope Z_scope.

(** *** Characters *)

Lemma is_digit_amount_char (c : ascii) : is_digit c = true -> amount_char c = true.
Proof. unfold amount_char. now intros ->. Qed.

Lemma amount_char_not_space (c : ascii) :
  amount_char c = true -> pystr.is_space c = false.
Proof. by_cases_on_ascii c. Qed.

Lemma amount_char_not_symbol (c : ascii) :
  amount_char c = true -> NABNumber.is_symbol c = false.
Proof. by_cases_on_ascii c. Qed.

Lemma amount_char_not_blank (c : ascii) :
  amount_char c = true -> Ascii.eqb c " "%char = false.
Proof. by_cases_on_ascii c. Qed.

Lemma amount_char_not_m (c : ascii) : amount_char c = true -> c <> "m"%char.
Proof. by_cases_on_ascii c. Qed.

Lemma amount_char_not_N (c : ascii) : amount_char c = true -> c <> "N"%char.
Proof. by_cases_on_ascii c. Qed.

Lemma is_digit_not_point (c : ascii) :
  is_digit c = true -> Ascii.eqb c "."%char = false.
Proof. by_cases_on_ascii c. Qed.

Lemma is_digit_not_sign (c : ascii) :
  is_digit c = true ->
  Ascii.eqb c "-"%char = false /\ Ascii.eqb c "+"%char = false.
Proof. by_cases_on_ascii c; intros _; split; reflexivity. Qed.

Lemma not_space_not_LF (c : ascii) :
  pystr.is_space c = false -> Ascii.eqb c NABNumber.LF = false.
Proof. by_cases_on_ascii c. Qed.

(** *** The methods of [str] *)

Lemma drop_while_head (p : ascii -> bool) (c : ascii) (s : str) :
  p c = false -> pystr.drop_while p (c :: s) = c :: s.
Proof. intros H. cbn. now rewrite H. Qed.

Lemma drop_while_none (p : ascii -> bool) (s : str) :
  forallb (fun c => negb (p c)) s = true -> pystr.drop_while p s = s.
Proof.
  destruct s as [|c t]; [reflexivity|]. cbn [forallb]. intros H.
  apply andb_true_iff in H as [H _]. apply negb_true_iff in H.
  now apply drop_while_head.
Qed.

Lemma forallb_rev {A} (p : A -> bool) (l : list A) :
  forallb p (rev l) = forallb p l.
Proof.
  induction l as [|x l IH]; [reflexivity|]. cbn [rev forallb].
  rewrite forallb_app, IH. cbn. rewrite andb_true_r. apply andb_comm.
Qed.

Lemma strip_none (s : str) :
  forallb (fun c => negb (pystr.is_space c)) s = true -> pystr.strip s = s.
Proof.
  intros H. unfold pystr.strip, pystr.rstrip, pystr.lstrip.
  rewrite (drop_while_none _ (rev s)) by now rewrite forallb_rev.
  rewrite rev_involutive. now apply drop_while_none.
Qed.

Lemma split_absent (sep : ascii) (s : str) :
  forallb (fun c => negb (Ascii.eqb c sep)) s = true -> pystr.split sep s = [s].
Proof.
  induction s as [|c t IH]; [reflexivity|]. cbn [forallb pystr.split]. intros H.
  apply andb_true_iff in H as [Hc Ht]. apply negb_true_iff in Hc.
  rewrite Hc, (IH Ht). reflexivity.
Qed.

Lemma split_at_sep (sep : ascii) (a b : str) :
  forallb (fun c => negb (Ascii.eqb c sep)) a = true ->
  pystr.split sep (a ++ sep :: b) = a :: pystr.split sep b.
Proof.
  induction a as [|c t IH]; cbn [forallb app pystr.split]; intros H.
  - now rewrite Ascii.eqb_refl.
  - apply andb_true_iff in H as [Hc Ht]. apply negb_true_iff in Hc.
    rewrite Hc, (IH Ht). reflexivity.
Qed.

Lemma filter_none {A} (p : A -> bool) (l : list A) :
  forallb p l = true -> List.filter p l = l.
Proof.
  induction l as [|x l IH]; [reflexivity|]. cbn [forallb List.filter]. intros H.
  apply andb_true_iff in H as [Hx Hl]. now rewrite Hx, IH.
Qed.

Lemma forallb_impl {A} (p q : A -> bool) (l : list A) :
  (forall x, p x = true -> q x = true) -> forallb p l = true -> forallb q l = true.
Proof.
  intros Hpq. induction l as [|x l IH]; [reflexivity|]. cbn [forallb]. intros H.
  apply andb_true_iff in H as [Hx Hl]. rewrite (Hpq _ Hx), (IH Hl). reflexivity.
Qed.

Lemma startswith_second_absent (a b : ascii) (p s : str) :
  b ∉ s -> pystr.startswith (a :: b :: p) s = false.
Proof.
  destruct s as [|c [|d t]]; intros Hn; cbn; [reflexivity| |].
  - now rewrite andb_false_r.
  - destruct (Ascii.eqb_spec b d) as [->|]; [|now rewrite andb_false_r].
    exfalso. apply Hn. right. left.
Qed.

Lemma replace_second_absent (a b : ascii) (p new s : str) :
  b ∉ s -> pystr.replace (a :: b :: p) new s = s.
Proof.
  unfold pystr.replace. induction s as [|c t IH]; [reflexivity|].
  intros Hn. cbn [pystr.replace_from].
  rewrite startswith_second_absent by assumption.
  f_equal. apply IH. intros Hin. apply Hn. now right.
Qed.

Lemma take_while_app (p : ascii -> bool) (a b : str) :
  forallb p a = true ->
  pystr.take_while p (a ++ b) = a ++ pystr.take_while p b.
Proof.
  induction a as [|c t IH]; [reflexivity|]. cbn [forallb app pystr.take_while].
  intros H. apply andb_true_iff in H as [Hc Ht]. now rewrite Hc, IH.
Qed.

Lemma drop_while_app (p : ascii -> bool) (a b : str) :
  forallb p a = true ->
  pystr.drop_while p (a ++ b) = pystr.drop_while p b.
Proof.
  induction a as [|c t IH]; [reflexivity|]. cbn [forallb app pystr.drop_while].
  intros H. apply andb_true_iff in H as [Hc Ht]. now rewrite Hc, IH.
Qed.

Lemma take_while_all (p : ascii -> bool) (a : str) :
  forallb p a = true -> pystr.take_while p a = a.
Proof.
  intros H. rewrite <- (app_nil_r a) at 1. rewrite take_while_app by assumption.
  cbn. apply app_nil_r.
Qed.

Lemma drop_while_all (p : ascii -> bool) (a : str) :
  forallb p a = true -> pystr.drop_while p a = [].
Proof.
  intros H. rewrite <- (app_nil_r a) at 1. now rewrite drop_while_app.
Qed.

(** *** The way of a plain amount through [NABNumber.__new__] *)

Lemma two_decimals_inv (i f : str) :
  two_decimals i f = true ->
  forallb is_digit i = true /\ i <> [] /\ forallb is_digit f = true /\
  exists a b, f = [a; b].
Proof.
  unfold two_decimals, whole_part. rewrite !andb_true_iff.
  intros [[[Hi Hc] Hf] Hl]. repeat split; try assumption.
  - destruct i; [discriminate | congruence].
  - destruct f as [|a [|b [|c t]]]; try discriminate. eauto.
Qed.

Lemma amount_text_chars (neg : bool) (i f : str) :
  two_decimals i f = true -> forallb amount_char (amount_text neg i f) = true.
Proof.
  intros H. apply two_decimals_inv in H as (Hi & _ & Hf & _).
  unfold amount_text. rewrite !forallb_app.
  rewrite (forallb_impl _ _ _ is_digit_amount_char Hi).
  rewrite (forallb_impl _ _ _ is_digit_amount_char Hf).
  destruct neg; reflexivity.
Qed.

Lemma amount_text_nonempty (neg : bool) (i f : str) :
  two_decimals i f = true -> amount_text neg i f <> [].
Proof.
  intros H. apply two_decimals_inv in H as (_ & Hi & _). unfold amount_text.
  destruct neg; [discriminate|]. destruct i; [congruence | discriminate].
Qed.

Lemma amount_chars_no_space (t : str) :
  forallb amount_char t = true ->
  forallb (fun c => negb (pystr.is_space c)) t = true.
Proof.
  apply forallb_impl. intros c Hc. now rewrite amount_char_not_space.
Qed.

Lemma amount_chars_not_NA (t : str) :
  forallb amount_char t = true -> pystr.eqb t (py "N/A") = false.
Proof.
  intros H. unfold pystr.eqb. apply bool_decide_eq_false. intros ->. discriminate.
Qed.

Lemma amount_chars_no_m (t : str) : forallb amount_char t = true -> "m"%char ∉ t.
Proof.
  induction t as [|c t IH]; cbn [forallb]; intros H.
  - apply not_elem_of_nil.
  - apply andb_true_iff in H as [Hc Ht]. apply not_elem_of_cons. split.
    + intros <-. discriminate.
    + now apply IH.
Qed.

(** The path of [NABNumber.__new__] down to [Decimal.__new__], for a text
    that is a plain amount once the currency symbols are gone. *)
Lemma new_plain (x t : str) :
  forallb (fun c => negb (pystr.is_space c)) x = true ->
  NABNumber.remove_symbols x = t ->
  forallb amount_char t = true -> t <> [] ->
  NABNumber.__new__ (NABNumber.VText (Some x)) = of_str t.
Proof.
  intros Hx Hr Ht Hne. unfold NABNumber.__new__.
  assert (Hxne : x <> []) by (intros ->; cbn in Hr; congruence).
  destruct x as [|c0 x']; [congruence|]. set (x := c0 :: x') in *.
  rewrite (split_absent NABNumber.LF x)
    by (revert Hx; apply forallb_impl; intros c Hc; apply negb_true_iff in Hc;
        now rewrite not_space_not_LF).
  cbn [map concat]. rewrite (strip_none x Hx), app_nil_r, Hr.
  rewrite (strip_none t (amount_chars_no_space t Ht)).
  rewrite (split_absent " " t)
    by (revert Ht; apply forallb_impl; intros c Hc; now rewrite amount_char_not_blank).
  cbn [app take].
  change (py "-minus") with ("-"%char :: "m"%char :: py "inus").
  rewrite (replace_second_absent _ _ _ _ _ (amount_chars_no_m t Ht)).
  rewrite (amount_chars_not_NA t Ht).
  replace (pystr.eqb t []) with false
    by (symmetry; apply bool_decide_eq_false; exact Hne).
  reflexivity.
Qed.

Lemma strip_framed (c z : ascii) (m : str) :
  pystr.is_space c = false -> pystr.is_space z = false ->
  pystr.strip ((c :: m) ++ [z]) = (c :: m) ++ [z].
Proof.
  intros Hc Hz. unfold pystr.strip, pystr.rstrip, pystr.lstrip.
  rewrite rev_app_distr. cbn [rev app].
  rewrite (drop_while_head _ z _ Hz).
  change (z :: (rev m ++ [c])) with (rev [z] ++ rev (c :: m)).
  rewrite <- rev_app_distr, rev_involutive. cbn [app].
  now apply drop_while_head.
Qed.

Lemma strip_DR (x : str) :
  x <> [] -> forallb (fun c => negb (pystr.is_space c)) x = true ->
  pystr.strip (x ++ py " DR") = x ++ py " DR".
Proof.
  intros Hne Hx. destruct x as [|c x']; [congruence|].
  cbn [forallb] in Hx. apply andb_true_iff in Hx as [Hc _].
  apply negb_true_iff in Hc.
  change (py " DR") with (py " D" ++ ["R"%char]). rewrite app_assoc.
  change ((c :: x') ++ py " D") with (c :: (x' ++ py " D")).
  now apply strip_framed.
Qed.

(** The same with the marker of a debit after the amount. *)
Lemma new_plain_DR (x t : str) :
  forallb (fun c => negb (pystr.is_space c)) x = true ->
  NABNumber.remove_symbols x = t ->
  forallb amount_char t = true -> t <> [] ->
  NABNumber.__new__ (NABNumber.VText (Some (x ++ py " DR"))) = of_str (py "-" ++ t).
Proof.
  intros Hx Hr Ht Hne. unfold NABNumber.__new__.
  assert (Hxne : x <> []) by (intros ->; cbn in Hr; congruence).
  assert (HxDR : forallb (fun c => negb (Ascii.eqb c NABNumber.LF)) (x ++ py " DR") = true).
  { rewrite forallb_app. apply andb_true_iff. split; [|reflexivity].
    revert Hx. apply forallb_impl. intros c Hc. apply negb_true_iff in Hc.
    now rewrite not_space_not_LF. }
  destruct (x ++ py " DR") as [|c0 x'] eqn:E; [destruct x; discriminate|].
  rewrite <- E in *. clear E c0 x'.
  rewrite (split_absent NABNumber.LF _ HxDR). cbn [map concat]. rewrite app_nil_r.
  assert (Hstrip := strip_DR x Hxne Hx).
  rewrite Hstrip.
  assert (Hrem : NABNumber.remove_symbols (x ++ py " DR") = t ++ py " DR").
  { unfold NABNumber.remove_symbols in *. rewrite List.filter_app, Hr. reflexivity. }
  rewrite Hrem.
  assert (Hstrip2 := strip_DR t Hne (amount_chars_no_space t Ht)).
  rewrite Hstrip2.
  change (t ++ py " DR") with (t ++ " "%char :: py "DR").
  rewrite (split_at_sep " " t (py "DR"))
    by (revert Ht; apply forallb_impl; intros c Hc; now rewrite amount_char_not_blank).
  cbn [pystr.split py list_ascii_of_string app take].
  change (py "-minus") with ("-"%char :: "m"%char :: py "inus").
  rewrite (replace_second_absent _ _ _ _ _ (amount_chars_no_m t Ht)).
  replace (pystr.eqb (t ++ _) (py "N/A")) with false.
  2:{ symmetry. apply bool_decide_eq_false. intros Heq.
      apply (f_equal length) in Heq. rewrite length_app in Heq.
      destruct t; [congruence | cbn in Heq; lia]. }
  replace (pystr.eqb (t ++ _) []) with false
    by (symmetry; apply bool_decide_eq_false; destruct t; discriminate).
  reflexivity.
Qed.

(** *** From the text of an amount to its [Decimal] *)

Lemma norm_int_head (c : ascii) (s : str) :
  is_zero_char c = false -> norm_int (c :: s) = c :: s.
Proof. intros H. unfold norm_int. now rewrite drop_while_head. Qed.

Lemma of_str_amount (neg : bool) (i f : str) :
  two_decimals i f = true ->
  of_str (amount_text neg i f) = Ok (Finite neg (norm_int (i ++ f)) (-2)).
Proof.
  intros H. pose proof (amount_text_chars neg i f H) as Hchars.
  apply two_decimals_inv in H as (Hi & Hne & Hf & a & b & ->).
  unfold of_str. rewrite (strip_none _ (amount_chars_no_space _ Hchars)).
  assert (Hsign :
    match amount_text neg i [a; b] with
    | c :: t =>
        if Ascii.eqb c "-" then (true, t)
        else if Ascii.eqb c "+" then (false, t)
        else (false, amount_text neg i [a; b])
    | [] => (false, amount_text neg i [a; b])
    end = (neg, i ++ py "." ++ [a; b])).
  { unfold amount_text. destruct neg; [reflexivity|].
    destruct i as [|c i']; [congruence|]. cbn [app forallb] in *.
    apply andb_true_iff in Hi as [Hc _].
    destruct (is_digit_not_sign c Hc) as [-> ->]. reflexivity. }
  rewrite Hsign. clear Hsign.
  unfold parse_number, span.
  rewrite (take_while_app _ i _ Hi), (drop_while_app _ i _ Hi).
  cbn [py list_ascii_of_string app pystr.take_while pystr.drop_while is_digit
       N_of_ascii]. change (is_digit ".") with false. cbv iota.
  rewrite app_nil_r. cbn [Ascii.eqb Bool.eqb]. cbv iota.
  rewrite (take_while_all _ _ Hf), (drop_while_all _ _ Hf).
  destruct i as [|c i']; [congruence|]. cbn [parse_exp]. reflexivity.
Qed.

(** *** Formatting with two decimals *)

Lemma length_zeros (k : Z) : length (zeros k) = Z.to_nat k.
Proof. unfold zeros. apply repeat_length. Qed.

Lemma places_length (n : str) : length (snd (places n)) = 2%nat.
Proof.
  unfold places, len, from. destruct (Z.ltb_spec (Z.of_nat (length n) - 2) 0); cbn [snd].
  - rewrite length_app, length_zeros. lia.
  - rewrite length_drop. lia.
Qed.

Lemma layout_exp2 (sp : spec) (s : bool) (n : str) :
  layout sp s n (-2) =
    pystr.rjust (minimumwidth sp)
      (_format_sign s ++ fst (places n) ++ py "." ++ snd (places n)).
Proof.
  unfold layout.
  assert (Hlen : 0 <= len n) by (unfold len; lia).
  assert (Hadj :
    match sp with
    | FmtFixed _ _ => if is_zero n && (0 <? -2) then (py "0", 0) else (n, -2)
    | FmtGeneral => (n, -2)
    end = (n, -2)).
  { destruct sp; [reflexivity|]. change (0 <? -2) with false.
    now rewrite andb_false_r. }
  rewrite Hadj. clear Hadj.
  assert (Hdot :
    match sp with
    | FmtFixed _ _ => -2 + len n
    | FmtGeneral => if (-2 <=? 0) && (-6 <? -2 + len n) then -2 + len n else 1
    end = len n - 2).
  { destruct sp; [|lia].
    replace (-6 <? -2 + len n) with true by (symmetry; apply Z.ltb_lt; lia).
    change (-2 <=? 0) with true. cbn [andb]. lia. }
  cbv zeta. rewrite Hdot. clear Hdot.
  pose proof (places_length n) as Hpl. unfold places in *.
  replace (-2 + len n - (len n - 2)) with 0 by lia.
  unfold _format_number, _format_align. change (0 =? 0) with true. cbv iota.
  destruct (Z.ltb_spec (len n - 2) 0) as [Hneg|Hpos].
  - replace (- (len n - 2)) with (2 - len n) by lia. cbn [fst snd] in *.
    destruct (zeros (2 - len n) ++ n); [discriminate | reflexivity].
  - replace (len n <? len n - 2) with false by (symmetry; apply Z.ltb_ge; lia).
    cbn [fst snd] in *.
    destruct (from (len n - 2) n); [discriminate | reflexivity].
Qed.

Lemma rescale_shape (s : bool) (n : str) (e x : Z) :
  exists n', _rescale s n e x = Finite s n' x.
Proof.
  unfold _rescale. destruct (is_zero n); [eauto|].
  destruct (x <=? e); [eauto|]. cbv zeta.
  destruct (len n + e - x <? 0); eauto.
Qed.

Lemma rescale_same (s : bool) (n : str) (e : Z) : _rescale s n e e = Finite s n e.
Proof.
  unfold _rescale, is_zero, pystr.eqb. case_bool_decide as Hz; [now subst|].
  rewrite Z.leb_refl, Z.sub_diag. cbn. now rewrite app_nil_r.
Qed.

(** The rendering of [NABNumber.__str__] for every finite value: a sign, the
    digits before the point, the point and two digits, right-justified to
    six characters. *)
Lemma str_finite_shape (s : bool) (n : str) (e : Z) :
  exists ip fp,
    NABNumber.__str__ (Finite s n e) =
      pystr.rjust 6 (_format_sign s ++ ip ++ py "." ++ fp) /\
    length fp = 2%nat.
Proof.
  unfold NABNumber.__str__, format, spec_6_2f. change (Z.opp 2) with (-2).
  destruct (rescale_shape s n e (-2)) as [n' ->].
  exists (fst (places n')), (snd (places n')).
  split; [apply layout_exp2 | apply places_length].
Qed.

Lemma rjust_length (w : nat) (s : str) : (w <= length (pystr.rjust w s))%nat.
Proof. unfold pystr.rjust. rewrite length_app, repeat_length. lia. Qed.

(** The point in the coefficient of a plain amount. *)
Lemma places_amount (i f : str) :
  two_decimals i f = true -> places (norm_int (i ++ f)) = (i, f).
Proof.
  intros H. pose proof H as H0.
  apply two_decimals_inv in H as (Hi & Hne & Hf & a & b & ->).
  unfold two_decimals, whole_part in H0. rewrite !andb_true_iff in H0.
  destruct H0 as [[[_ Hw] _] _].
  destruct i as [|c i']; [congruence|].
  destruct (is_zero_char c) eqn:Hc.
  - (* the whole part is "0" *)
    destruct i' as [|c2 i'']; [|discriminate].
    apply Ascii.eqb_eq in Hc as ->.
    unfold norm_int. cbn [app pystr.drop_while]. change (is_zero_char "0") with true.
    cbv iota. destruct (is_zero_char a) eqn:Ha.
    + apply Ascii.eqb_eq in Ha as ->. destruct (is_zero_char b) eqn:Hb.
      * apply Ascii.eqb_eq in Hb as ->. reflexivity.
      * reflexivity.
    + reflexivity.
  - rewrite <- app_comm_cons, (norm_int_head _ _ Hc).
    unfold places, len. rewrite app_comm_cons, length_app.
    change (length [a; b]) with 2%nat.
    set (w := c :: i') in *.
    replace (Z.of_nat (length w + 2) - 2) with (Z.of_nat (length w)) by lia.
    replace (Z.of_nat (length w) <? 0) with false by (symmetry; apply Z.ltb_ge; lia).
    unfold upto, from. rewrite Nat2Z.id.
    rewrite take_app_length, drop_app_length. reflexivity.
Qed.

Lemma format_sign_amount (neg : bool) (i f : str) :
  _format_sign neg ++ i ++ py "." ++ f = amount_text neg i f.
Proof. unfold _format_sign, amount_text. now destruct neg. Qed.

Lemma str_amount (neg : bool) (i f : str) :
  two_decimals i f = true ->
  NABNumber.__str__ (Finite neg (norm_int (i ++ f)) (-2)) =
    pystr.rjust 6 (amount_text neg i f).
Proof.
  intros H. unfold NABNumber.__str__, format, spec_6_2f.
  change (Z.opp 2) with (-2). rewrite rescale_same, layout_exp2, (places_amount i f H).
  cbn [fst snd minimumwidth]. now rewrite format_sign_amount.
Qed.

Lemma format_amount (neg : bool) (i f : str) :
  two_decimals i f = true ->
  NABNumber.__format__ (Finite neg (norm_int (i ++ f)) (-2)) = amount_text neg i f.
Proof.
  intros H. unfold NABNumber.__format__, format, spec_default.
  rewrite layout_exp2, (places_amount i f H).
  cbn [fst snd minimumwidth]. now rewrite format_sign_amount.
Qed.

Lemma drop_while_kept (p : ascii -> bool) (a b : str) :
  a <> [] -> forallb (fun c => negb (p c)) a = true ->
  pystr.drop_while p (a ++ b) = a ++ b.
Proof.
  destruct a as [|c a']; [congruence|]. intros _ H. cbn [forallb] in H.
  apply andb_true_iff in H as [Hc _]. apply negb_true_iff in Hc.
  cbn [app]. now apply drop_while_head.
Qed.

Lemma forallb_repeat {A} (p : A -> bool) (x : A) (k : nat) :
  p x = true -> forallb p (repeat x k) = true.
Proof. intros H. induction k; [reflexivity | cbn; now rewrite H]. Qed.

Lemma strip_rjust (w : nat) (t : str) :
  forallb (fun c => negb (pystr.is_space c)) t = true ->
  pystr.strip (pystr.rjust w t) = t.
Proof.
  intros Ht. unfold pystr.rjust, pystr.strip, pystr.rstrip, pystr.lstrip.
  set (pad := repeat " "%char (w - length t)).
  assert (Hpad : forallb pystr.is_space pad = true) by now apply forallb_repeat.
  destruct t as [|c t'].
  - rewrite app_nil_r.
    rewrite (drop_while_all _ (rev pad)) by now rewrite forallb_rev.
    reflexivity.
  - rewrite rev_app_distr.
    rewrite (drop_while_kept _ (rev (c :: t')) (rev pad)).
    + rewrite <- rev_app_distr, rev_involutive.
      rewrite drop_while_app by assumption. now apply drop_while_none.
    + cbn [rev]. destruct (rev t'); discriminate.
    + now rewrite forallb_rev.
Qed.

(** *** The claims on amounts *)

(** C6 at the failing input. 1.00 + 0.01 is computed with a precision of two
    significant digits: the sum is 1.0 and shows as 1.00, where the exact
    sum 1.01 shows as 1.01; 120.00 + 1.50 is 1.2E+2 and shows as 120.00. *)
Theorem C6_sum_keeps_two_significant_digits :
  (a ← NABNumber.of_text "1.00"; b ← NABNumber.of_text "0.01";
   NABNumber.__add__ a b) = Ok (Finite false (py "10") (-1)) /\
  (a ← NABNumber.of_text "1.00"; b ← NABNumber.of_text "0.01";
   s ← NABNumber.__add__ a b; Ok (NABNumber.__str__ s)) = Ok (py "  1.00") /\
  parse_then_str (py "1.01") = Ok (py "  1.01") /\
  (a ← NABNumber.of_text "120.00"; b ← NABNumber.of_text "1.50";
   NABNumber.__add__ a b) = Ok (Finite false (py "12") 1) /\
  (a ← NABNumber.of_text "120.00"; b ← NABNumber.of_text "1.50";
   s ← NABNumber.__add__ a b; Ok (NABNumber.__str__ s)) = Ok (py "120.00").
Proof. repeat split; vm_compute; reflexivity. Qed.

(** C8, as amended. Let [x] be a text without white space that, once the
    currency symbols [+], [,] and [$] are removed, is a plain amount with two
    decimals. Then [str(NABNumber(x))] is that plain amount, right-justified
    to six characters; with the marker [" DR"] after a positive [x], it is
    the negated amount, right-justified to six characters; and
    [str(NABNumber("120.00 DR"))] is ["-120.00"]. *)
Theorem C8_round_trip (x : str) (neg : bool) (i f : str) :
  two_decimals i f = true ->
  forallb (fun c => negb (pystr.is_space c)) x = true ->
  NABNumber.remove_symbols x = amount_text neg i f ->
  parse_then_str x = Ok (pystr.rjust 6 (amount_text neg i f)) /\
  (neg = false ->
   parse_then_str (x ++ py " DR") = Ok (pystr.rjust 6 (amount_text true i f))) /\
  parse_then_str (py "120.00 DR") = Ok (py "-120.00").
Proof.
  intros H Hx Hr. unfold parse_then_str. split; [|split].
  - rewrite (new_plain x _ Hx Hr (amount_text_chars neg i f H)
               (amount_text_nonempty neg i f H)).
    rewrite (of_str_amount neg i f H). cbn [mbind res_bind].
    now rewrite (str_amount neg i f H).
  - intros ->.
    rewrite (new_plain_DR x _ Hx Hr (amount_text_chars false i f H)
               (amount_text_nonempty false i f H)).
    change (py "-" ++ amount_text false i f) with (amount_text true i f).
    rewrite (of_str_amount true i f H). cbn [mbind res_bind].
    now rewrite (str_amount true i f H).
  - reflexivity.
Qed.

(** The amount ["$1,234.56"]. *)
Lemma C8_witness :
  two_decimals (py "1234") (py "56") = true /\
  forallb (fun c => negb (pystr.is_space c)) (py "$1,234.56") = true /\
  NABNumber.remove_symbols (py "$1,234.56")
    = amount_text false (py "1234") (py "56") /\
  parse_then_str (py "$1,234.56") = Ok (py "1234.56") /\
  parse_then_str (py "$1,234.56 DR") = Ok (py "-1234.56").
Proof.
  split; [reflexivity|]. split; [reflexivity|]. split; [reflexivity|].
  destruct (C8_round_trip (py "$1,234.56") false (py "1234") (py "56")
              eq_refl eq_refl eq_refl) as (H1 & H2 & _).
  split; [exact H1 | exact (H2 eq_refl)].
Defined.

(** C8 as stated fails on a short amount: ["5.00"] comes back with two
    leading spaces. *)
Lemma C8_counterexample :
  parse_then_str (py "5.00") = Ok (py "  5.00") /\
  parse_then_str (py "5.00") <> Ok (py "5.00").
Proof. split; [reflexivity | discriminate]. Qed.

End Amounts.

(** ** Rows: the detail text and the payee *)

(** [re.split] with a limit of one split gives one part or two. *)
Lemma split_spaces_shape (s : str) :
  Account.split_spaces s = [s] \/ exists a b, Account.split_spaces s = [a; b].
Proof.
  induction s as [|c t IH]; [left; reflexivity|].
  cbn [Account.split_spaces]. destruct t as [|b t']; [left; reflexivity|].
  destruct (Ascii.eqb c " " && Ascii.eqb b " "); [right; eauto|].
  destruct IH as [-> | (x & y & ->)]; [left; reflexivity | right; eauto].
Qed.

Lemma split_spaces_run (s : str) :
  if has_run s
  then exists a b, Account.split_spaces s = [a; b]
  else Account.split_spaces s = [s].
Proof.
  induction s as [|c t IH]; [reflexivity|].
  cbn [Account.split_spaces has_run]. destruct t as [|b t']; [reflexivity|].
  destruct (Ascii.eqb c " " && Ascii.eqb b " "); [cbn [orb]; eauto|].
  cbn [orb]. destruct (has_run (b :: t')).
  - destruct IH as (x & y & ->). eauto.
  - now rewrite IH.
Qed.

(** The assignment raises on every text with a run of spaces, and makes the
    whole text the memo otherwise. *)
Lemma location_memo_spec (s : str) :
  Account.location_memo s =
    if has_run (pystr.strip s) then Raise ValueError else Ok ([], pystr.strip s).
Proof.
  unfold Account.location_memo.
  pose proof (split_spaces_run (pystr.strip s)) as H.
  destruct (has_run (pystr.strip s)).
  - destruct H as (a & b & ->). reflexivity.
  - rewrite H. cbn. now destruct (pystr.strip s).
Qed.

Lemma location_memo_ok (s l m : str) :
  Account.location_memo s = Ok (l, m) -> l = [] /\ m = pystr.strip s.
Proof.
  rewrite location_memo_spec. destruct (has_run _); [discriminate|].
  now intros [= <- <-].
Qed.

(** C2 at the failing input. The detail text ["SOMEMERCHANT   COFFEE SHOP"]
    splits in two parts; with the padding element the right-hand side of the
    assignment has three values for two targets, and the assignment raises
    ValueError: no memo is produced. A text without a run of spaces is the
    memo as a whole, with an empty location; every text with a run of
    spaces raises. *)
Theorem C2_split_raises :
  Account.split_spaces (py "SOMEMERCHANT   COFFEE SHOP")
    = [py "SOMEMERCHANT"; py "COFFEE SHOP"] /\
  Account.location_memo (py "SOMEMERCHANT   COFFEE SHOP") = Raise ValueError /\
  Account.location_memo (py "COFFEE SHOP") = Ok ([], py "COFFEE SHOP") /\
  forall s : str,
    Account.location_memo s =
      if has_run (pystr.strip s) then Raise ValueError
      else Ok ([], pystr.strip s).
Proof.
  split; [reflexivity|]. split; [reflexivity|]. split; [reflexivity|].
  exact location_memo_spec.
Qed.

Lemma startswith_head_absent (c : ascii) (p s : str) :
  c ∉ s -> pystr.startswith (c :: p) s = false.
Proof.
  destruct s as [|b t]; [reflexivity|]. intros Hn. cbn.
  destruct (Ascii.eqb_spec c b) as [->|]; [|reflexivity].
  exfalso. apply Hn. left.
Qed.

Lemma replace_head_absent (c : ascii) (p new s : str) :
  c ∉ s -> pystr.replace (c :: p) new s = s.
Proof.
  unfold pystr.replace. induction s as [|b t IH]; [reflexivity|].
  intros Hn. cbn [pystr.replace_from].
  rewrite startswith_head_absent by assumption.
  f_equal. apply IH. intros Hin. apply Hn. now right.
Qed.

(** The four texts looked for start with a caret: a memo without a caret is
    its own payee. *)
Lemma payee_of_without_caret (memo : str) :
  memo <> [] -> "^"%char ∉ memo -> Account.payee_of memo = Some memo.
Proof.
  intros Hne Hc. unfold Account.payee_of. destruct memo as [|c t]; [congruence|].
  change (py "^.*[0-9][0-9]:[0-9][0-9] ")
    with ("^"%char :: py ".*[0-9][0-9]:[0-9][0-9] ").
  change (py "^INTERNET BPAY *") with ("^"%char :: py "INTERNET BPAY *").
  change (py "^INTERNET TRANSFER *") with ("^"%char :: py "INTERNET TRANSFER *").
  change (py "^FEES *") with ("^"%char :: py "FEES *").
  do 4 rewrite (replace_head_absent _ _ _ _ Hc). reflexivity.
Qed.

(** C5 at the failing inputs. The prefixes stay in the payee: the calls of
    [str.replace] look for the texts of the patterns, carets and stars
    included, and these do not occur in a memo. An empty memo gives the
    payee [None]. *)
Theorem C5_prefix_kept :
  Account.payee_of (py "INTERNET BPAY TELSTRA")
    = Some (py "INTERNET BPAY TELSTRA") /\
  Account.payee_of (py "INTERNET TRANSFER RENT")
    = Some (py "INTERNET TRANSFER RENT") /\
  Account.payee_of (py "FEES ACCOUNT") = Some (py "FEES ACCOUNT") /\
  Account.payee_of (py "CARD 12:30 CAFE") = Some (py "CARD 12:30 CAFE") /\
  Account.payee_of [] = None.
Proof. repeat split; reflexivity. Qed.

(** ** Accounts: extraction and export *)

Lemma of_text_zero : NABNumber.of_text "0.00" = Ok zero.
Proof. reflexivity. Qed.

Lemma main_account_init (opening : Account.balance) :
  Account.__init__ (py "transaction-account") (Some (py "083-004"))
    (py "123456789") (Some (py "Main")) opening None (ymd 2024 1 31)
    (ymd 2024 2 3) = Ok (main_account opening).
Proof. reflexivity. Qed.

Lemma rules_only_refl (a : Account.t) : rules_only a a.
Proof. exists (Account._payee_category_map a). now destruct a. Qed.

Lemma rules_only_trans (a b c : Account.t) :
  rules_only a b -> rules_only b c -> rules_only a c.
Proof. intros [x ->] [y ->]. now exists y. Qed.

Lemma payee_category_map_rules_only (fs : filesystem) (a : Account.t) m a' :
  Account.payee_category_map fs a = Ok (m, a') -> rules_only a a'.
Proof.
  unfold Account.payee_category_map.
  destruct (Account._payee_category_map a) as [m0|].
  - intros [= <- <-]. apply rules_only_refl.
  - intros Hb. bind_ok Hb. injection Hb as <- <-. now exists (Some x).
Qed.

Lemma categorise_rules_only `{Runtime} (fs : filesystem) (a : Account.t)
    payee memo c a' :
  Account.categorise fs a payee memo = Ok (c, a') -> rules_only a a'.
Proof.
  unfold Account.categorise. intros Hc.
  bind_as Hc ma Hmap. destruct ma as [m a1].
  apply payee_category_map_rules_only in Hmap.
  bind_as Hc c1 Hp. destruct c1 as [v|].
  - injection Hc as <- <-. exact Hmap.
  - bind_as Hc ma2 Hmap2. destruct ma2 as [m2 a2].
    apply payee_category_map_rules_only in Hmap2.
    bind_ok Hc. injection Hc as <- <-. eapply rules_only_trans; eassumption.
Qed.

Lemma process_row_rules_only `{Runtime} (fs : filesystem) (a : Account.t)
    row tr a' :
  Account.process_row fs a row = Ok (tr, a') -> rules_only a a'.
Proof.
  unfold Account.process_row. destruct (_ <? _)%nat.
  - intros [= <- <-]. apply rules_only_refl.
  - intros Hp. bind_as Hp lm Hlm. destruct lm as [location memo].
    bind_ok Hp. bind_ok Hp. destruct (negb _); [discriminate|].
    bind_ok Hp. bind_ok Hp. bind_ok Hp. bind_ok Hp. bind_ok Hp.
    bind_as Hp ca Hcat. destruct ca as [c a1]. bind_ok Hp. injection Hp as <- <-.
    eapply categorise_rules_only; eassumption.
Qed.

(** Every row leaves one element in the list, a transaction or [None]. *)
Lemma process_rows_spec `{Runtime} (fs : filesystem) (rows : list RawRow) :
  forall a trs a', Account.process_rows fs a rows = Ok (trs, a') ->
  length trs = length rows /\ rules_only a a'.
Proof.
  induction rows as [|row rest IH]; intros a trs a' Hp.
  - cbn in Hp. injection Hp as <- <-. split; [reflexivity | apply rules_only_refl].
  - cbn [Account.process_rows] in Hp.
    bind_as Hp ta Hrow. destruct ta as [tr a1].
    bind_as Hp tsa Hrest. destruct tsa as [trs1 a2].
    injection Hp as <- <-. apply process_row_rules_only in Hrow.
    apply IH in Hrest as [Hlen Hr]. split; [cbn; now f_equal|].
    eapply rules_only_trans; eassumption.
Qed.

Lemma process_row_short `{Runtime} (fs : filesystem) (a : Account.t)
    (row : RawRow) :
  (cells row < length (Account.var_names a))%nat ->
  Account.process_row fs a row = Ok (None, a).
Proof.
  intros Hlt. unfold Account.process_row.
  destruct (Nat.ltb_spec (cells row) (length (Account.var_names a)));
    [reflexivity | lia].
Qed.

(** A row with too few cells leaves [None] in the list. *)
Lemma process_rows_skipped `{Runtime} (fs : filesystem) (rows : list RawRow) :
  forall a trs a' row,
    Account.process_rows fs a rows = Ok (trs, a') ->
    row ∈ rows -> (cells row < length (Account.var_names a))%nat ->
    None ∈ trs.
Proof.
  induction rows as [|r rest IH]; intros a trs a' row Hp Hin Hshort.
  - inversion Hin.
  - cbn [Account.process_rows] in Hp.
    bind_as Hp ta Hrow. destruct ta as [tr a1].
    bind_as Hp tsa Hrest. destruct tsa as [trs1 a2]. injection Hp as <- <-.
    apply elem_of_cons in Hin as [-> | Hin].
    + rewrite process_row_short in Hrow by assumption. injection Hrow as <- <-.
      left.
    + right. apply process_row_rules_only in Hrow as [c ->].
      eapply IH; eauto.
Qed.

(** *** Export *)

Lemma qif_loop_none (trs : list (option Transaction.t)) (acc : str)
    (cb : Account.balance) (cbd : datetime.date) :
  None ∈ trs -> Account.qif_loop trs acc cb cbd = Raise AttributeError.
Proof.
  revert acc cb cbd. induction trs as [|[tr|] rest IH]; intros acc cb cbd Hin.
  - inversion Hin.
  - cbn. apply IH. apply elem_of_cons in Hin as [Heq | Hin];
      [discriminate | assumption].
  - reflexivity.
Qed.

(** An element [None] in the sequence makes the export raise. *)
Lemma qif_none (a : Account.t) :
  None ∈ Account.transactions a -> Account.qif a = Raise AttributeError.
Proof. intros Hin. unfold Account.qif. now rewrite qif_loop_none. Qed.

Lemma qif_loop_ok (trs : list (option Transaction.t)) (acc : str)
    (cb : Account.balance) (cbd : datetime.date) out cb' cbd' :
  Account.qif_loop trs acc cb cbd = Ok (out, cb', cbd') ->
  (None ∉ trs) /\ (cb', cbd') = closing_of (last trs) (cb, cbd).
Proof.
  revert acc cb cbd. induction trs as [|[tr|] rest IH]; intros acc cb cbd Hq.
  - cbn in Hq. injection Hq as <- <- <-.
    split; [apply not_elem_of_nil | reflexivity].
  - cbn [Account.qif_loop] in Hq. apply IH in Hq as [Hn Hl]. split.
    + intros Hin. apply elem_of_cons in Hin as [Heq | Hin];
        [discriminate | contradiction].
    + rewrite Hl. destruct rest as [|x rest']; [reflexivity|].
      rewrite last_cons_cons. unfold closing_of.
      destruct (last (x :: rest')) as [[t'|]|] eqn:E; try reflexivity.
      * exfalso. apply Hn. apply last_Some in E as [l' ->].
        apply elem_of_app. right. left.
      * exfalso. now apply last_None in E.
  - discriminate.
Qed.

Lemma qif_loop_total (trs : list (option Transaction.t)) (acc : str)
    (cb : Account.balance) (cbd : datetime.date) :
  None ∉ trs ->
  exists out cb' cbd', Account.qif_loop trs acc cb cbd = Ok (out, cb', cbd').
Proof.
  revert acc cb cbd. induction trs as [|[tr|] rest IH]; intros acc cb cbd Hn.
  - cbn. eauto.
  - cbn. apply IH. intros Hin. apply Hn. now right.
  - exfalso. apply Hn. left.
Qed.

(** The export returns when every element is a transaction and the closing
    balance can be tested for NaN. *)
Lemma qif_returns (a : Account.t) :
  None ∉ Account.transactions a ->
  is_ok (Account.balance_isnan
           (fst (closing_of (last (Account.transactions a))
                   (Account.current_balance a, Account.at_date a)))) = true ->
  exists out a2, Account.qif a = Ok (out, a2).
Proof.
  intros Hn Hnan. unfold Account.qif.
  destruct (qif_loop_total (Account.transactions a) []
              (Account.current_balance a) (Account.at_date a) Hn)
    as (txt & cb & cbd & Hl).
  rewrite Hl. cbn [mbind res_bind].
  apply qif_loop_ok in Hl as [_ Hc]. rewrite <- Hc in Hnan.
  cbn [fst] in Hnan. destruct (Account.balance_isnan cb); [|discriminate].
  cbn [mbind res_bind]. eauto.
Qed.

(** What [qif] leaves in the account, and that a second export repeats the
    first. *)
Lemma qif_closing (a : Account.t) out a2 :
  Account.qif a = Ok (out, a2) ->
  (None ∉ Account.transactions a) /\
  Account.transactions a2 = Account.transactions a /\
  closing a2 = closing_of (last (Account.transactions a))
                 (Account.current_balance a, Account.at_date a) /\
  Account.qif a2 = Ok (out, a2).
Proof.
  unfold Account.qif. intros Hq.
  destruct (Account.qif_loop _ _ _ _) as [[[txt cb] cbd]|e] eqn:Hl;
    [|discriminate].
  cbn [mbind res_bind] in Hq.
  pose proof (qif_loop_ok _ _ _ _ _ _ _ Hl) as [Hn Hc].
  destruct (Account.balance_isnan cb) as [nan|e] eqn:Hnan; [|discriminate].
  cbn [mbind res_bind] in Hq. injection Hq as <- <-.
  cbn [Account.transactions Account.set_closing closing Account.closing_balance
       Account.closing_balance_date Account.current_balance Account.at_date
       Account.bsb Account.number Account.type].
  split; [exact Hn|]. split; [reflexivity|]. split; [exact Hc|].
  rewrite Hl. cbn [mbind res_bind]. rewrite Hnan. reflexivity.
Qed.

(** *** Extraction *)

Lemma download_some `{Runtime} (fs : filesystem) (a : Account.t) (alert : bool)
    (rows : list RawRow) (end_date : datetime.date) cb a1 :
  rows <> [] ->
  Account.download_transactions fs a alert rows end_date = Ok (cb, a1) ->
  length (Account.transactions a1) = length rows /\
  closing a1 = closing_of (last (Account.transactions a1))
                 (Account.Amount zero, end_date) /\
  Account.closing_balance a1 = Account.Amount cb /\
  Account.current_balance a1 = Account.current_balance a /\
  Account.at_date a1 = Account.at_date a.
Proof.
  intros Hne Hd. unfold Account.download_transactions in Hd.
  rewrite of_text_zero in Hd. cbn [mbind res_bind] in Hd.
  destruct rows as [|row rest]; [congruence|].
  bind_as Hd ta Hrows. destruct ta as [trs a'].
  apply process_rows_spec in Hrows as [Hlen [c ->]].
  cbn [Account.transactions Account.set_transactions] in Hd.
  destruct (last (rev trs)) as [[tr|]|] eqn:El; injection Hd as <- <-;
    cbn [Account.transactions Account.set_closing Account.set_transactions closing
         Account.closing_balance Account.closing_balance_date with_rules
         Account.current_balance Account.at_date];
    rewrite ?length_rev, ?El; cbn [closing_of];
    (split; [exact Hlen|]); (split; [reflexivity|]); (split; [reflexivity|]);
    destruct alert; split; reflexivity.
Qed.

Lemma download_none `{Runtime} (fs : filesystem) (a : Account.t) (alert : bool)
    (end_date : datetime.date) :
  exists a1,
    Account.download_transactions fs a alert [] end_date = Ok (zero, a1) /\
    Account.transactions a1 = Account.transactions a /\
    Account.closing_balance a1 = Account.closing_balance a /\
    Account.current_balance a1 = Account.current_balance a /\
    Account.at_date a1 = Account.at_date a.
Proof.
  unfold Account.download_transactions. rewrite of_text_zero.
  cbn [mbind res_bind].
  eexists. split; [reflexivity|]. destruct alert; repeat split; reflexivity.
Qed.

(** A row with too few cells, in an extraction that returns, leaves [None]
    in the sequence of the account, and the export raises. *)
Lemma skipped_row_breaks_export `{Runtime} (fs : filesystem) (a : Account.t)
    (rows : list RawRow) (end_date : datetime.date) cb a1 row :
  Account.download_transactions fs a false rows end_date = Ok (cb, a1) ->
  row ∈ rows -> (cells row < length (Account.var_names a))%nat ->
  (None ∈ Account.transactions a1) /\ Account.qif a1 = Raise AttributeError.
Proof.
  intros Hd Hin Hshort.
  assert (Hnone : None ∈ Account.transactions a1).
  { unfold Account.download_transactions in Hd.
    rewrite of_text_zero in Hd. cbn [mbind res_bind] in Hd.
    destruct rows as [|r rest]; [inversion Hin|].
    bind_as Hd ta Hrows. destruct ta as [trs a'].
    pose proof (process_rows_skipped fs _ _ _ _ row Hrows Hin Hshort) as Hn.
    destruct (last _) as [[tr|]|]; injection Hd as <- <-;
      cbn [Account.transactions Account.set_closing Account.set_transactions];
      apply list_elem_of_In, in_rev; rewrite rev_involutive;
      now apply list_elem_of_In. }
  split; [exact Hnone | now apply qif_none].
Qed.

(** C7 at the failing input. Of three rows the second has three cells for
    five columns. Extraction returns, but the skipped row is in the sequence
    of the account as [None], between the two transactions; the export of
    the account then raises AttributeError. *)
Theorem C7_skipped_row_stays_in_sequence :
  Account.process_row no_files (main_account Account.Float0) row_short
    = Ok (None, main_account Account.Float0) /\
  ('(cb, a1) ← Account.download_transactions no_files
                 (main_account Account.Float0) false
                 [row_coffee; row_short; row_salary] (ymd 2024 1 31);
   Ok (map (option_map Transaction.memo) (Account.transactions a1)))
  = Ok [Some (py "SALARY ACME"); None; Some (py "COFFEE SHOP")] /\
  Account.generate_qif no_files (main_account Account.Float0) false
    [row_coffee; row_short; row_salary] (ymd 2024 1 31)
  = Raise AttributeError.
Proof. repeat split; vm_compute; reflexivity. Qed.

(** ** Category rules *)

Lemma read_rules_parse (lines : list str) :
  forall m, Account.read_rules lines m =
            (rs ← parse_rules lines; Ok (foldl add_rule m rs)).
Proof.
  induction lines as [|line rest IH]; intros m; [reflexivity|].
  cbn [Account.read_rules parse_rules]. destruct line as [|c l]; [apply IH|].
  destruct (pystr.split "|" (c :: l)) as [|p [|cat [|x r]]]; try reflexivity.
  rewrite IH. destruct (parse_rules rest); reflexivity.
Qed.

(** The mapping is made from the rules of both files, those of the account
    first; a later rule replaces an earlier one of the same pattern. *)
Lemma load_rules_both (fs : filesystem) (nick : str) :
  Account.load_rules fs (Account.rule_files nick) ∅ =
    (rs1 ← rules_in fs (py "PayeeCategories-" ++ nick ++ py ".txt");
     rs2 ← rules_in fs (py "PayeeCategories.txt");
     Ok (foldl add_rule ∅ (rs1 ++ rs2))).
Proof.
  unfold Account.rule_files, rules_in. cbn [Account.load_rules].
  destruct (fs (py "PayeeCategories-" ++ nick ++ py ".txt")) as [c1|];
    destruct (fs (py "PayeeCategories.txt")) as [c2|];
    rewrite ?read_rules_parse; cbn [mbind res_bind].
  - destruct (parse_rules (Account.stripped_lines c1)) as [rs1|]; [|reflexivity].
    cbn [mbind res_bind]. rewrite read_rules_parse.
    destruct (parse_rules (Account.stripped_lines c2)) as [rs2|]; [|reflexivity].
    cbn [mbind res_bind]. now rewrite foldl_app.
  - destruct (parse_rules (Account.stripped_lines c1)) as [rs1|]; [|reflexivity].
    cbn [mbind res_bind]. now rewrite app_nil_r.
  - destruct (parse_rules (Account.stripped_lines c2)) as [rs2|]; reflexivity.
  - reflexivity.
Qed.

Lemma first_match_some `{Runtime} (rules : list (str * str)) (field v : str) :
  Account.first_match rules field = Ok (Some v) ->
  exists k, first_hit field rules k v.
Proof.
  induction rules as [|[k0 v0] rest IH]; [discriminate|].
  cbn [Account.first_match]. intros Hm. bind_as Hm found Hf.
  destruct found.
  - injection Hm as <-. exists k0, [], rest. repeat split; [exact Hf | constructor].
  - destruct (IH Hm) as (k & pre & post & -> & Hk & Hpre).
    exists k, ((k0, v0) :: pre), post. repeat split; [exact Hk|].
    constructor; assumption.
Qed.

Lemma first_match_none `{Runtime} (rules : list (str * str)) (field : str) :
  Account.first_match rules field = Ok None -> no_hit field rules.
Proof.
  induction rules as [|[k0 v0] rest IH]; [constructor|].
  cbn [Account.first_match]. intros Hm. bind_as Hm found Hf.
  destruct found; [discriminate|]. constructor; [exact Hf | exact (IH Hm)].
Qed.

(** A rule met while iterating the mapping is a binding of the mapping. *)
Lemma first_hit_bound `{Runtime} (m : gmap str str) (field k v : str) :
  first_hit field (dict_items m) k v -> m !! k = Some v.
Proof.
  intros (pre & post & Hr & _). apply elem_of_map_to_list.
  rewrite <- (dict_items_perm m), Hr. apply elem_of_app. right. left.
Qed.

Lemma payee_category_map_rules_of (fs : filesystem) (a : Account.t) m a' :
  Account.payee_category_map fs a = Ok (m, a') ->
  rules_of fs a = Ok m /\ Account._payee_category_map a' = Some m.
Proof.
  unfold Account.payee_category_map, rules_of.
  destruct (Account._payee_category_map a) as [m0|] eqn:E.
  - intros [= <- <-]. auto.
  - intros Hb. bind_as Hb m1 Hl. injection Hb as <- <-. auto.
Qed.

Lemma categorise_spec `{Runtime} (fs : filesystem) (a : Account.t)
    (payee : option str) (memo : str) c a' :
  Account.categorise fs a payee memo = Ok (c, a') ->
  exists m, rules_of fs a = Ok m /\ category_found m payee memo c.
Proof.
  unfold Account.categorise. intros Hc.
  bind_as Hc ma Hmap. destruct ma as [m a1].
  apply payee_category_map_rules_of in Hmap as [Hm Hkept].
  exists m. split; [exact Hm|].
  bind_as Hc c1 Hp. destruct c1 as [v|].
  - injection Hc as <- <-. left.
    destruct (first_match_some _ _ _ Hp) as [k Hk].
    exists k. split; [eapply first_hit_bound; eassumption | exact Hk].
  - apply first_match_none in Hp.
    bind_as Hc ma2 Hmap2. destruct ma2 as [m2 a2].
    unfold Account.payee_category_map in Hmap2. rewrite Hkept in Hmap2.
    injection Hmap2 as <- <-.
    bind_as Hc c2 Hmm. injection Hc as <- <-.
    destruct c2 as [v|].
    + right. split; [exact Hp|].
      destruct (first_match_some _ _ _ Hmm) as [k Hk].
      exists k. split; [eapply first_hit_bound; eassumption | exact Hk].
    + split; [exact Hp | exact (first_match_none _ _ Hmm)].
Qed.

Lemma process_row_category `{Runtime} (fs : filesystem) (a : Account.t)
    (row : RawRow) tr a' :
  Account.process_row fs a row = Ok (Some tr, a') ->
  Transaction.payee tr = Account.payee_of (Transaction.memo tr) /\
  exists c, Account.categorise fs a (Transaction.payee tr) (Transaction.memo tr)
              = Ok (c, a') /\
            Transaction.category tr = default (py "Unspecified") c.
Proof.
  unfold Account.process_row. destruct (_ <? _)%nat; [discriminate|].
  intros Hp. bind_as Hp lm Hlm. destruct lm as [location memo].
  bind_ok Hp. bind_ok Hp. destruct (negb _); [discriminate|].
  bind_ok Hp. bind_ok Hp. bind_ok Hp. bind_ok Hp. bind_ok Hp.
  bind_as Hp ca Hcat. destruct ca as [c a1]. bind_ok Hp. injection Hp as <- <-.
  cbn [Transaction.payee Transaction.memo Transaction.category].
  split; [reflexivity|]. exists c. split; [exact Hcat | reflexivity].
Qed.

(** * More of the program *)

(** ** Decimal digits *)

Ltac eval_digit :=
  match goal with
  | |- context [decimal.digit_val ?c] =>
      let v := eval vm_compute in (decimal.digit_val c) in
      change (decimal.digit_val c) with v
  end.

Section Digits.
Import decimal.

Lemma string_of_uint_digits (d : Decimal.uint) :
  forallb is_digit (list_ascii_of_string (NilEmpty.string_of_uint d)) = true.
Proof. induction d; cbn; auto. Qed.

Lemma str_of_N_digits (n : N) : forallb is_digit (str_of_N n) = true.
Proof. apply string_of_uint_digits. Qed.

Lemma str_of_N_nonempty (n : N) : str_of_N n <> [].
Proof.
  unfold str_of_N. destruct n as [|p]; [discriminate|]. cbn [N.to_uint].
  pose proof (DecimalPos.Unsigned.to_uint_nonnil p) as Hn.
  destruct (Pos.to_uint p); [congruence | discriminate ..].
Qed.

(** The value of the digits of [d] after the digits read so far. *)
Lemma of_uint_acc_fold (d : Decimal.uint) (acc : positive) :
  N.pos (Pos.of_uint_acc d acc) =
    fold_left (fun a c => (10 * a + digit_val c)%N)
      (list_ascii_of_string (NilEmpty.string_of_uint d)) (N.pos acc).
Proof.
  revert acc. induction d; intros acc; cbn [Pos.of_uint_acc NilEmpty.string_of_uint
    list_ascii_of_string fold_left]; [reflexivity | rewrite IHd; f_equal; eval_digit; lia ..].
Qed.

Lemma of_uint_fold (d : Decimal.uint) :
  Pos.of_uint d = int_of_digits (list_ascii_of_string (NilEmpty.string_of_uint d)).
Proof.
  unfold int_of_digits.
  induction d; cbn [Pos.of_uint NilEmpty.string_of_uint list_ascii_of_string fold_left];
    [reflexivity | exact IHd | rewrite of_uint_acc_fold; f_equal ..].
Qed.

(** Reading the digits of a number gives the number back. *)
Lemma int_of_digits_str_of_N (n : N) : int_of_digits (str_of_N n) = n.
Proof.
  unfold str_of_N. rewrite <- of_uint_fold. apply DecimalN.Unsigned.of_to.
Qed.

Lemma fold_digits_bound (s : str) (acc : N) :
  forallb is_digit s = true ->
  (acc * 10 ^ N.of_nat (length s) <=
     fold_left (fun a c => (10 * a + digit_val c)%N) s acc
   < (acc + 1) * 10 ^ N.of_nat (length s))%N.
Proof.
  revert acc. induction s as [|c t IH]; intros acc Hd.
  - cbn. lia.
  - cbn [forallb] in Hd. apply andb_true_iff in Hd as [Hc Ht].
    cbn [fold_left length]. specialize (IH (10 * acc + digit_val c)%N Ht).
    assert (Hv : (digit_val c <= 9)%N).
    { unfold is_digit in Hc. apply andb_true_iff in Hc as [H1 H2].
      apply N.leb_le in H1, H2. unfold digit_val. lia. }
    rewrite Nat2N.inj_succ, N.pow_succ_r'. nia.
Qed.

(** The number of digits of a number between 1000 and 9999, and below 10. *)
Lemma nzhead_head (d d' : Decimal.uint) : Decimal.nzhead d <> Decimal.D0 d'.
Proof. induction d; cbn; try discriminate. exact IHd. Qed.

Lemma to_uint_no_leading_zero (n : N) (d : Decimal.uint) :
  N.to_uint n = Decimal.D0 d -> d = Decimal.Nil.
Proof.
  intros H. pose proof (DecimalN.Unsigned.to_of (N.to_uint n)) as Hu.
  rewrite DecimalN.Unsigned.of_to, H in Hu. unfold Decimal.unorm in Hu.
  cbn [Decimal.nzhead] in Hu.
  destruct (Decimal.nzhead d) eqn:E;
    [now injection Hu as <- | now apply nzhead_head in E | discriminate Hu ..].
Qed.

Lemma str_of_N_head (n : N) (t : str) :
  str_of_N n = "0"%char :: t -> t = [].
Proof.
  unfold str_of_N. destruct (N.to_uint n) eqn:E; cbn; try discriminate.
  intros [= <-]. apply to_uint_no_leading_zero in E as ->. reflexivity.
Qed.

Lemma str_of_N_length (n : N) (k : nat) :
  (10 ^ N.of_nat k <= n < 10 ^ N.of_nat (S k))%N -> length (str_of_N n) = S k.
Proof.
  intros Hn. pose proof (int_of_digits_str_of_N n) as Hv.
  pose proof (str_of_N_digits n) as Hd. pose proof (str_of_N_nonempty n) as Hne.
  pose proof (str_of_N_head n) as Hh.
  destruct (str_of_N n) as [|c t]; [congruence|].
  unfold int_of_digits in Hv. cbn [fold_left forallb] in Hv, Hd.
  apply andb_true_iff in Hd as [Hc Ht].
  pose proof (fold_digits_bound t (10 * 0 + digit_val c)%N Ht) as Hb.
  rewrite Hv in Hb. cbn [length]. f_equal.
  assert (Hv9 : (digit_val c <= 9)%N).
  { unfold is_digit in Hc. apply andb_true_iff in Hc as [H1 H2].
    apply N.leb_le in H1, H2. unfold digit_val. lia. }
  destruct (N.eq_dec (digit_val c) 0%N) as [Hz|Hnz].
  - assert (c = "0"%char) as ->.
    { unfold is_digit in Hc. apply andb_true_iff in Hc as [H1 H2].
      apply N.leb_le in H1, H2. unfold digit_val in Hz.
      assert (N_of_ascii c = 48%N) as E by lia.
      rewrite <- (ascii_N_embedding c), E. reflexivity. }
    rewrite (Hh t eq_refl) in *. cbn in Hv. subst n.
    destruct Hn as [Hn _]. pose proof (N.pow_nonzero 10 (N.of_nat k)). lia.
  - set (L := length t) in *.
    destruct (Nat.lt_trichotomy L k) as [Hlt | [Heq | Hgt]]; [|exact Heq|].
    + exfalso. assert (10 ^ N.of_nat (S L) <= 10 ^ N.of_nat k)%N
        by (apply N.pow_le_mono_r; lia).
      rewrite Nat2N.inj_succ, N.pow_succ_r' in H. nia.
    + exfalso. assert (10 ^ N.of_nat (S k) <= 10 ^ N.of_nat L)%N
        by (apply N.pow_le_mono_r; lia).
      nia.
Qed.

End Digits.

Section MonthRoundTrips.
Import datetime MonthDate.
Local Open Scope Z_scope.

Lemma next_prev_ym (y m : Z) :
  1 <= m <= 12 -> next_ym (fst (prev_ym y m)) (snd (prev_ym y m)) = (y, m).
Proof.
  intros Hm. unfold next_ym, prev_ym.
  destruct (Z.eqb_spec m 1) as [-> | H1]; cbn [fst snd].
  - change (12 =? 12) with true. cbv iota. f_equal; lia.
  - destruct (Z.eqb_spec (m - 1) 12); [lia|]. f_equal; lia.
Qed.

Lemma month_prev_spec (d : date) :
  valid d = true -> ~ (year d = 1 /\ month d = 1) ->
  month_prev d =
    Ok (mkdate (fst (prev_ym (year d) (month d)))
               (snd (prev_ym (year d) (month d))) 1).
Proof.
  intros Hv Hne.
  assert (Heq : month_prev d = (q ← month_end_prev d; month_start q)).
  { unfold month_prev, month_end_prev. destruct (month_start d) as [s|]; [|reflexivity].
    cbn [mbind res_bind]. destruct (add_days s (-1)); reflexivity. }
  rewrite Heq, (month_end_prev_spec d Hv Hne). cbn [mbind res_bind].
  apply valid_ymd_spec in Hv as (Hy & Hm & Hd). unfold MINYEAR, MAXYEAR in Hy.
  rewrite month_start_ok; [reflexivity|].
  apply last_of_month_valid; unfold prev_ym, MINYEAR, MAXYEAR;
    destruct (Z.eqb_spec (month d) 1); cbn [fst snd]; lia.
Qed.

Lemma first_valid (y m : Z) :
  MINYEAR <= y <= MAXYEAR -> 1 <= m <= 12 -> valid (mkdate y m 1) = true.
Proof.
  intros Hy Hm. apply valid_ymd_spec. cbn [year month day].
  pose proof (days_in_month_range y _ Hm). lia.
Qed.

(** X1. [month_prev] and [month_next] undo each other. For every date
    outside January of year 1, [month_prev] is the first day of a month and
    [month_next] of it is the start of the month of the date; for every date
    outside December of year 9999, [month_next] is the first day of a month
    and [month_prev] of it is the start of the month of the date. *)
Theorem month_prev_next_round_trip (d : date) :
  valid d = true ->
  (~ (year d = 1 /\ month d = 1) ->
   exists p, month_prev d = Ok p /\ day p = 1 /\ month_next p = month_start d) /\
  (~ (year d = 9999 /\ month d = 12) ->
   exists n, month_next d = Ok n /\ day n = 1 /\ month_prev n = month_start d).
Proof.
  intros Hv. pose proof Hv as Hv0.
  apply valid_ymd_spec in Hv0 as (Hy & Hm & Hd). unfold MINYEAR, MAXYEAR in Hy.
  rewrite (month_start_ok d Hv).
  split; intros Hne.
  - eexists. split; [apply (month_prev_spec d Hv Hne)|]. split; [reflexivity|].
    set (p := mkdate _ _ 1).
    assert (Hp : MINYEAR <= year p <= MAXYEAR /\ 1 <= month p <= 12 /\
                 ~ (year p = 9999 /\ month p = 12)).
    { subst p. cbn [year month]. unfold prev_ym, MINYEAR, MAXYEAR.
      destruct (Z.eqb_spec (month d) 1); cbn [fst snd]; lia. }
    destruct Hp as (Hy' & Hm' & Hne').
    rewrite (month_next_spec p (first_valid _ _ Hy' Hm') Hne').
    subst p. cbn [year month]. now rewrite next_prev_ym.
  - eexists. split; [apply (month_next_spec d Hv Hne)|]. split; [reflexivity|].
    set (n := mkdate _ _ 1).
    assert (Hn : MINYEAR <= year n <= MAXYEAR /\ 1 <= month n <= 12 /\
                 ~ (year n = 1 /\ month n = 1)).
    { subst n. cbn [year month]. unfold next_ym, MINYEAR, MAXYEAR.
      destruct (Z.eqb_spec (month d) 12); cbn [fst snd]; lia. }
    destruct Hn as (Hy' & Hm' & Hne').
    rewrite (month_prev_spec n (first_valid _ _ Hy' Hm') Hne').
    subst n. cbn [year month]. now rewrite prev_next_ym.
Qed.

Lemma month_prev_next_round_trip_witness :
  valid (mkdate 2024 3 15) = true /\
  (exists p, month_prev (mkdate 2024 3 15) = Ok p /\ day p = 1 /\
             month_next p = month_start (mkdate 2024 3 15)) /\
  (exists n, month_next (mkdate 2024 3 15) = Ok n /\ day n = 1 /\
             month_prev n = month_start (mkdate 2024 3 15)).
Proof.
  split; [reflexivity|].
  destruct (month_prev_next_round_trip (mkdate 2024 3 15) eq_refl) as [Hp Hn].
  split; [apply Hp | apply Hn]; cbn [year month]; lia.
Defined.

(** X2. Every date outside December of year 9999 lies between the
    [month_start] and the [month_end] of its month, and these two dates have
    the same [month_start] and [month_end] as the date itself. *)
Theorem date_within_its_month (d : date) :
  valid d = true -> ~ (year d = 9999 /\ month d = 12) ->
  exists s e,
    month_start d = Ok s /\ month_end d = Ok e /\
    lt d s = false /\ lt e d = false /\
    month_start s = Ok s /\ month_end s = Ok e /\
    month_start e = Ok s /\ month_end e = Ok e.
Proof.
  intros Hv Hne. pose proof Hv as Hv0.
  apply valid_ymd_spec in Hv0 as (Hy & Hm & Hd). unfold MINYEAR, MAXYEAR in Hy.
  pose proof (first_valid (year d) (month d) Hy Hm) as Hvs.
  pose proof (last_of_month_valid (year d) (month d) Hy Hm) as Hve.
  exists (mkdate (year d) (month d) 1), (last_of_month (year d) (month d)).
  split; [apply (month_start_ok d Hv)|].
  split; [apply (month_end_spec d Hv Hne)|].
  split; [|split].
  - unfold lt. cbn [year month day]. rewrite !Z.ltb_irrefl, !Z.eqb_refl.
    cbn [orb andb]. apply Z.ltb_ge. lia.
  - unfold lt, last_of_month. cbn [year month day]. rewrite !Z.ltb_irrefl, !Z.eqb_refl.
    cbn [orb andb]. apply Z.ltb_ge. lia.
  - split; [apply (month_start_ok _ Hvs)|].
    split; [apply (month_end_spec _ Hvs Hne)|].
    split; [apply (month_start_ok _ Hve)|].
    apply (month_end_spec _ Hve Hne).
Qed.

Lemma date_within_its_month_witness :
  exists s e,
    month_start (mkdate 2024 2 10) = Ok s /\ month_end (mkdate 2024 2 10) = Ok e /\
    lt (mkdate 2024 2 10) s = false /\ lt e (mkdate 2024 2 10) = false /\
    month_start s = Ok s /\ month_end s = Ok e /\
    month_start e = Ok s /\ month_end e = Ok e.
Proof.
  apply (date_within_its_month (mkdate 2024 2 10) eq_refl).
  cbn [year month]. lia.
Defined.

End MonthRoundTrips.

Ltac enum_nat n tac :=
  first [ exfalso; lia
        | destruct n as [|n]; [ first [exfalso; lia | tac] | enum_nat n tac ] ].

Section YmdRoundTrip.
Import datetime.
Local Open Scope Z_scope.

(** The two digits of the month and the two digits of the day are read as
    they were written, before any other reading. *)
Lemma readings_two_digits (m dd : nat) :
  (1 <= m <= 12)%nat -> (1 <= dd <= 31)%nat ->
  exists others,
    concat (map (fun mr : Z * str =>
                   map (fun dr : Z * str => (mr.1, dr.1, dr.2))
                       (Ymd.day_readings mr.2))
                (Ymd.month_readings
                   (MonthDate.zfill 2 (decimal.str_of_N (Z.to_N (Z.of_nat m))) ++
                    MonthDate.zfill 2 (decimal.str_of_N (Z.to_N (Z.of_nat dd))))))
    = (Z.of_nat m, Z.of_nat dd, []) :: others.
Proof.
  intros Hm Hd.
  enum_nat m ltac:(enum_nat dd ltac:(eexists; vm_compute; reflexivity)).
Qed.

Lemma four_digits (y : Z) :
  1000 <= y <= 9999 ->
  exists a b c e,
    decimal.str_of_N (Z.to_N y) = [a; b; c; e] /\
    forallb decimal.is_digit [a; b; c; e] = true /\
    1000 * MonthDate.dval a + 100 * MonthDate.dval b +
      10 * MonthDate.dval c + MonthDate.dval e = y.
Proof.
  intros Hy.
  pose proof (str_of_N_length (Z.to_N y) 3) as Hl.
  pose proof (str_of_N_digits (Z.to_N y)) as Hd.
  pose proof (int_of_digits_str_of_N (Z.to_N y)) as Hv.
  change (10 ^ N.of_nat 3)%N with 1000%N in Hl.
  change (10 ^ N.of_nat 4)%N with 10000%N in Hl.
  specialize (Hl ltac:(lia)).
  destruct (decimal.str_of_N (Z.to_N y)) as [|a [|b [|c [|e [|]]]]]; try discriminate.
  exists a, b, c, e. split; [reflexivity|]. split; [exact Hd|].
  unfold decimal.int_of_digits in Hv. cbn [fold_left] in Hv.
  unfold MonthDate.dval. lia.
Qed.

(** X3. For a date of the calendar from year 1900 on, [strftime('%Y%m%d')]
    returns a text of eight characters, and [MonthDate.strptime] with the
    same format reads this text back as the date it came from. *)
Theorem strptime_strftime_Ymd (d : date) :
  valid d = true -> 1900 <= year d ->
  exists s, Ymd.strftime d = Ok s /\ length s = 8%nat /\ Ymd.strptime s = Ok d.
Proof.
  intros Hv Hy. pose proof Hv as Hv0.
  apply valid_ymd_spec in Hv0 as (Hyr & Hm & Hd). unfold MINYEAR, MAXYEAR in Hyr.
  pose proof (days_in_month_range (year d) _ Hm) as Hdim.
  unfold Ymd.strftime.
  replace (year d <? 1900) with false by (symmetry; apply Z.ltb_ge; lia).
  eexists. split; [reflexivity|].
  destruct (four_digits (year d) ltac:(lia)) as (a & b & c & e & Hs & Hdig & Hval).
  rewrite Hs. change (MonthDate.zfill 4 [a; b; c; e]) with [a; b; c; e].
  destruct (readings_two_digits (Z.to_nat (month d)) (Z.to_nat (day d))
              ltac:(lia) ltac:(lia)) as [others Hr].
  rewrite !Z2Nat.id in Hr by lia.
  split.
  - rewrite !length_app. cbn [length].
    assert (Hlen : forall k : nat, (1 <= k <= 31)%nat ->
              length (MonthDate.zfill 2 (decimal.str_of_N (Z.to_N (Z.of_nat k)))) = 2%nat).
    { intros k Hk. enum_nat k ltac:(reflexivity). }
    pose proof (Hlen (Z.to_nat (month d)) ltac:(lia)) as H1.
    pose proof (Hlen (Z.to_nat (day d)) ltac:(lia)) as H2.
    rewrite !Z2Nat.id in H1, H2 by lia. rewrite H1, H2. reflexivity.
  - unfold Ymd.strptime, Ymd.read_year. cbn [app]. rewrite Hdig, Hval, Hr.
    unfold new. destruct d as [y m dd]. unfold valid in Hv. cbn [year month day] in *.
    rewrite Hv. cbn [mbind res_bind]. now apply (fromordinal_toordinal (mkdate y m dd)).
Qed.

Lemma strptime_strftime_Ymd_witness :
  exists s, Ymd.strftime (mkdate 2024 2 29) = Ok s /\ length s = 8%nat /\
            Ymd.strptime s = Ok (mkdate 2024 2 29).
Proof. apply strptime_strftime_Ymd; [reflexivity | cbn [year]; lia]. Defined.

End YmdRoundTrip.

Section DatesOfRows.
Import datetime MonthDate.
Local Open Scope Z_scope.

Lemma dval_digit (c : ascii) : decimal.is_digit c = true -> 0 <= dval c <= 9.
Proof.
  unfold decimal.is_digit, dval, decimal.digit_val. intros H.
  apply andb_true_iff in H as [H1 H2]. apply N.leb_le in H1, H2. lia.
Qed.

Lemma strptime_valid_window (value : str) :
  match strptime value with
  | Ok d => valid d = true /\ 1969 <= year d <= 2068
  | Raise e => e = ValueError
  end.
Proof.
  unfold strptime.
  destruct (parse_day value) as [[d r]|]; cbn [mbind option_bind]; [|reflexivity].
  destruct (skip_spaces r) as [r1|]; cbn [mbind option_bind]; [|reflexivity].
  destruct (index_of _ _ _) as [m|]; cbn [mbind option_bind]; [|reflexivity].
  destruct (skip_spaces _) as [r2|]; cbn [mbind option_bind]; [|reflexivity].
  destruct r2 as [|a [|b [|]]]; try reflexivity.
  destruct (decimal.is_digit a) eqn:Ha; [|reflexivity].
  destruct (decimal.is_digit b) eqn:Hb; [|reflexivity].
  cbn [andb]. apply dval_digit in Ha, Hb.
  set (yy := 10 * dval a + dval b) in *.
  set (y := if yy <=? 68 then yy + 2000 else yy + 1900).
  assert (Hy : 1969 <= y <= 2068).
  { subst y. destruct (Z.leb_spec yy 68); lia. }
  unfold new. destruct (valid_ymd y m d) eqn:Hv; [|reflexivity].
  cbn [mbind res_bind].
  rewrite (fromordinal_toordinal (mkdate y m d) Hv). split; [exact Hv | exact Hy].
Qed.

(** X4. [MonthDate.strptime(value, '%d %b %y')] raises nothing but
    ValueError, and a date it returns is a date of the calendar with a year
    between 1969 and 2068. *)
Theorem strptime_window (value : str) :
  match strptime value with
  | Ok d => valid d = true /\ 1969 <= year d <= 2068
  | Raise e => e = ValueError
  end.
Proof. apply strptime_valid_window. Qed.

End DatesOfRows.

Section Period.
Import datetime MonthDate.
Local Open Scope Z_scope.

(** X5. When no end date is given, the period of the command line is one
    calendar month up to its last day: it starts on the first day of the
    month before the current one with [--last-month], and by default (then
    counted from the day the parser is built), on the first day of the
    current month with [--this-month], and on the date of [--start-date];
    it ends on the last day of the month in which it starts, never before
    its start. *)
Theorem default_period_is_a_whole_month (built today : date) (p : period) :
  valid built = true -> valid today = true ->
  1 < year built < 9999 -> 1 < year today < 9999 ->
  match p with StartDate d => valid d = true /\ year d < 9999 | _ => True end ->
  exists s e,
    get_command_line_options built today p None = Ok (s, e) /\
    s = match p with
        | NoPeriod => mkdate (fst (prev_ym (year built) (month built)))
                             (snd (prev_ym (year built) (month built))) 1
        | LastMonth => mkdate (fst (prev_ym (year today) (month today)))
                              (snd (prev_ym (year today) (month today))) 1
        | ThisMonth => mkdate (year today) (month today) 1
        | StartDate d => d
        end /\
    e = last_of_month (year s) (month s) /\
    lt e s = false.
Proof.
  intros Hvb Hvt Hyb Hyt Hp.
  pose proof Hvb as Hb0. pose proof Hvt as Ht0.
  apply valid_ymd_spec in Hb0 as (_ & Hmb & _).
  apply valid_ymd_spec in Ht0 as (_ & Hmt & _).
  unfold get_command_line_options.
  rewrite (month_prev_spec built Hvb) by lia. cbn [mbind res_bind].
  set (s := match p with
            | NoPeriod => mkdate (fst (prev_ym (year built) (month built)))
                                 (snd (prev_ym (year built) (month built))) 1
            | LastMonth => mkdate (fst (prev_ym (year today) (month today)))
                                  (snd (prev_ym (year today) (month today))) 1
            | ThisMonth => mkdate (year today) (month today) 1
            | StartDate d => d
            end).
  assert (Hs : match p with
               | ThisMonth => month_start today
               | LastMonth => month_prev today
               | _ => Ok match p with
                         | StartDate d => d
                         | _ => mkdate (fst (prev_ym (year built) (month built)))
                                       (snd (prev_ym (year built) (month built))) 1
                         end
               end = Ok s).
  { subst s. destruct p; [reflexivity | | | reflexivity].
    - apply month_prev_spec; [assumption | lia].
    - now apply month_start_ok. }
  rewrite Hs. cbn [mbind res_bind].
  assert (Hvs : valid s = true /\ year s < 9999).
  { subst s. destruct p as [| | |d]; [| | |exact Hp].
    - split; [|unfold prev_ym; destruct (month built =? 1); cbn [year fst]; lia].
      apply first_valid; unfold prev_ym, MINYEAR, MAXYEAR;
        apply valid_ymd_spec in Hvb as (Hy & _); unfold MINYEAR, MAXYEAR in Hy;
        destruct (Z.eqb_spec (month built) 1); cbn [fst snd]; lia.
    - split; [|unfold prev_ym; destruct (month today =? 1); cbn [year fst]; lia].
      apply first_valid; unfold prev_ym, MINYEAR, MAXYEAR;
        destruct (Z.eqb_spec (month today) 1); cbn [fst snd]; lia.
    - split; [|cbn [year]; lia].
      apply first_valid; unfold MINYEAR, MAXYEAR; lia. }
  destruct Hvs as [Hvs Hys].
  rewrite (month_end_spec s Hvs) by lia. cbn [mbind res_bind].
  exists s, (last_of_month (year s) (month s)).
  split; [reflexivity|]. split; [reflexivity|]. split; [reflexivity|].
  apply valid_ymd_spec in Hvs as (_ & Hms & Hds).
  unfold lt, last_of_month. cbn [year month day].
  rewrite !Z.ltb_irrefl, !Z.eqb_refl. cbn [orb andb]. apply Z.ltb_ge. lia.
Qed.

Lemma default_period_is_a_whole_month_witness :
  exists s e,
    get_command_line_options (mkdate 2024 3 15) (mkdate 2024 3 15) ThisMonth None
      = Ok (s, e) /\
    s = mkdate 2024 3 1 /\
    e = last_of_month (year s) (month s) /\
    lt e s = false.
Proof.
  apply (default_period_is_a_whole_month (mkdate 2024 3 15) (mkdate 2024 3 15)
           ThisMonth); [reflexivity | reflexivity | cbn [year]; lia ..| exact I].
Defined.

End Period.

Section MoreAmounts.
Import decimal.
Local Open Scope Z_scope.

Lemma lower_char_amount (c : ascii) :
  amount_char c = true -> pystr.lower_char c = c.
Proof. by_cases_on_ascii c. Qed.

Lemma lower_amount (t : str) : forallb amount_char t = true -> pystr.lower t = t.
Proof.
  induction t as [|c t IH]; [reflexivity|]. cbn [forallb pystr.lower map].
  intros H. apply andb_true_iff in H as [Hc Ht].
  rewrite (lower_char_amount c Hc). f_equal. now apply IH.
Qed.

(** Two signs before the digits are no number. *)
Lemma of_str_two_signs (t : str) :
  forallb amount_char t = true ->
  of_str (py "--" ++ t) = Raise InvalidOperation.
Proof.
  intros Ht. unfold of_str.
  assert (Hall : forallb amount_char (py "--" ++ t) = true)
    by (cbn [py list_ascii_of_string app forallb]; now rewrite Ht).
  rewrite (strip_none _ (amount_chars_no_space _ Hall)).
  cbn [py list_ascii_of_string app]. change (Ascii.eqb "-" "-") with true. cbv iota.
  unfold parse_number, span. cbn [pystr.take_while pystr.drop_while].
  change (is_digit "-") with false. cbv iota.
  change (Ascii.eqb "-" ".") with false. cbv iota.
  unfold parse_special.
  assert (Hl : pystr.lower ("-"%char :: t) = "-"%char :: t)
    by (apply lower_amount; cbn [forallb]; now rewrite Ht).
  rewrite Hl.
  replace (pystr.eqb ("-"%char :: t) (py "inf")) with false
    by (symmetry; apply bool_decide_eq_false; discriminate).
  replace (pystr.eqb ("-"%char :: t) (py "infinity")) with false
    by (symmetry; apply bool_decide_eq_false; discriminate).
  reflexivity.
Qed.

(** X6. An amount that already carries a minus sign cannot be a debit:
    with the marker [DR] after it, or given as the text of a debit cell,
    which puts a second minus sign before it, [NABNumber] raises
    InvalidOperation. *)
Theorem negative_debit_raises (i f : str) :
  two_decimals i f = true ->
  NABNumber.__new__ (NABNumber.VText (Some (amount_text true i f ++ py " DR")))
    = Raise InvalidOperation /\
  NABNumber.__new__
    (NABNumber.VText (Some (Account.debit_arg (Some (amount_text true i f)))))
    = Raise InvalidOperation.
Proof.
  intros H. pose proof (amount_text_chars true i f H) as Hc.
  pose proof (amount_text_nonempty true i f H) as Hne.
  split.
  - rewrite (new_plain_DR _ (amount_text true i f)); auto.
    + unfold amount_text at 1. rewrite app_assoc.
      change (py "-" ++ py "-") with (py "--").
      apply of_str_two_signs. apply two_decimals_inv in H as (Hi & _ & Hf & _).
      rewrite !forallb_app, (forallb_impl _ _ _ is_digit_amount_char Hi),
        (forallb_impl _ _ _ is_digit_amount_char Hf). reflexivity.
    + now apply amount_chars_no_space.
    + apply filter_none. revert Hc. apply forallb_impl. intros c Hcc.
      now rewrite amount_char_not_symbol.
  - change (Account.debit_arg (Some (amount_text true i f)))
      with (py "-" ++ amount_text true i f).
    assert (Hall : forallb amount_char (py "-" ++ amount_text true i f) = true)
      by (cbn [py list_ascii_of_string app forallb]; now rewrite Hc).
    rewrite (new_plain _ (py "-" ++ amount_text true i f)).
    + unfold amount_text. rewrite app_assoc.
      change (py "-" ++ py "-") with (py "--").
      apply of_str_two_signs. apply two_decimals_inv in H as (Hi & _ & Hf & _).
      rewrite !forallb_app, (forallb_impl _ _ _ is_digit_amount_char Hi),
        (forallb_impl _ _ _ is_digit_amount_char Hf). reflexivity.
    + now apply amount_chars_no_space.
    + apply filter_none. revert Hall. apply forallb_impl. intros c Hcc.
      now rewrite amount_char_not_symbol.
    + exact Hall.
    + discriminate.
Qed.

Lemma negative_debit_raises_witness :
  NABNumber.__new__ (NABNumber.VText (Some (py "-50.00 DR")))
    = Raise InvalidOperation /\
  NABNumber.__new__
    (NABNumber.VText (Some (Account.debit_arg (Some (py "-50.00")))))
    = Raise InvalidOperation.
Proof. apply (negative_debit_raises (py "50") (py "00")). reflexivity. Defined.

End MoreAmounts.

Section MinusWord.
Import decimal.
Local Open Scope Z_scope.

(** X7. A debit cell whose text is the word [minus] followed by an amount
    with two decimals gives the amount with a negative sign: the minus sign
    [process_row] puts before the text and the word are replaced by one
    sign. *)
Theorem minus_word_is_dropped (i f : str) :
  two_decimals i f = true ->
  NABNumber.__new__
    (NABNumber.VText
       (Some (Account.debit_arg (Some (py "minus" ++ amount_text false i f)))))
    = Ok (Finite true (norm_int (i ++ f)) (-2)).
Proof.
  intros H. pose proof (amount_text_chars false i f H) as Hc.
  pose proof (amount_text_nonempty false i f H) as Hne.
  change (Account.debit_arg (Some (py "minus" ++ amount_text false i f)))
    with (py "-minus" ++ amount_text false i f).
  set (t := amount_text false i f) in *.
  assert (Hsp : forallb (fun c => negb (pystr.is_space c)) (py "-minus" ++ t) = true).
  { rewrite forallb_app, (amount_chars_no_space t Hc). reflexivity. }
  assert (Hlf : forallb (fun c => negb (Ascii.eqb c NABNumber.LF)) (py "-minus" ++ t) = true).
  { revert Hsp. apply forallb_impl. intros c Hcc. apply negb_true_iff in Hcc.
    now rewrite not_space_not_LF. }
  assert (Hsym : NABNumber.remove_symbols (py "-minus" ++ t) = py "-minus" ++ t).
  { unfold NABNumber.remove_symbols. rewrite List.filter_app. f_equal.
    apply filter_none. revert Hc. apply forallb_impl. intros c Hcc.
    now rewrite amount_char_not_symbol. }
  assert (Hbl : forallb (fun c => negb (Ascii.eqb c " "%char)) (py "-minus" ++ t) = true).
  { rewrite forallb_app. apply andb_true_iff. split; [reflexivity|].
    revert Hc. apply forallb_impl. intros c Hcc. now rewrite amount_char_not_blank. }
  unfold NABNumber.__new__.
  change (match py "-minus" ++ t with [] => py "NaN" | _ :: _ => py "-minus" ++ t end)
    with (py "-minus" ++ t).
  rewrite (split_absent NABNumber.LF _ Hlf). cbn [map concat].
  rewrite (strip_none _ Hsp), app_nil_r, Hsym, (strip_none _ Hsp).
  rewrite (split_absent " " _ Hbl). cbn [app take].
  assert (Hrep : pystr.replace (py "-minus") (py "-") (py "-minus" ++ t) = py "-" ++ t).
  { unfold pystr.replace. cbn [py list_ascii_of_string app pystr.replace_from
      pystr.startswith Ascii.eqb Bool.eqb andb length Nat.sub].
    f_equal. change (pystr.replace_from _ _ 0 t)
      with (pystr.replace ("-"%char :: "m"%char :: py "inus") (py "-") t).
    apply replace_second_absent. now apply amount_chars_no_m. }
  cbn [py list_ascii_of_string app] in Hrep |- *. rewrite Hrep.
  replace (pystr.eqb _ (list_ascii_of_string "N/A")) with false
    by (symmetry; apply bool_decide_eq_false; discriminate).
  replace (pystr.eqb _ []) with false
    by (symmetry; apply bool_decide_eq_false; discriminate).
  replace (pystr.eqb [] (list_ascii_of_string "DR")) with false
    by (symmetry; apply bool_decide_eq_false; discriminate).
  cbn [orb app]. apply (of_str_amount true i f H).
Qed.

Lemma minus_word_is_dropped_witness :
  NABNumber.__new__
    (NABNumber.VText (Some (Account.debit_arg (Some (py "minus50.00")))))
    = Ok (Finite true (py "5000") (-2)).
Proof. apply (minus_word_is_dropped (py "50") (py "00")). reflexivity. Defined.

End MinusWord.

Section Rows.
Import decimal.
Local Open Scope Z_scope.
Context `{Runtime}.

(** What [process_row] computes for a row with enough cells. *)
Lemma process_row_inv (fs : filesystem) (a : Account.t) (row : RawRow) tr a' :
  Account.process_row fs a row = Ok (Some tr, a') ->
  (length (Account.var_names a) <= cells row)%nat /\
  py "balance" ∈ Account.var_names a /\
  exists dv cv btext bal credit_nan debit_nan c date,
    Account.location_memo (narrative row) = Ok ([], pystr.strip (narrative row)) /\
    NABNumber.__new__ (NABNumber.VText (Some (Account.debit_arg (debit row))))
      = Ok dv /\
    NABNumber.__new__ (NABNumber.VText (credit row)) = Ok cv /\
    re_sub_empty (default [] (balance_label row)) (balance_text row)
      = Ok btext /\
    NABNumber.__new__ (NABNumber.VText (Some btext)) = Ok bal /\
    isnan cv = Ok credit_nan /\ isnan dv = Ok debit_nan /\
    Account.categorise fs a (Account.payee_of (pystr.strip (narrative row)))
      (pystr.strip (narrative row)) = Ok (c, a') /\
    MonthDate.strptime (date_text row) = Ok date /\
    tr = Transaction.mk date (trans_code row) None
           (Account.payee_of (pystr.strip (narrative row)))
           (pystr.strip (narrative row))
           (if debit_nan then if credit_nan then zero else cv else dv)
           (default (py "Unspecified") c) bal.
Proof.
  unfold Account.process_row.
  destruct (Nat.ltb_spec (cells row) (length (Account.var_names a))) as [|Hlen];
    [discriminate|].
  intros Hp. split; [exact Hlen|].
  bind_as Hp lm Hlm. destruct lm as [location memo].
  pose proof (location_memo_ok _ _ _ Hlm) as [-> ->].
  bind_as Hp dv Hdebit. bind_as Hp cv Hcredit.
  case_bool_decide as Hbal; [|discriminate]. cbn [negb] in Hp.
  split; [exact Hbal|].
  bind_as Hp btext Hsub. bind_as Hp bal Hbalance. bind_as Hp amt Hamt.
  rewrite of_text_zero in Hamt. injection Hamt as <-.
  bind_as Hp cnan Hcnan. bind_as Hp dnan Hdnan.
  bind_as Hp ca Hcat. destruct ca as [c a1]. bind_as Hp date Hdate.
  injection Hp as <- <-.
  exists dv, cv, btext, bal, cnan, dnan, c, date.
  repeat split; try assumption.
Qed.

Lemma process_row_none (fs : filesystem) (a : Account.t) (row : RawRow) a' :
  Account.process_row fs a row = Ok (None, a') ->
  (cells row < length (Account.var_names a))%nat /\ a' = a.
Proof.
  unfold Account.process_row.
  destruct (Nat.ltb_spec (cells row) (length (Account.var_names a))) as [Hlt|].
  - intros [= <-]. auto.
  - intros Hp. exfalso. bind_as Hp lm Hlm. destruct lm as [location memo].
    bind_ok Hp. bind_ok Hp. destruct (negb _); [discriminate|].
    bind_ok Hp. bind_ok Hp. bind_ok Hp. bind_ok Hp. bind_ok Hp.
    bind_as Hp ca Hcat. destruct ca as [c a1]. bind_ok Hp. discriminate.
Qed.

(** X8. A transaction [process_row] returns has no reference; its type is
    the text of the transaction code; its memo is the stripped narrative,
    which holds no run of two spaces; its date is what [strptime] reads from
    the date cell, a date of the calendar between 1969 and 2068. *)
Theorem transaction_fields (fs : filesystem) (a : Account.t) (row : RawRow) tr a' :
  Account.process_row fs a row = Ok (Some tr, a') ->
  Transaction.reference tr = None /\
  Transaction.type tr = trans_code row /\
  Transaction.memo tr = pystr.strip (narrative row) /\
  has_run (Transaction.memo tr) = false /\
  MonthDate.strptime (date_text row) = Ok (Transaction.date tr) /\
  datetime.valid (Transaction.date tr) = true /\
  1969 <= datetime.year (Transaction.date tr) <= 2068.
Proof.
  intros Hp. apply process_row_inv in Hp as (_ & _ & Hp).
  destruct Hp as (dv & cv & btext & bal & cnan & dnan & c & date &
                  Hlm & _ & _ & _ & _ & _ & _ & _ & Hdate & ->).
  cbn [Transaction.reference Transaction.type Transaction.memo Transaction.date].
  split; [reflexivity|]. split; [reflexivity|]. split; [reflexivity|]. split.
  - rewrite location_memo_spec in Hlm.
    destruct (has_run (pystr.strip (narrative row))); [discriminate | reflexivity].
  - split; [exact Hdate|]. pose proof (strptime_valid_window (date_text row)) as Hw.
    rewrite Hdate in Hw. exact Hw.
Qed.

Lemma new_NaN : NABNumber.__new__ (NABNumber.VText (Some (py "NaN"))) = Ok undefined.
Proof. reflexivity. Qed.

Lemma new_no_amount (x : option str) :
  no_amount x = true -> NABNumber.__new__ (NABNumber.VText x) = Ok undefined.
Proof. destruct x as [[|]|]; [reflexivity | discriminate | reflexivity]. Qed.

Lemma debit_arg_no_amount (x : option str) :
  no_amount x = true -> Account.debit_arg x = py "NaN".
Proof. destruct x as [[|]|]; [reflexivity | discriminate | reflexivity]. Qed.

Lemma new_amount (neg : bool) (i f : str) :
  two_decimals i f = true ->
  NABNumber.__new__ (NABNumber.VText (Some (amount_text neg i f)))
    = Ok (Finite neg (norm_int (i ++ f)) (-2)).
Proof.
  intros Hif. pose proof (amount_text_chars neg i f Hif) as Hc.
  rewrite (new_plain _ (amount_text neg i f)).
  - now apply of_str_amount.
  - now apply amount_chars_no_space.
  - apply filter_none. revert Hc. apply forallb_impl. intros c Hcc.
    now rewrite amount_char_not_symbol.
  - exact Hc.
  - now apply amount_text_nonempty.
Qed.

Lemma debit_arg_amount (i f : str) :
  two_decimals i f = true ->
  Account.debit_arg (Some (amount_text false i f)) = amount_text true i f.
Proof.
  intros Hif. apply two_decimals_inv in Hif as (_ & Hne & _).
  destruct i; [congruence | reflexivity].
Qed.

(** X9. The amount of a transaction is the debit with a negative sign when
    the debit cell holds an amount, whatever the credit cell holds; it is
    the credit when only the credit cell holds an amount; and it is [0.00]
    when neither cell does. *)
Theorem debit_before_credit (fs : filesystem) (a : Account.t) (row : RawRow) tr a' :
  Account.process_row fs a row = Ok (Some tr, a') ->
  (forall i f, two_decimals i f = true ->
     debit row = Some (amount_text false i f) ->
     Transaction.amount tr = Finite true (norm_int (i ++ f)) (-2)) /\
  (forall i f, two_decimals i f = true ->
     no_amount (debit row) = true ->
     credit row = Some (amount_text false i f) ->
     Transaction.amount tr = Finite false (norm_int (i ++ f)) (-2)) /\
  (no_amount (debit row) = true -> no_amount (credit row) = true ->
   Transaction.amount tr = zero).
Proof.
  intros Hp. apply process_row_inv in Hp as (_ & _ & Hp).
  destruct Hp as (dv & cv & btext & bal & cnan & dnan & c & date &
                  _ & Hdebit & Hcredit & _ & _ & Hcnan & Hdnan & _ & _ & ->).
  cbn [Transaction.amount].
  split; [|split].
  - intros i f Hif Hd. rewrite Hd in Hdebit.
    rewrite (debit_arg_amount i f Hif), (new_amount true i f Hif) in Hdebit.
    injection Hdebit as <-.
    cbn in Hdnan. injection Hdnan as <-. reflexivity.
  - intros i f Hif Hd Hc.
    rewrite (debit_arg_no_amount _ Hd), new_NaN in Hdebit. injection Hdebit as <-.
    cbn in Hdnan. injection Hdnan as <-.
    rewrite Hc, (new_amount false i f Hif) in Hcredit. injection Hcredit as <-.
    cbn in Hcnan. injection Hcnan as <-. reflexivity.
  - intros Hd Hc.
    rewrite (debit_arg_no_amount _ Hd), new_NaN in Hdebit. injection Hdebit as <-.
    cbn in Hdnan. injection Hdnan as <-.
    rewrite (new_no_amount _ Hc) in Hcredit. injection Hcredit as <-.
    cbn in Hcnan. injection Hcnan as <-. reflexivity.
Qed.

End Rows.

Lemma debit_before_credit_witness :
  exists tr a',
    Account.process_row no_files (main_account Account.Float0) row_coffee
      = Ok (Some tr, a') /\
    Transaction.amount tr = decimal.Finite true (py "5000") (-2).
Proof.
  eexists _, _. split; [vm_compute; reflexivity|].
  refine (proj1 (debit_before_credit no_files (main_account Account.Float0)
                   row_coffee _ _ _) (py "50") (py "00") _ _);
    vm_compute; reflexivity.
Defined.

Lemma transaction_fields_witness :
  exists tr a',
    Account.process_row no_files (main_account Account.Float0) row_coffee
      = Ok (Some tr, a') /\
    Transaction.reference tr = None /\
    Transaction.type tr = trans_code row_coffee /\
    Transaction.memo tr = pystr.strip (narrative row_coffee) /\
    has_run (Transaction.memo tr) = false /\
    MonthDate.strptime (date_text row_coffee) = Ok (Transaction.date tr) /\
    datetime.valid (Transaction.date tr) = true /\
    (1969 <= datetime.year (Transaction.date tr) <= 2068)%Z.
Proof.
  eexists _, _. split; [vm_compute; reflexivity|].
  eapply (transaction_fields no_files (main_account Account.Float0) row_coffee).
  vm_compute. reflexivity.
Defined.

Section RowsOfAPage.
Import decimal.
Context `{Runtime}.

(** *** After the alert (error, 302033) *)

Lemma rules_only_var_names (a a' : Account.t) :
  rules_only a a' -> Account.var_names a' = Account.var_names a.
Proof. now intros [c ->]. Qed.

Lemma process_row_without_balance (fs : filesystem) (a : Account.t)
    (row : RawRow) x a' :
  py "balance" ∉ Account.var_names a ->
  Account.process_row fs a row = Ok (x, a') -> x = None.
Proof.
  intros Hn Hp. destruct x as [tr|]; [|reflexivity].
  apply process_row_inv in Hp as (_ & Hin & _). contradiction.
Qed.

Lemma process_rows_without_balance (fs : filesystem) (rows : list RawRow) :
  forall a trs a',
    py "balance" ∉ Account.var_names a ->
    Account.process_rows fs a rows = Ok (trs, a') ->
    Forall (eq None) trs.
Proof.
  induction rows as [|row rest IH]; intros a trs a' Hn Hp.
  - cbn in Hp. injection Hp as <- <-. constructor.
  - cbn [Account.process_rows] in Hp.
    bind_as Hp ta Hrow. destruct ta as [tr a1].
    bind_as Hp tsa Hrest. destruct tsa as [trs1 a2]. injection Hp as <- <-.
    constructor.
    + symmetry. eapply process_row_without_balance; eassumption.
    + eapply IH; [|exact Hrest].
      now rewrite (rules_only_var_names _ _ (process_row_rules_only _ _ _ _ _ Hrow)).
Qed.

(** X10. After the alert (error, 302033) has dropped the last column name
    of an account that had the five names of [__init__], no row gives a
    transaction: an extraction of at least one row that returns leaves only
    skipped rows, a zero closing balance and the requested end date, and
    [generate_qif] does not return. *)
Theorem no_transaction_after_alert (fs : filesystem) (a : Account.t)
    (rows : list RawRow) (end_date : datetime.date) :
  Account.var_names a = Account.VAR_NAMES -> rows <> [] ->
  (forall cb a1,
     Account.download_transactions fs a true rows end_date = Ok (cb, a1) ->
     Forall (eq None) (Account.transactions a1) /\
     length (Account.transactions a1) = length rows /\
     cb = zero /\ closing a1 = (Account.Amount zero, end_date)) /\
  is_ok (Account.generate_qif fs a true rows end_date) = false.
Proof.
  intros Hnames Hne.
  assert (Hdl : forall cb a1,
     Account.download_transactions fs a true rows end_date = Ok (cb, a1) ->
     Forall (eq None) (Account.transactions a1) /\
     length (Account.transactions a1) = length rows /\
     cb = zero /\ closing a1 = (Account.Amount zero, end_date)).
  { intros cb a1 Hd. pose proof Hd as Hd0.
    apply download_some in Hd0 as (Hlen & Hcl & Hcb & _); [|exact Hne].
    unfold Account.download_transactions in Hd.
    rewrite of_text_zero in Hd. cbn [mbind res_bind] in Hd.
    destruct rows as [|row rest]; [congruence|].
    bind_as Hd ta Hrows. destruct ta as [trs a'].
    apply process_rows_without_balance in Hrows.
    2:{ cbn [Account.var_names Account.set_var_names]. rewrite Hnames.
        vm_compute. intros Hin. repeat (apply elem_of_cons in Hin as [Hin|Hin];
          [discriminate|]). inversion Hin. }
    assert (Hall : Forall (eq None) (Account.transactions a1)).
    { destruct (last _) as [[tr|]|]; injection Hd as <- <-;
        cbn [Account.transactions Account.set_closing Account.set_transactions];
        now apply Forall_rev. }
    split; [exact Hall|]. split; [exact Hlen|].
    assert (Hlast : closing_of (last (Account.transactions a1))
                      (Account.Amount zero, end_date) = (Account.Amount zero, end_date)).
    { destruct (last (Account.transactions a1)) as [[tr|]|] eqn:El; try reflexivity.
      apply last_Some in El as [l' El]. rewrite El in Hall.
      apply Forall_app in Hall as [_ Hall]. inversion Hall; discriminate. }
    rewrite Hlast in Hcl. split; [|exact Hcl].
    unfold closing in Hcl. rewrite Hcb in Hcl. now injection Hcl as ->. }
  split; [exact Hdl|].
  unfold Account.generate_qif.
  destruct (Account.download_transactions fs a true rows end_date)
    as [[cb a1]|e] eqn:Hd; [|reflexivity].
  cbn [mbind res_bind]. destruct (Hdl cb a1 eq_refl) as (Hall & Hlen & _).
  rewrite qif_none; [reflexivity|].
  destruct (Account.transactions a1) as [|x l].
  - destruct rows; [congruence | discriminate].
  - inversion Hall; subst. left.
Qed.

(** *** The rules are read once *)

Lemma categorise_cached (fs fs' : filesystem) (a : Account.t) m payee memo :
  Account._payee_category_map a = Some m ->
  Account.categorise fs a payee memo = Account.categorise fs' a payee memo.
Proof.
  intros Hm. unfold Account.categorise, Account.payee_category_map.
  rewrite Hm. cbn [mbind res_bind].
  destruct (Account.first_match _ _) as [[v|]|]; cbn [mbind res_bind];
    [reflexivity | now rewrite Hm | reflexivity].
Qed.

Lemma process_row_cached (fs fs' : filesystem) (a : Account.t) m row :
  Account._payee_category_map a = Some m ->
  Account.process_row fs a row = Account.process_row fs' a row.
Proof.
  intros Hm. unfold Account.process_row.
  destruct (_ <? _)%nat; [reflexivity|].
  destruct (Account.location_memo _) as [[l mm]|]; [|reflexivity].
  cbn [mbind res_bind].
  destruct (NABNumber.__new__ _) as [dv|]; [|reflexivity]. cbn [mbind res_bind].
  destruct (NABNumber.__new__ _) as [cv|]; [|reflexivity]. cbn [mbind res_bind].
  destruct (negb _); [reflexivity|].
  destruct (re_sub_empty _ _) as [bt|]; [|reflexivity]. cbn [mbind res_bind].
  destruct (NABNumber.__new__ _) as [bv|]; [|reflexivity]. cbn [mbind res_bind].
  destruct (NABNumber.of_text _) as [z|]; [|reflexivity]. cbn [mbind res_bind].
  destruct (isnan cv) as [cn|]; [|reflexivity]. cbn [mbind res_bind].
  destruct (isnan dv) as [dn|]; [|reflexivity]. cbn [mbind res_bind].
  now rewrite (categorise_cached fs fs' a m).
Qed.

Lemma categorise_keeps (fs : filesystem) (a : Account.t) payee memo c a' :
  Account.categorise fs a payee memo = Ok (c, a') ->
  exists m, rules_of fs a = Ok m /\ a' = with_rules a (Some m).
Proof.
  unfold Account.categorise. intros Hc.
  bind_as Hc ma Hmap. destruct ma as [m a1].
  assert (Ha1 : rules_of fs a = Ok m /\ a1 = with_rules a (Some m)).
  { unfold Account.payee_category_map, rules_of in *.
    destruct (Account._payee_category_map a) as [m0|] eqn:E.
    - injection Hmap as <- <-. split; [reflexivity|].
      destruct a. cbn in E. now subst.
    - bind_as Hmap m1 Hl. injection Hmap as <- <-. split; [exact Hl | reflexivity]. }
  destruct Ha1 as [Hr ->]. exists m. split; [exact Hr|].
  bind_as Hc c1 Hp. destruct c1 as [v|]; [now injection Hc as <- <-|].
  cbn [Account.payee_category_map with_rules Account._payee_category_map
       mbind res_bind] in Hc.
  bind_as Hc c2 Hp2. now injection Hc as <- <-.
Qed.

Lemma process_row_loads_rules (fs : filesystem) (a : Account.t) (row : RawRow) tr a' :
  Account.process_row fs a row = Ok (Some tr, a') ->
  exists m,
    rules_of fs a = Ok m /\ a' = with_rules a (Some m) /\
    forall (fs' : filesystem) (row' : RawRow),
      Account.process_row fs' a' row' = Account.process_row fs a' row'.
Proof.
  intros Hp. apply process_row_inv in Hp as (_ & _ & Hp).
  destruct Hp as (dv & cv & btext & bal & cnan & dnan & c & date &
                  _ & _ & _ & _ & _ & _ & _ & Hcat & _).
  apply categorise_keeps in Hcat as (m & Hr & ->).
  exists m. split; [exact Hr|]. split; [reflexivity|].
  intros fs' row'. now apply (process_row_cached fs' fs _ m).
Qed.

(** X11. The rule files are read once for an account: after a row has
    given a transaction, the account keeps the mapping the files gave, and
    every later row is processed in the same way whatever the files hold
    by then. *)
Theorem rules_are_read_once (fs : filesystem) (a : Account.t) (row : RawRow) tr a' :
  Account.process_row fs a row = Ok (Some tr, a') ->
  exists m,
    rules_of fs a = Ok m /\ a' = with_rules a (Some m) /\
    forall (fs' : filesystem) (row' : RawRow),
      Account.process_row fs' a' row' = Account.process_row fs a' row'.
Proof. apply process_row_loads_rules. Qed.

End RowsOfAPage.

Lemma no_transaction_after_alert_witness :
  is_ok (Account.generate_qif no_files (main_account Account.Float0) true
           [row_coffee] (ymd 2024 1 31)) = false.
Proof.
  apply (@no_transaction_after_alert PythonRuntime no_files (main_account Account.Float0)
           [row_coffee] (ymd 2024 1 31)); [reflexivity | discriminate].
Defined.

Lemma rules_are_read_once_witness :
  exists tr a' m,
    Account.process_row two_files (main_account Account.Float0) row_coffee
      = Ok (Some tr, a') /\
    rules_of two_files (main_account Account.Float0) = Ok m /\
    a' = with_rules (main_account Account.Float0) (Some m) /\
    forall (fs' : filesystem) (row' : RawRow),
      Account.process_row fs' a' row' = Account.process_row two_files a' row'.
Proof.
  assert (Hrow : exists tr a',
            Account.process_row two_files (main_account Account.Float0) row_coffee
              = Ok (Some tr, a')).
  { eexists _, _. vm_compute. reflexivity. }
  destruct Hrow as (tr & a' & Hrow).
  destruct (@rules_are_read_once PythonRuntime two_files
              (main_account Account.Float0) row_coffee tr a' Hrow)
    as (m & H1 & H2 & H3).
  exists tr, a', m. split; [exact Hrow|]. split; [exact H1|].
  split; [exact H2 | exact H3].
Defined.

Section RowByRow.
Import decimal.
Context `{Runtime}.

Lemma with_rules_cached (a : Account.t) (m : gmap str str) :
  Account._payee_category_map a = Some m -> with_rules a (Some m) = a.
Proof. destruct a. cbn. now intros ->. Qed.

(** The categoriser consults the rules of the account and nothing else of
    it. *)
Lemma categorise_by_rules (fs : filesystem) (a : Account.t) payee memo :
  Account.categorise fs a payee memo =
    (m ← rules_of fs a;
     c1 ← Account.first_match (dict_items m) (default [] payee);
     match c1 with
     | Some v => Ok (Some v, with_rules a (Some m))
     | None =>
         c ← Account.first_match (dict_items m) memo;
         Ok (c, with_rules a (Some m))
     end).
Proof.
  unfold Account.categorise, Account.payee_category_map, rules_of.
  destruct (Account._payee_category_map a) as [m0|] eqn:E.
  - cbn [mbind res_bind]. rewrite (with_rules_cached a m0 E).
    destruct (Account.first_match _ _) as [[v|]|]; cbn [mbind res_bind];
      [reflexivity | now rewrite E | reflexivity].
  - destruct (Account.load_rules _ _ _) as [m|]; [|reflexivity].
    cbn [mbind res_bind].
    destruct (Account.first_match _ _) as [[v|]|]; reflexivity.
Qed.

Lemma process_row_outcome (fs : filesystem) (a b : Account.t) (row : RawRow) :
  rules_only a b -> rules_of fs a = rules_of fs b ->
  outcome (Account.process_row fs a row) = outcome (Account.process_row fs b row).
Proof.
  intros [c ->] Hr. unfold Account.process_row.
  cbn [with_rules Account.var_names].
  destruct (_ <? _)%nat; [reflexivity|].
  destruct (Account.location_memo _) as [[l mm]|]; [|reflexivity].
  cbn [mbind res_bind].
  destruct (NABNumber.__new__ _) as [dv|]; [|reflexivity]. cbn [mbind res_bind].
  destruct (NABNumber.__new__ _) as [cv|]; [|reflexivity]. cbn [mbind res_bind].
  destruct (negb _); [reflexivity|].
  destruct (re_sub_empty _ _) as [bt|]; [|reflexivity]. cbn [mbind res_bind].
  destruct (NABNumber.__new__ _) as [bv|]; [|reflexivity]. cbn [mbind res_bind].
  destruct (NABNumber.of_text _) as [z|]; [|reflexivity]. cbn [mbind res_bind].
  destruct (isnan cv) as [cn|]; [|reflexivity]. cbn [mbind res_bind].
  destruct (isnan dv) as [dn|]; [|reflexivity]. cbn [mbind res_bind].
  rewrite !categorise_by_rules, <- Hr.
  destruct (rules_of fs a) as [m|]; [|reflexivity]. cbn [mbind res_bind].
  destruct (Account.first_match _ _) as [[v|]|]; cbn [mbind res_bind].
  - destruct (MonthDate.strptime _); reflexivity.
  - destruct (Account.first_match _ _) as [c2|]; cbn [mbind res_bind]; [|reflexivity].
    destruct (MonthDate.strptime _); reflexivity.
  - reflexivity.
Qed.

Lemma process_row_keeps_rules (fs : filesystem) (a : Account.t) (row : RawRow) x a' :
  Account.process_row fs a row = Ok (x, a') ->
  rules_only a a' /\ rules_of fs a' = rules_of fs a.
Proof.
  intros Hp. split; [eapply process_row_rules_only; eassumption|].
  destruct x as [tr|].
  - apply process_row_loads_rules in Hp as (m & Hr & -> & _). now rewrite Hr.
  - now apply process_row_none in Hp as [_ ->].
Qed.

Lemma process_rows_each (fs : filesystem) (a0 : Account.t) (rows : list RawRow) :
  forall a trs a',
    rules_only a0 a -> rules_of fs a0 = rules_of fs a ->
    Account.process_rows fs a rows = Ok (trs, a') ->
    Forall2 (fun row tr => outcome (Account.process_row fs a0 row) = Ok tr) rows trs.
Proof.
  induction rows as [|row rest IH]; intros a trs a' Hro Hr Hp.
  - cbn in Hp. injection Hp as <- <-. constructor.
  - cbn [Account.process_rows] in Hp.
    bind_as Hp ta Hrow. destruct ta as [tr a1].
    bind_as Hp tsa Hrest. destruct tsa as [trs1 a2]. injection Hp as <- <-.
    constructor.
    + rewrite (process_row_outcome fs a0 a row Hro Hr). unfold outcome.
      now rewrite Hrow.
    + apply process_row_keeps_rules in Hrow as [Hro1 Hr1].
      apply (IH a1 trs1 a2); [eapply rules_only_trans; eassumption | congruence
                             | exact Hrest].
Qed.

(** X12. Extraction normalises the rows one by one and reverses their
    order: the sequence of the account, read from its end, holds for each
    row of the page, from the top, what [process_row] returns for that row
    alone. *)
Theorem rows_become_transactions_in_reverse (fs : filesystem) (a : Account.t)
    (rows : list RawRow) (end_date : datetime.date) cb a1 :
  rows <> [] ->
  Account.download_transactions fs a false rows end_date = Ok (cb, a1) ->
  Forall2 (fun row tr => outcome (Account.process_row fs a row) = Ok tr)
    rows (rev (Account.transactions a1)).
Proof.
  intros Hne Hd. unfold Account.download_transactions in Hd.
  rewrite of_text_zero in Hd. cbn [mbind res_bind] in Hd.
  destruct rows as [|row rest]; [congruence|].
  bind_as Hd ta Hrows. destruct ta as [trs a'].
  apply (process_rows_each fs a) in Hrows; [|apply rules_only_refl | reflexivity].
  destruct (last _) as [[tr|]|]; injection Hd as <- <-;
    cbn [Account.transactions Account.set_closing Account.set_transactions];
    now rewrite rev_involutive.
Qed.

End RowByRow.

Lemma rows_become_transactions_in_reverse_witness :
  exists cb a1,
    Account.download_transactions no_files (main_account Account.Float0) false
      [row_coffee; row_salary] (ymd 2024 1 31) = Ok (cb, a1) /\
    Forall2 (fun row tr =>
               outcome (Account.process_row no_files (main_account Account.Float0) row)
                 = Ok tr)
      [row_coffee; row_salary] (rev (Account.transactions a1)).
Proof.
  assert (Hd : exists cb a1,
            Account.download_transactions no_files (main_account Account.Float0) false
              [row_coffee; row_salary] (ymd 2024 1 31) = Ok (cb, a1)).
  { eexists _, _. vm_compute. reflexivity. }
  destruct Hd as (cb & a1 & Hd). exists cb, a1. split; [exact Hd|].
  apply (@rows_become_transactions_in_reverse PythonRuntime no_files
           (main_account Account.Float0) [row_coffee; row_salary] (ymd 2024 1 31)
           cb a1); [discriminate | exact Hd].
Defined.

Section Dedent.

Lemma indent12_indent : forallb textwrap.is_indent Transaction.indent12 = true.
Proof. reflexivity. Qed.

Lemma indent12_no_LF : no_LF Transaction.indent12 = true.
Proof. reflexivity. Qed.

Lemma flush_line_inv (l : str) :
  flush_line l = true ->
  exists c t, l = c :: t /\ textwrap.is_indent c = false /\ no_LF l = true.
Proof.
  unfold flush_line. destruct l as [|c t]; [discriminate|].
  intros Hl. apply andb_true_iff in Hl as [Hc Hn]. apply negb_true_iff in Hc.
  eauto.
Qed.

Lemma split_template (body : list str) :
  Forall (fun l => flush_line l = true) body ->
  pystr.split NABNumber.LF (template body)
    = map (app Transaction.indent12) body ++ [Transaction.indent12].
Proof.
  unfold template. induction 1 as [|l body Hl _ IH].
  - reflexivity.
  - cbn [map concat]. apply flush_line_inv in Hl as (c & t & -> & _ & Hn).
    rewrite <- app_assoc.
    set (rest := concat _ ++ Transaction.indent12) in *.
    replace ((Transaction.indent12 ++ (c :: t) ++ Transaction.nl) ++ rest)
      with ((Transaction.indent12 ++ c :: t) ++ NABNumber.LF :: rest)
      by (unfold Transaction.nl; rewrite <- !app_assoc; reflexivity).
    rewrite split_at_sep.
    + rewrite IH. reflexivity.
    + unfold no_LF in Hn. now rewrite forallb_app, Hn.
Qed.

Lemma blank_flush (l : str) :
  flush_line l = true ->
  forallb textwrap.is_indent (Transaction.indent12 ++ l) = false.
Proof.
  intros Hl. apply flush_line_inv in Hl as (c & t & -> & Hc & _).
  rewrite forallb_app. cbn [forallb]. now rewrite Hc, andb_false_r.
Qed.

Lemma take_indent_flush (l : str) :
  flush_line l = true ->
  pystr.take_while textwrap.is_indent (Transaction.indent12 ++ l)
    = Transaction.indent12.
Proof.
  intros Hl. apply flush_line_inv in Hl as (c & t & -> & Hc & _).
  rewrite take_while_app by reflexivity. cbn [pystr.take_while]. rewrite Hc.
  apply app_nil_r.
Qed.

Lemma common_prefix_refl (s : str) : textwrap.common_prefix s s = s.
Proof.
  induction s as [|c s IH]; [reflexivity|]. cbn. now rewrite Ascii.eqb_refl, IH.
Qed.

Lemma fold_common_prefix (s : str) (k : nat) :
  fold_left textwrap.common_prefix (repeat s k) s = s.
Proof. induction k; [reflexivity|]. cbn. now rewrite common_prefix_refl. Qed.

Lemma startswith_app (p s : str) : pystr.startswith p (p ++ s) = true.
Proof.
  induction p as [|c p IH]; [reflexivity|]. cbn. now rewrite Ascii.eqb_refl, IH.
Qed.

Lemma remove_margin_app (m l : str) : textwrap.remove_margin m (m ++ l) = l.
Proof.
  unfold textwrap.remove_margin. rewrite startswith_app. apply drop_app_length.
Qed.

Lemma join_flush (body : list str) :
  pystr.join [NABNumber.LF] (body ++ [[]]) = flush body.
Proof.
  unfold flush. induction body as [|l body IH]; [reflexivity|].
  cbn [app map concat pystr.join]. rewrite <- IH.
  destruct (body ++ [[]]) eqn:E; [destruct body; discriminate|].
  unfold Transaction.nl. now rewrite <- app_assoc.
Qed.

(** A template whose lines all start at the margin of twelve spaces loses
    the margin, and the blank line before the closing quotes. *)
Lemma dedent_template (body : list str) :
  Forall (fun l => flush_line l = true) body ->
  textwrap.dedent (template body) = flush body.
Proof.
  intros Hb. unfold textwrap.dedent. rewrite (split_template body Hb).
  rewrite map_app. cbn [map].
  change (forallb textwrap.is_indent Transaction.indent12) with true. cbv iota.
  assert (Hkeep :
    map (fun l => if forallb textwrap.is_indent l then [] else l)
        (map (app Transaction.indent12) body)
    = map (app Transaction.indent12) body).
  { clear -Hb. induction Hb as [|l body Hl _ IH]; [reflexivity|].
    cbn [map]. now rewrite (blank_flush l Hl), IH. }
  rewrite Hkeep. clear Hkeep.
  assert (Hind :
    map (pystr.take_while textwrap.is_indent)
        (List.filter (fun l => negb (pystr.eqb l []))
           (map (app Transaction.indent12) body ++ [[]]))
    = repeat Transaction.indent12 (length body)).
  { clear -Hb. induction Hb as [|l body Hl _ IH]; [reflexivity|].
    cbn [map app List.filter length repeat].
    replace (pystr.eqb (Transaction.indent12 ++ l) []) with false
      by (symmetry; apply bool_decide_eq_false; discriminate).
    cbn [negb map]. now rewrite (take_indent_flush l Hl), IH. }
  rewrite Hind. clear Hind.
  assert (Hrem : forall margin,
    (margin = Transaction.indent12 \/ (margin = [] /\ body = [])) ->
    map (textwrap.remove_margin margin)
        (map (app Transaction.indent12) body ++ [[]]) = body ++ [[]]).
  { intros margin [-> | [-> ->]]; [|reflexivity].
    rewrite map_app, map_map. cbn [map]. f_equal.
    clear. induction body as [|l body IH]; [reflexivity|].
    cbn [map]. now rewrite remove_margin_app, IH. }
  rewrite Hrem; [apply join_flush|].
  destruct body as [|l body]; [right; split; reflexivity|].
  left. cbn [length repeat]. apply fold_common_prefix.
Qed.

(** A template of one line, whose line ends are escaped. *)
Lemma dedent_one_line (l : str) :
  flush_line l = true -> textwrap.dedent (Transaction.indent12 ++ l) = l.
Proof.
  intros Hl. unfold textwrap.dedent.
  assert (Hn : forallb (fun c => negb (Ascii.eqb c NABNumber.LF))
                 (Transaction.indent12 ++ l) = true).
  { apply flush_line_inv in Hl as (c & t & -> & _ & Hn). unfold no_LF in Hn.
    now rewrite forallb_app, Hn. }
  rewrite (split_absent _ _ Hn). cbn [map]. rewrite (blank_flush l Hl).
  cbn [List.filter].
  replace (pystr.eqb (Transaction.indent12 ++ l) []) with false
    by (symmetry; apply bool_decide_eq_false; discriminate).
  cbn [negb map fold_left]. rewrite (take_indent_flush l Hl).
  cbn [pystr.join]. apply remove_margin_app.
Qed.

End Dedent.

Section NoLineFeed.
Import decimal.
Local Open Scope Z_scope.

Lemma no_LF_app (a b : str) : no_LF (a ++ b) = no_LF a && no_LF b.
Proof. apply forallb_app. Qed.

Lemma digit_not_LF (c : ascii) :
  is_digit c = true -> negb (Ascii.eqb c NABNumber.LF) = true.
Proof. by_cases_on_ascii c. Qed.

Lemma digits_no_LF (s : str) : forallb is_digit s = true -> no_LF s = true.
Proof. apply forallb_impl, digit_not_LF. Qed.

Lemma forallb_take {A} (p : A -> bool) (k : nat) (l : list A) :
  forallb p l = true -> forallb p (take k l) = true.
Proof.
  revert k. induction l as [|x l IH]; intros [|k]; cbn; try reflexivity.
  intros Hl. apply andb_true_iff in Hl as [-> Hl]. now apply IH.
Qed.

Lemma forallb_drop {A} (p : A -> bool) (k : nat) (l : list A) :
  forallb p l = true -> forallb p (drop k l) = true.
Proof.
  revert k. induction l as [|x l IH]; intros [|k]; cbn; try reflexivity.
  - now intros ->.
  - intros Hl. apply andb_true_iff in Hl as [_ Hl]. now apply IH.
Qed.

Lemma forallb_drop_while (p q : ascii -> bool) (s : str) :
  forallb p s = true -> forallb p (pystr.drop_while q s) = true.
Proof.
  induction s as [|c s IH]; [reflexivity|]. cbn [pystr.drop_while forallb].
  intros Hs. destruct (q c); [|exact Hs].
  apply andb_true_iff in Hs as [_ Hs]. now apply IH.
Qed.

Lemma forallb_strip (p : ascii -> bool) (s : str) :
  forallb p s = true -> forallb p (pystr.strip s) = true.
Proof.
  intros Hs. unfold pystr.strip, pystr.lstrip, pystr.rstrip.
  apply forallb_drop_while. rewrite forallb_rev. apply forallb_drop_while.
  now rewrite forallb_rev.
Qed.

Lemma zeros_digits (k : Z) : forallb is_digit (zeros k) = true.
Proof. unfold zeros. now apply forallb_repeat. Qed.

Lemma or_zero_digits (s : str) :
  forallb is_digit s = true -> forallb is_digit (or_zero s) = true.
Proof. destruct s; [reflexivity | auto]. Qed.

Lemma rescale_digits (s : bool) (n : str) (e x : Z) :
  forallb is_digit n = true ->
  exists n', _rescale s n e x = Finite s n' x /\ forallb is_digit n' = true.
Proof.
  intros Hn. unfold _rescale. destruct (is_zero n); [eauto|].
  destruct (x <=? e).
  - eexists. split; [reflexivity|]. now rewrite forallb_app, Hn, zeros_digits.
  - cbv zeta. destruct (len n + e - x <? 0).
    + destruct (_ =? 1); eexists; (split; [reflexivity|]);
        [apply str_of_N_digits | reflexivity].
    + destruct (_ =? 1); eexists; (split; [reflexivity|]);
        [apply str_of_N_digits | apply or_zero_digits, forallb_take, Hn].
Qed.

Lemma rjust_no_LF (w : nat) (s : str) : no_LF s = true -> no_LF (pystr.rjust w s) = true.
Proof.
  intros Hs. unfold pystr.rjust. rewrite no_LF_app, Hs.
  unfold no_LF. now rewrite forallb_repeat.
Qed.

Lemma str_of_exp_no_LF (e : Z) : no_LF (str_of_exp e) = true.
Proof.
  unfold str_of_exp. destruct (e <? 0); rewrite no_LF_app;
    now rewrite (digits_no_LF _ (str_of_N_digits _)).
Qed.

Lemma format_number_no_LF (sp : spec) (sign : bool) (ip fp : str) (e : Z) :
  forallb is_digit ip = true -> forallb is_digit fp = true ->
  no_LF (_format_number sp sign ip fp e) = true.
Proof.
  intros Hi Hf. unfold _format_number, _format_align. apply rjust_no_LF.
  rewrite !no_LF_app, (digits_no_LF _ Hi).
  assert (Hfr : no_LF match fp with [] => [] | _ :: _ => py "." ++ fp end = true).
  { destruct fp; [reflexivity|]. now rewrite no_LF_app, (digits_no_LF _ Hf). }
  destruct sign; destruct (e =? 0); cbn [_format_sign];
    rewrite ?no_LF_app, ?Hfr, ?str_of_exp_no_LF; reflexivity.
Qed.

Lemma layout_no_LF (sp : spec) (sign : bool) (n : str) (e : Z) :
  forallb is_digit n = true -> no_LF (layout sp sign n e) = true.
Proof.
  intros Hn. unfold layout.
  destruct (match sp with
            | FmtGeneral => (n, e)
            | FmtFixed _ _ => if is_zero n && (0 <? e) then (py "0", 0) else (n, e)
            end) as [n1 e1] eqn:E.
  assert (Hn1 : forallb is_digit n1 = true).
  { destruct sp; [now injection E as <- <-|].
    destruct (is_zero n && (0 <? e)); now injection E as <- <-. }
  cbv zeta.
  set (dot := match sp with FmtGeneral => _ | FmtFixed _ _ => _ end).
  destruct (dot <? 0).
  - apply format_number_no_LF; [reflexivity|].
    now rewrite forallb_app, zeros_digits, Hn1.
  - destruct (len n1 <? dot).
    + apply format_number_no_LF; [|reflexivity].
      now rewrite forallb_app, zeros_digits, Hn1.
    + apply format_number_no_LF;
        [apply or_zero_digits, forallb_take, Hn1 | apply forallb_drop, Hn1].
Qed.

(** The rendering of an amount holds no line feed. *)
Lemma format_no_LF (sp : spec) (d : Decimal) :
  digits_only d = true -> no_LF (format sp d) = true.
Proof.
  intros Hd. destruct d as [s n e|s|s p|s p]; cbn [digits_only] in Hd.
  - unfold format. destruct sp as [|p w].
    + now apply layout_no_LF.
    + destruct (rescale_digits s n e (- p) Hd) as (n' & -> & Hn').
      now apply layout_no_LF.
  - unfold format, _format_align. apply rjust_no_LF. now destruct s.
  - unfold format, _format_align. apply rjust_no_LF.
    cbn [sign_of str_special_abs]. rewrite !no_LF_app, (digits_no_LF _ Hd).
    now destruct s.
  - unfold format, _format_align. apply rjust_no_LF.
    cbn [sign_of str_special_abs]. rewrite !no_LF_app, (digits_no_LF _ Hd).
    now destruct s.
Qed.

Lemma amount_line_no_LF (d : Decimal) :
  digits_only d = true -> no_LF (pystr.strip (NABNumber.__str__ d)) = true.
Proof. intros Hd. apply forallb_strip. now apply format_no_LF. Qed.

(** *** Dates *)

Lemma zfill_digits (w : nat) (s : str) :
  forallb is_digit s = true -> forallb is_digit (MonthDate.zfill w s) = true.
Proof.
  intros Hs. unfold MonthDate.zfill. rewrite forallb_app, Hs.
  now rewrite forallb_repeat.
Qed.

Lemma isoformat_shape (d : datetime.date) :
  exists c t, MonthDate.isoformat d = c :: t /\ is_digit c = true /\
              no_LF (MonthDate.isoformat d) = true.
Proof.
  unfold MonthDate.isoformat.
  pose proof (zfill_digits 4 _ (str_of_N_digits (Z.to_N (datetime.year d)))) as Hy.
  pose proof (zfill_digits 2 _ (str_of_N_digits (Z.to_N (datetime.month d)))) as Hm.
  pose proof (zfill_digits 2 _ (str_of_N_digits (Z.to_N (datetime.day d)))) as Hd.
  assert (Hne : MonthDate.zfill 4 (str_of_N (Z.to_N (datetime.year d))) <> []).
  { unfold MonthDate.zfill. pose proof (str_of_N_nonempty (Z.to_N (datetime.year d))).
    destruct (str_of_N _); [congruence|]. destruct (repeat _ _); discriminate. }
  assert (Hall : no_LF (MonthDate.zfill 4 (str_of_N (Z.to_N (datetime.year d))) ++
                        py "-" ++ MonthDate.zfill 2 (str_of_N (Z.to_N (datetime.month d))) ++
                        py "-" ++ MonthDate.zfill 2 (str_of_N (Z.to_N (datetime.day d)))) = true).
  { rewrite !no_LF_app, (digits_no_LF _ Hy), (digits_no_LF _ Hm), (digits_no_LF _ Hd).
    reflexivity. }
  destruct (MonthDate.zfill 4 _) as [|c t]; [congruence|].
  cbn [forallb] in Hy. apply andb_true_iff in Hy as [Hc _].
  exists c, (t ++ py "-" ++ MonthDate.zfill 2 (str_of_N (Z.to_N (datetime.month d))) ++
             py "-" ++ MonthDate.zfill 2 (str_of_N (Z.to_N (datetime.day d)))).
  split; [reflexivity|]. split; [exact Hc | exact Hall].
Qed.

Lemma isoformat_no_LF (d : datetime.date) : no_LF (MonthDate.isoformat d) = true.
Proof. now destruct (isoformat_shape d) as (c & t & _ & _ & H). Qed.

Lemma digit_not_indent (c : ascii) : is_digit c = true -> textwrap.is_indent c = false.
Proof. by_cases_on_ascii c. Qed.

End NoLineFeed.

Section ExportText.
Import decimal.

Lemma flush_line_letter (c : ascii) (x : str) :
  textwrap.is_indent c = false -> Ascii.eqb c NABNumber.LF = false ->
  no_LF x = true -> flush_line (c :: x) = true.
Proof.
  intros Hc Hl Hx. unfold flush_line, no_LF in *. cbn [forallb].
  now rewrite Hc, Hl, Hx.
Qed.

Lemma no_LF_cons (c : ascii) (x : str) :
  Ascii.eqb c NABNumber.LF = false -> no_LF (c :: x) = no_LF x.
Proof. intros Hc. unfold no_LF. cbn [forallb]. now rewrite Hc. Qed.

(** The record of a transaction, line by line. *)
Lemma qif_record (t : Transaction.t) :
  no_LF (Transaction.memo t) = true -> no_LF (Transaction.type t) = true ->
  no_LF (Transaction.fmt_opt (Transaction.payee t)) = true ->
  no_LF (Transaction.category t) = true ->
  digits_only (Transaction.amount t) = true ->
  Transaction.qif t =
    flush [py "D" ++ MonthDate.isoformat (Transaction.date t);
           py "T" ++ pystr.strip (NABNumber.__str__ (Transaction.amount t));
           py "M" ++ Transaction.memo t;
           py "N" ++ Transaction.type t;
           py "P" ++ Transaction.fmt_opt (Transaction.payee t);
           py "L" ++ Transaction.category t;
           py "^"].
Proof.
  intros Hm Ht Hp Hc Ha.
  rewrite <- dedent_template.
  - unfold Transaction.qif, template. f_equal. cbn [map concat].
    rewrite <- !app_assoc. reflexivity.
  - repeat constructor; apply flush_line_letter;
      first [reflexivity | assumption | apply isoformat_no_LF
            | now apply amount_line_no_LF].
Qed.

(** X13. The export of a transaction whose texts hold no line feed is
    seven lines without indentation: the date after [D], the stripped
    amount after [T], the memo after [M], the type after [N], the payee
    after [P], the category after [L], and [^]. *)
Theorem transaction_qif_record (t : Transaction.t) :
  no_LF (Transaction.memo t) = true -> no_LF (Transaction.type t) = true ->
  no_LF (Transaction.fmt_opt (Transaction.payee t)) = true ->
  no_LF (Transaction.category t) = true ->
  digits_only (Transaction.amount t) = true ->
  Transaction.qif t =
    flush [py "D" ++ MonthDate.isoformat (Transaction.date t);
           py "T" ++ pystr.strip (NABNumber.__str__ (Transaction.amount t));
           py "M" ++ Transaction.memo t;
           py "N" ++ Transaction.type t;
           py "P" ++ Transaction.fmt_opt (Transaction.payee t);
           py "L" ++ Transaction.category t;
           py "^"].
Proof. apply qif_record. Qed.

Lemma transaction_qif_record_witness :
  Transaction.qif tx_five =
    flush [py "D2024-01-10"; py "T5.00"; py "MCOFFEE SHOP"; py "NEFTPOS";
           py "PCOFFEE SHOP"; py "LDining"; py "^"].
Proof. apply (transaction_qif_record tx_five); reflexivity. Defined.

(** X14. [Transaction.csv] is one line in which only the first margin of
    the template is removed: twelve spaces follow every comma and the last
    field. *)
Theorem transaction_csv_line (t : Transaction.t) :
  no_LF (Transaction.memo t) = true -> no_LF (Transaction.type t) = true ->
  no_LF (Transaction.fmt_opt (Transaction.payee t)) = true ->
  no_LF (Transaction.category t) = true ->
  digits_only (Transaction.amount t) = true ->
  Transaction.csv t =
    MonthDate.isoformat (Transaction.date t) ++ py "," ++
    Transaction.indent12 ++
      pystr.strip (NABNumber.__str__ (Transaction.amount t)) ++ py "," ++
    Transaction.indent12 ++ Transaction.memo t ++ py "," ++
    Transaction.indent12 ++ Transaction.type t ++ py "," ++
    Transaction.indent12 ++ Transaction.fmt_opt (Transaction.payee t) ++ py "," ++
    Transaction.indent12 ++ Transaction.category t ++
    Transaction.indent12.
Proof.
  intros Hm Ht Hp Hc Ha. unfold Transaction.csv. apply dedent_one_line.
  destruct (isoformat_shape (Transaction.date t)) as (c & r & Hiso & Hdig & Hn).
  unfold flush_line. rewrite !no_LF_app, Hn, Hm, Ht, Hp, Hc, indent12_no_LF,
    (amount_line_no_LF _ Ha).
  rewrite Hiso. cbn [app]. now rewrite (digit_not_indent c Hdig).
Qed.

Lemma transaction_csv_line_witness :
  Transaction.csv tx_five =
    py "2024-01-10,            5.00,            COFFEE SHOP,            EFTPOS,            COFFEE SHOP,            Dining            ".
Proof. apply (transaction_csv_line tx_five); reflexivity. Defined.

(** *** The export of an account *)

Lemma qif_loop_text (txs : list Transaction.t) (acc : str)
    (cb : Account.balance) (cbd : datetime.date) :
  exists cb' cbd',
    Account.qif_loop (map Some txs) acc cb cbd
      = Ok (acc ++ concat (map Transaction.qif txs), cb', cbd').
Proof.
  revert acc cb cbd. induction txs as [|t txs IH]; intros acc cb cbd.
  - cbn. rewrite app_nil_r. eauto.
  - cbn [map Account.qif_loop concat].
    destruct (IH (acc ++ Transaction.qif t) (Account.Amount (Transaction.balance t))
                (Transaction.date t)) as (cb' & cbd' & ->).
    rewrite <- app_assoc. eauto.
Qed.

Lemma all_transactions (trs : list (option Transaction.t)) :
  None ∉ trs -> exists txs, trs = map Some txs.
Proof.
  induction trs as [|[t|] trs IH]; intros Hn.
  - now exists [].
  - destruct IH as [txs ->]; [intros Hin; apply Hn; now right|]. now exists (t :: txs).
  - exfalso. apply Hn. left.
Qed.

Lemma acct_type_no_LF (ty : str) : no_LF (Account.acct_type ty) = true.
Proof. unfold Account.acct_type. now destruct (_ || _). Qed.

Lemma balance_format_no_LF (b : Account.balance) :
  balance_digits_only b = true -> no_LF (Account.balance_format b) = true.
Proof. destruct b; [reflexivity|]. apply format_no_LF. Qed.

Lemma flush_app (a b : list str) : flush (a ++ b) = flush a ++ flush b.
Proof. unfold flush. now rewrite map_app, concat_app. Qed.

Lemma qif_text (a : Account.t) out a2 :
  Account.qif a = Ok (out, a2) ->
  no_LF (Account.number a) = true ->
  no_LF (default [] (Account.bsb a)) = true ->
  balance_digits_only (Account.closing_balance a2) = true ->
  exists txs nan,
    Account.transactions a = map Some txs /\
    Account.balance_isnan (Account.closing_balance a2) = Ok nan /\
    out =
      flush [py "!Account";
             py "N" ++ match Account.bsb a with
                       | Some b => b ++ py " "
                       | None => []
                       end ++ Account.number a;
             py "T" ++ Account.acct_type (Account.type a);
             py "$" ++ (if nan then py "0.00"
                        else Account.balance_format (Account.closing_balance a2));
             py "/" ++ MonthDate.isoformat (Account.closing_balance_date a2);
             py "^";
             py "!Type:" ++ Account.acct_type (Account.type a)]
      ++ concat (map Transaction.qif txs).
Proof.
  intros Hq Hnum Hbsb Hcb. pose proof Hq as Hq0.
  apply qif_closing in Hq0 as (Hnone & _ & _ & _).
  destruct (all_transactions _ Hnone) as [txs Htxs].
  unfold Account.qif in Hq. rewrite Htxs in Hq.
  destruct (qif_loop_text txs [] (Account.current_balance a) (Account.at_date a))
    as (cb & cbd & Hl).
  rewrite Hl in Hq. cbn [mbind res_bind app] in Hq.
  destruct (Account.balance_isnan cb) as [nan|] eqn:Hnan; [|discriminate].
  cbn [mbind res_bind] in Hq. injection Hq as <- <-.
  cbn [Account.closing_balance Account.closing_balance_date Account.set_closing
       Account.type] in *.
  exists txs, nan. split; [exact Htxs|]. split; [exact Hnan|].
  rewrite app_assoc. f_equal.
  match goal with
  | |- _ = flush (?l1 :: ?l2 :: ?l3 :: ?rest) =>
      change (l1 :: l2 :: l3 :: rest) with ([l1; l2; l3] ++ rest)
  end.
  rewrite flush_app. f_equal.
  - rewrite <- dedent_template.
    + unfold template. f_equal. cbn [map concat]. rewrite <- !app_assoc. reflexivity.
    + assert (Hb : no_LF match Account.bsb a with
                         | Some b => b ++ py " "
                         | None => []
                         end = true).
      { destruct (Account.bsb a) as [b|]; [|reflexivity].
        change (no_LF b = true) in Hbsb. now rewrite no_LF_app, Hbsb. }
      repeat constructor; apply flush_line_letter;
        rewrite ?no_LF_app, ?Hb, ?Hnum, ?acct_type_no_LF; reflexivity.
  - rewrite <- dedent_template.
    + unfold template. f_equal. cbn [map concat]. rewrite <- !app_assoc. reflexivity.
    + assert (Hbal : no_LF (if nan then py "0.00" else Account.balance_format cb) = true).
      { destruct nan; [reflexivity | now apply balance_format_no_LF]. }
      repeat constructor; apply flush_line_letter;
        rewrite ?no_LF_cons by reflexivity;
        rewrite ?no_LF_app, ?Hbal, ?isoformat_no_LF, ?acct_type_no_LF; reflexivity.
Qed.

(** X15. The text [Account.qif] returns: the account header (the BSB and
    the number after [N], the type after [T]), the closing balance after
    [$] ([0.00] for a NaN), the closing date after [/], [^], the type after
    [!Type:], and then the records of the transactions in their order. *)
Theorem account_qif_text (a : Account.t) out a2 :
  Account.qif a = Ok (out, a2) ->
  no_LF (Account.number a) = true ->
  no_LF (default [] (Account.bsb a)) = true ->
  balance_digits_only (Account.closing_balance a2) = true ->
  exists txs nan,
    Account.transactions a = map Some txs /\
    Account.balance_isnan (Account.closing_balance a2) = Ok nan /\
    out =
      flush [py "!Account";
             py "N" ++ match Account.bsb a with
                       | Some b => b ++ py " "
                       | None => []
                       end ++ Account.number a;
             py "T" ++ Account.acct_type (Account.type a);
             py "$" ++ (if nan then py "0.00"
                        else Account.balance_format (Account.closing_balance a2));
             py "/" ++ MonthDate.isoformat (Account.closing_balance_date a2);
             py "^";
             py "!Type:" ++ Account.acct_type (Account.type a)]
      ++ concat (map Transaction.qif txs).
Proof. apply qif_text. Qed.

Lemma account_qif_text_witness :
  exists out a2 txs nan,
    Account.qif account_five = Ok (out, a2) /\
    Account.transactions account_five = map Some txs /\
    Account.balance_isnan (Account.closing_balance a2) = Ok nan /\
    out =
      flush [py "!Account";
             py "N" ++ match Account.bsb account_five with
                       | Some b => b ++ py " "
                       | None => []
                       end ++ Account.number account_five;
             py "T" ++ Account.acct_type (Account.type account_five);
             py "$" ++ (if nan then py "0.00"
                        else Account.balance_format (Account.closing_balance a2));
             py "/" ++ MonthDate.isoformat (Account.closing_balance_date a2);
             py "^";
             py "!Type:" ++ Account.acct_type (Account.type account_five)]
      ++ concat (map Transaction.qif txs).
Proof.
  assert (Hq : exists out a2, Account.qif account_five = Ok (out, a2)).
  { eexists _, _. vm_compute. reflexivity. }
  destruct Hq as (out & a2 & Hq).
  assert (Hcb : balance_digits_only (Account.closing_balance a2) = true).
  { vm_compute in Hq. injection Hq as _ <-. reflexivity. }
  destruct (account_qif_text account_five out a2 Hq eq_refl eq_refl Hcb)
    as (txs & nan & H1 & H2 & H3).
  exists out, a2, txs, nan. auto.
Defined.

End ExportText.

Section AccountNumbers.
Import AccountInit.

Lemma id_char_not_space (c : ascii) : id_char c = true -> pystr.is_space c = false.
Proof. by_cases_on_ascii c. Qed.

Lemma id_char_not_blank (c : ascii) :
  id_char c = true -> Ascii.eqb c " "%char = false.
Proof. by_cases_on_ascii c. Qed.

Lemma id_char_not_blank' (c : ascii) :
  id_char c = true -> Ascii.eqb " "%char c = false.
Proof. by_cases_on_ascii c. Qed.

Lemma id_char_not_LF (c : ascii) :
  id_char c = true -> negb (Ascii.eqb c NABNumber.LF) = true.
Proof. by_cases_on_ascii c. Qed.

Lemma id_char_no_bsb_label (c : ascii) (r : str) :
  id_char c = true -> label_match [py "BSB:"; py "Acc:"] (c :: r) = None.
Proof. by_cases_on_ascii c. Qed.

Lemma id_char_no_card_label (c : ascii) (r : str) :
  id_char c = true -> label_match [py "Card ending"] (c :: r) = None.
Proof. by_cases_on_ascii c. Qed.

Lemma label_match_bsb (c : ascii) (r : str) :
  id_char c = true ->
  label_match [py "BSB:"; py "Acc:"] (py "BSB: " ++ c :: r) = Some 5%nat.
Proof. by_cases_on_ascii c. Qed.

Lemma label_match_card (c : ascii) (r : str) :
  id_char c = true ->
  label_match [py "Card ending"] (py "Card ending " ++ c :: r) = Some 12%nat.
Proof. by_cases_on_ascii c. Qed.

Lemma label_match_blank (labels : list str) (c : ascii) (r : str) :
  labels = [py "BSB:"; py "Acc:"] \/ labels = [py "Card ending"] ->
  id_char c = true -> label_match labels (" "%char :: c :: r) = None.
Proof. intros [-> | ->]; by_cases_on_ascii c. Qed.

Lemma sub_labels_keep (labels : list str) (c : ascii) (r : str) :
  label_match labels (c :: r) = None ->
  sub_labels labels 0 (c :: r) = c :: sub_labels labels 0 r.
Proof. intros Hl. cbn [sub_labels]. now rewrite Hl. Qed.

(** Where no match starts, the text is kept. *)
Lemma sub_labels_kept (labels : list str) (a r : str) :
  (forall c t, id_char c = true -> label_match labels (c :: t) = None) ->
  forallb id_char a = true ->
  sub_labels labels 0 (a ++ r) = a ++ sub_labels labels 0 r.
Proof.
  intros Hl. induction a as [|c a IH]; [reflexivity|].
  cbn [forallb]. intros Ha. apply andb_true_iff in Ha as [Hc Ha].
  cbn [app sub_labels]. change (c :: a ++ r) with (c :: (a ++ r)).
  rewrite (Hl c (a ++ r) Hc). f_equal. now apply IH.
Qed.

Lemma sub_labels_nil (labels : list str) (k : nat) : sub_labels labels k [] = [].
Proof. reflexivity. Qed.

Lemma id_text_inv (s : str) :
  id_text s = true -> s <> [] /\ forallb id_char s = true.
Proof. destruct s; [discriminate|]. intros Hs. split; [discriminate | exact Hs]. Qed.

Lemma contains_app (k pre post : str) :
  literal.contains k (pre ++ k ++ post) = true.
Proof.
  induction pre as [|c pre IH].
  - cbn [app]. destruct (k ++ post) eqn:E; cbn [literal.contains];
      rewrite <- E, startswith_app; reflexivity.
  - cbn [app literal.contains]. rewrite IH. apply orb_true_r.
Qed.

Lemma strip_id_framed (b mid n : str) :
  id_text b = true -> id_text n = true ->
  pystr.strip (b ++ mid ++ n) = b ++ mid ++ n.
Proof.
  intros Hb Hn. apply id_text_inv in Hb as [Hbne Hb], Hn as [Hnne Hn].
  destruct b as [|c b']; [congruence|].
  destruct (exists_last Hnne) as (n' & z & ->).
  cbn [forallb] in Hb. apply andb_true_iff in Hb as [Hc _].
  rewrite forallb_app in Hn. apply andb_true_iff in Hn as [_ Hz].
  cbn [forallb] in Hz. apply andb_true_iff in Hz as [Hz _].
  replace ((c :: b') ++ mid ++ n' ++ [z]) with ((c :: (b' ++ mid ++ n')) ++ [z])
    by (cbn [app]; now rewrite <- !app_assoc).
  apply strip_framed; now apply id_char_not_space.
Qed.

Lemma split_max_at_blank (k : nat) (a r : str) :
  forallb id_char a = true ->
  pysplit.split_max (S k) (a ++ " "%char :: r) = a :: pysplit.split_max k r.
Proof.
  intros Ha. cbn [pysplit.split_max].
  assert (Hnb : forallb (fun c => negb (Ascii.eqb c " "%char)) a = true).
  { revert Ha. apply forallb_impl. intros c Hc. now rewrite id_char_not_blank. }
  rewrite (drop_while_app _ a _ Hnb), (take_while_app _ a _ Hnb).
  cbn. now rewrite app_nil_r.
Qed.

Lemma split_max_no_blank (k : nat) (a : str) :
  forallb id_char a = true -> pysplit.split_max k a = [a].
Proof.
  intros Ha. destruct k; [reflexivity|]. cbn [pysplit.split_max].
  assert (Hnb : forallb (fun c => negb (Ascii.eqb c " "%char)) a = true).
  { revert Ha. apply forallb_impl. intros c Hc. now rewrite id_char_not_blank. }
  now rewrite (drop_while_all _ a Hnb).
Qed.

(** X16. [Account.__init__] on the number text of the page. From
    [BSB: b Acct No: n] it takes [b] as the BSB and keeps the words
    [Acct No: ] before [n] in the number; from [Card ending n] it takes [n];
    a text that starts in neither way is the number as it is, without
    BSB. *)
Theorem account_number_text (b n : str) :
  id_text b = true -> id_text n = true ->
  bsb_number (py "BSB: " ++ b ++ py " Acct No: " ++ n)
    = Ok (Some b, py "Acct No: " ++ n) /\
  bsb_number (py "Card ending " ++ n) = Ok (None, n) /\
  forall s : str,
    pystr.startswith (py "BSB:") s = false ->
    pystr.startswith (py "Card ending ") s = false ->
    bsb_number s = Ok (None, s).
Proof.
  intros Hb Hn. pose proof Hb as Hb0. pose proof Hn as Hn0.
  apply id_text_inv in Hb0 as [Hbne Hbc], Hn0 as [Hnne Hnc].
  split; [|split].
  - unfold bsb_number.
    assert (Hm : match_bsb (py "BSB: " ++ b ++ py " Acct No: " ++ n) = true).
    { unfold match_bsb. change (drop 4 (py "BSB: " ++ b ++ py " Acct No: " ++ n))
        with (py " " ++ b ++ py " Acct No: " ++ n).
      change (pystr.startswith (py "BSB:") _) with true. cbn [andb].
      unfold literal.first_line. rewrite take_while_all.
      - replace (py " " ++ b ++ py " Acct No: " ++ n)
          with ((py " " ++ b ++ py " ") ++ py "Acct No:" ++ (py " " ++ n))
          by (now rewrite <- !app_assoc).
        apply contains_app.
      - rewrite !forallb_app, (forallb_impl _ _ _ id_char_not_LF Hbc),
          (forallb_impl _ _ _ id_char_not_LF Hnc). reflexivity. }
    rewrite Hm.
    assert (Hsub : sub_labels [py "BSB:"; py "Acc:"] 0
                     (py "BSB: " ++ b ++ py " Acct No: " ++ n)
                   = b ++ py " Acct No: " ++ n).
    { destruct b as [|cb b']; [congruence|]. destruct n as [|cn n']; [congruence|].
      cbn [forallb] in Hbc, Hnc.
      apply andb_true_iff in Hbc as [Hcb Hb'], Hnc as [Hcn Hn'].
      change (sub_labels ?L 0 (py "BSB: " ++ (cb :: b') ++ ?r))
        with (match label_match L (py "BSB: " ++ cb :: (b' ++ r)) with
              | Some k => sub_labels L (k - 1) (py "SB: " ++ cb :: (b' ++ r))
              | None => "B"%char :: sub_labels L 0 (py "SB: " ++ cb :: (b' ++ r))
              end).
      rewrite (label_match_bsb cb _ Hcb).
      change (sub_labels ?L (5 - 1) (py "SB: " ++ ?r)) with (sub_labels L 0 r).
      change (cb :: b' ++ ?r) with ((cb :: b') ++ r).
      rewrite (sub_labels_kept _ (cb :: b') _ id_char_no_bsb_label)
        by (cbn [forallb]; now rewrite Hcb, Hb').
      f_equal.
      change (py " Acct No: " ++ cn :: n')
        with (" "%char :: "A"%char :: "c"%char :: "c"%char :: "t"%char ::
              " "%char :: "N"%char :: "o"%char :: ":"%char :: " "%char :: cn :: n').
      do 9 (rewrite sub_labels_keep by reflexivity; f_equal).
      rewrite sub_labels_keep by (apply label_match_blank; auto). f_equal.
      rewrite <- (app_nil_r (cn :: n')) at 1.
      rewrite (sub_labels_kept _ (cn :: n') _ id_char_no_bsb_label)
        by (cbn [forallb]; now rewrite Hcn, Hn').
      now rewrite sub_labels_nil, app_nil_r. }
    rewrite Hsub, (strip_id_framed b (py " Acct No: ") n Hb Hn).
    change (b ++ py " Acct No: " ++ n) with (b ++ " "%char :: (py "Acct No: " ++ n)).
    now rewrite (split_max_at_blank 0 b _ Hbc).
  - unfold bsb_number.
    change (match_bsb (py "Card ending " ++ n)) with false.
    change (match_card (py "Card ending " ++ n)) with true. cbv iota.
    assert (Hsub : sub_labels [py "Card ending"] 0 (py "Card ending " ++ n) = n).
    { destruct n as [|cn n']; [congruence|].
      cbn [forallb] in Hnc. apply andb_true_iff in Hnc as [Hcn Hn'].
      change (sub_labels ?L 0 (py "Card ending " ++ cn :: n'))
        with (match label_match L (py "Card ending " ++ cn :: n') with
              | Some k => sub_labels L (k - 1) (py "ard ending " ++ cn :: n')
              | None => "C"%char :: sub_labels L 0 (py "ard ending " ++ cn :: n')
              end).
      rewrite (label_match_card cn _ Hcn).
      change (sub_labels ?L (12 - 1) (py "ard ending " ++ ?r)) with (sub_labels L 0 r).
      rewrite <- (app_nil_r (cn :: n')) at 1.
      rewrite (sub_labels_kept _ (cn :: n') _ id_char_no_card_label)
        by (cbn [forallb]; now rewrite Hcn, Hn').
      now rewrite sub_labels_nil, app_nil_r. }
    rewrite Hsub.
    rewrite strip_none
      by (revert Hnc; apply forallb_impl; intros c Hc; now rewrite id_char_not_space).
    now rewrite (split_max_no_blank 1 n Hnc).
  - intros s H1 H2. unfold bsb_number, match_bsb, match_card.
    now rewrite H1, H2.
Qed.

Lemma account_number_text_witness :
  bsb_number (py "BSB: 083-004 Acct No: 123456789")
    = Ok (Some (py "083-004"), py "Acct No: 123456789") /\
  bsb_number (py "Card ending 123456789") = Ok (None, py "123456789").
Proof.
  destruct (account_number_text (py "083-004") (py "123456789") eq_refl eq_refl)
    as (H1 & H2 & _).
  split; [exact H1 | exact H2].
Defined.

End AccountNumbers.

Section BsbBranch.
Import AccountInit.

Lemma startswith_inv (k s : str) :
  pystr.startswith k s = true -> exists r, s = k ++ r.
Proof.
  revert s. induction k as [|c k IH]; intros s; [now exists s|].
  destruct s as [|d s]; [discriminate|]. cbn [pystr.startswith].
  intros Hs. apply andb_true_iff in Hs as [Hc Hs]. apply Ascii.eqb_eq in Hc as ->.
  destruct (IH s Hs) as [r ->]. now exists r.
Qed.

Lemma contains_inv (k s : str) :
  literal.contains k s = true -> exists pre post, s = pre ++ k ++ post.
Proof.
  induction s as [|c s IH]; cbn [literal.contains]; intros Hc.
  - rewrite orb_false_r in Hc. apply startswith_inv in Hc as [r ->]. now exists [], r.
  - apply orb_true_iff in Hc as [Hc | Hc].
    + apply startswith_inv in Hc as [r ->]. now exists [], r.
    + destruct (IH Hc) as (pre & post & ->). now exists (c :: pre), post.
Qed.

Lemma take_drop_while (p : ascii -> bool) (s : str) :
  pystr.take_while p s ++ pystr.drop_while p s = s.
Proof.
  induction s as [|c s IH]; [reflexivity|]. cbn. destruct (p c); [|reflexivity].
  cbn. now rewrite IH.
Qed.

Lemma match_bsb_inv (s : str) :
  match_bsb s = true -> exists pre post, s = pre ++ py "Acct No:" ++ post.
Proof.
  unfold match_bsb. intros Hm. apply andb_true_iff in Hm as [_ Hc].
  apply contains_inv in Hc as (pre & post & Hfl).
  exists (take 4 s ++ pre), (post ++ pystr.drop_while
            (fun c => negb (Ascii.eqb c NABNumber.LF)) (drop 4 s)).
  rewrite <- (take_drop 4 s) at 1. rewrite <- !app_assoc. f_equal.
  rewrite <- (take_drop_while (fun c => negb (Ascii.eqb c NABNumber.LF)) (drop 4 s)) at 1.
  unfold literal.first_line in Hfl. rewrite Hfl. now rewrite <- !app_assoc.
Qed.

Lemma take_while_bound (p : ascii -> bool) (a : str) (c : ascii) (r : str) :
  p c = false -> length (pystr.take_while p (a ++ c :: r)) <= length a.
Proof.
  intros Hc. induction a as [|x a IH]; cbn [app pystr.take_while].
  - now rewrite Hc.
  - destruct (p x); cbn [length]; lia.
Qed.

(** A match that starts before the words [Acct No:] ends before them. *)
Lemma label_match_bound (pre post : str) (n : nat) :
  label_match [py "BSB:"; py "Acc:"] (pre ++ py "Acct No:" ++ post) = Some n ->
  n <= length pre.
Proof.
  unfold label_match. cbn [List.find].
  destruct (pystr.startswith (py "BSB:") _) eqn:E1.
  { apply startswith_inv in E1 as [r Hr].
    destruct pre as [|c1 [|c2 [|c3 [|c4 pre4]]]];
      cbn [app py list_ascii_of_string] in Hr; try discriminate Hr.
    injection Hr as -> -> -> -> <-. intros [= <-].
    cbn [length app drop py list_ascii_of_string Nat.add].
    do 4 apply le_n_S. now apply (take_while_bound (Ascii.eqb " ") pre4 "A"). }
  destruct (pystr.startswith (py "Acc:") _) eqn:E2.
  { apply startswith_inv in E2 as [r Hr].
    destruct pre as [|c1 [|c2 [|c3 [|c4 pre4]]]];
      cbn [app py list_ascii_of_string] in Hr; try discriminate Hr.
    injection Hr as -> -> -> -> <-. intros [= <-].
    cbn [length app drop py list_ascii_of_string Nat.add].
    do 4 apply le_n_S. now apply (take_while_bound (Ascii.eqb " ") pre4 "A"). }
  destruct (pystr.startswith (py "  ") _) eqn:E3; [|discriminate].
  apply startswith_inv in E3 as [r Hr].
  destruct pre as [|c1 [|c2 pre2]];
    cbn [app py list_ascii_of_string] in Hr; try discriminate Hr.
  intros [= <-]. cbn [length]. lia.
Qed.

(** The substitution keeps the words [Acct No:]. *)
Lemma sub_labels_keeps_words (post : str) :
  forall pre k, k <= length pre ->
    exists u v,
      sub_labels [py "BSB:"; py "Acc:"] k (pre ++ py "Acct No:" ++ post)
        = u ++ py "Acct No:" ++ v.
Proof.
  induction pre as [|c pre IH]; intros k Hk.
  - assert (k = 0) as -> by (cbn in Hk; lia).
    exists [], (sub_labels [py "BSB:"; py "Acc:"] 0 post).
    cbn [app py list_ascii_of_string].
    do 8 (rewrite sub_labels_keep by reflexivity; f_equal).
  - cbn [app sub_labels]. destruct k as [|k].
    + destruct (label_match _ _) as [n|] eqn:E.
      * apply (label_match_bound (c :: pre) post) in E. cbn [length] in E.
        apply IH. lia.
      * destruct (IH 0 ltac:(lia)) as (u & v & ->). now exists (c :: u), v.
    + apply IH. cbn [length] in Hk. lia.
Qed.

Lemma drop_while_stop (p : ascii -> bool) (a : str) (z : ascii) (b : str) :
  p z = false ->
  pystr.drop_while p (a ++ z :: b) = pystr.drop_while p a ++ z :: b.
Proof.
  intros Hz. induction a as [|x a IH]; cbn [app pystr.drop_while].
  - now rewrite Hz.
  - destruct (p x); [exact IH | reflexivity].
Qed.

Lemma strip_keeps_words (u v : str) :
  exists u' v', pystr.strip (u ++ py "Acct No:" ++ v) = u' ++ py "Acct No:" ++ v'.
Proof.
  unfold pystr.strip, pystr.rstrip, pystr.lstrip.
  replace (u ++ py "Acct No:" ++ v) with ((u ++ py "Acct No") ++ ":"%char :: v)
    by (now rewrite <- app_assoc).
  rewrite rev_app_distr. cbn [rev]. rewrite <- app_assoc. cbn [app].
  rewrite (drop_while_stop _ (rev v) ":" _ eq_refl).
  rewrite rev_app_distr. cbn [rev]. rewrite rev_involutive, <- !app_assoc.
  cbn [app py list_ascii_of_string].
  rewrite (drop_while_stop _ u "A" _ eq_refl).
  exists (pystr.drop_while pystr.is_space u),
         (rev (pystr.drop_while pystr.is_space (rev v))).
  reflexivity.
Qed.

Lemma in_take_while (p : ascii -> bool) (c : ascii) (y : str) :
  c ∈ pystr.take_while p y -> p c = true.
Proof.
  induction y as [|x y IH]; cbn [pystr.take_while]; [intros Hin; inversion Hin|].
  destruct (p x) eqn:Hx; [|intros Hin; inversion Hin].
  intros Hin. apply elem_of_cons in Hin as [-> | Hin]; auto.
Qed.

Lemma drop_while_head_fails (p : ascii -> bool) (y : str) (z : ascii) (r : str) :
  pystr.drop_while p y = z :: r -> p z = false.
Proof.
  induction y as [|x y IH]; cbn [pystr.drop_while]; [discriminate|].
  destruct (p x) eqn:Hx; [exact IH|]. now intros [= <- _].
Qed.

Lemma split_max_two (y : str) :
  " "%char ∈ y ->
  exists a r, pysplit.split_max 1 y = [a; r] /\ y = a ++ " "%char :: r.
Proof.
  intros Hin. cbn [pysplit.split_max].
  pose proof (take_drop_while (fun c => negb (Ascii.eqb c " "%char)) y) as Hy.
  destruct (pystr.drop_while _ y) as [|z r] eqn:E.
  - exfalso. rewrite app_nil_r in Hy. rewrite <- Hy in Hin.
    apply in_take_while in Hin. discriminate.
  - apply drop_while_head_fails in E. apply negb_false_iff, Ascii.eqb_eq in E.
    subst z. eexists _, _. split; [reflexivity|]. now symmetry.
Qed.

(** X17. A number text that matches the pattern of a BSB always splits in
    two: the constructor does not raise, and the words [Acct No:] are never
    removed, they stay in the BSB or in the number. *)
Theorem bsb_number_never_raises (number : str) :
  match_bsb number = true ->
  exists b n,
    bsb_number number = Ok (Some b, n) /\
    b ++ py " " ++ n =
      pystr.strip (sub_labels [py "BSB:"; py "Acc:"] 0 number) /\
    literal.contains (py "Acct No:") (b ++ py " " ++ n) = true.
Proof.
  intros Hm. unfold bsb_number. rewrite Hm.
  destruct (match_bsb_inv number Hm) as (pre & post & ->).
  destruct (sub_labels_keeps_words post pre 0 ltac:(lia)) as (u & v & ->).
  destruct (strip_keeps_words u v) as (u' & v' & ->).
  destruct (split_max_two (u' ++ py "Acct No:" ++ v')) as (a & r & -> & Hy).
  { apply elem_of_app. right. cbn [py list_ascii_of_string app].
    do 4 right. left. }
  exists a, r. split; [reflexivity|]. split; [now symmetry|].
  change (a ++ py " " ++ r) with (a ++ " "%char :: r). rewrite <- Hy.
  apply contains_app.
Qed.

Lemma bsb_number_never_raises_witness :
  exists b n,
    bsb_number (py "BSB: 083-004  Acct No:  123456789") = Ok (Some b, n) /\
    b ++ py " " ++ n =
      pystr.strip (sub_labels [py "BSB:"; py "Acc:"] 0
                     (py "BSB: 083-004  Acct No:  123456789")) /\
    literal.contains (py "Acct No:") (b ++ py " " ++ n) = true.
Proof. apply bsb_number_never_raises. reflexivity. Defined.

End BsbBranch.

Section Alerts.

Lemma split_max_word (k : nat) (a r : str) :
  no_blank a = true ->
  pysplit.split_max (S k) (a ++ " "%char :: r) = a :: pysplit.split_max k r.
Proof.
  intros Ha. cbn [pysplit.split_max]. unfold no_blank in Ha.
  rewrite (drop_while_app _ a _ Ha), (take_while_app _ a _ Ha).
  cbn. now rewrite app_nil_r.
Qed.

Lemma split_max_one_word (k : nat) (a : str) :
  no_blank a = true -> pysplit.split_max k a = [a].
Proof.
  intros Ha. destruct k; [reflexivity|]. cbn [pysplit.split_max].
  unfold no_blank in Ha. now rewrite (drop_while_all _ a Ha).
Qed.

(** X18. The fields [wrap_for_unexpected_alert] reads from the text of an
    alert. A text of one word is the message of an alert (info, unknown); of
    a text of two words the first is the code, with severity unknown; of a
    longer text the first word is the severity, the second the code and the
    rest the message. The alert [Error 302033: ...] is the one that drops
    the balance column, and an action that returns drops nothing. *)
Theorem alert_text_fields (a b c : str) :
  no_blank a = true -> no_blank b = true ->
  alert_fields a = (py "info", py "unknown", pystr.strip a) /\
  alert_fields (a ++ py " " ++ b) =
    (py "unknown",
     pystr.strip (pysplit.strip_chars (Ascii.eqb ":"%char) (pystr.lower a)),
     pystr.strip b) /\
  alert_fields (a ++ py " " ++ b ++ py " " ++ c) =
    (pystr.strip (pystr.lower a),
     pystr.strip (pysplit.strip_chars (Ascii.eqb ":"%char) (pystr.lower b)),
     pystr.strip c) /\
  alert_302033 (A := unit) (UnexpectedAlertPresent (py "Error 302033: " ++ c))
    = Ok true /\
  alert_302033 (Returned tt) = Ok false.
Proof.
  intros Ha Hb. unfold alert_fields.
  split; [|split; [|split; [|split]]].
  - now rewrite (split_max_one_word 2 a Ha).
  - change (a ++ py " " ++ b) with (a ++ " "%char :: b).
    now rewrite (split_max_word 1 a b Ha), (split_max_one_word 1 b Hb).
  - change (a ++ py " " ++ b ++ py " " ++ c) with (a ++ " "%char :: (b ++ " "%char :: c)).
    now rewrite (split_max_word 1 a _ Ha), (split_max_word 0 b _ Hb).
  - reflexivity.
  - reflexivity.
Qed.

Lemma alert_text_fields_witness :
  alert_fields (py "Notice") = (py "info", py "unknown", py "Notice") /\
  alert_fields (py "Error 302033:") = (py "unknown", py "error", py "302033:") /\
  alert_fields (py "Error 302033: No balance") =
    (py "error", py "302033", py "No balance").
Proof.
  destruct (alert_text_fields (py "Notice") (py "x") [] eq_refl eq_refl)
    as (H1 & _).
  destruct (alert_text_fields (py "Error") (py "302033:") (py "No balance")
              eq_refl eq_refl) as (_ & H2 & H3 & _).
  split; [exact H1|]. split; [exact H2 | exact H3].
Defined.

End Alerts.

Section Pages.
Import SavedPages.

Lemma find_app {A} (p : A -> bool) (l1 l2 : list A) :
  List.find p (l1 ++ l2) =
    match List.find p l1 with Some x => Some x | None => List.find p l2 end.
Proof.
  induction l1 as [|x l1 IH]; [reflexivity|]. cbn. now destruct (p x).
Qed.

Lemma try_exts_find (isfile : str -> bool) (use_path name : str) (exts : list str) :
  try_exts isfile use_path name exts =
    List.find isfile
      (concat (map (fun ext =>
         [join use_path (name ++ ext);
          join use_path (default name (page_file_map name) ++ ext)]) exts)).
Proof.
  induction exts as [|ext exts IH]; [reflexivity|].
  cbn [try_exts map concat app List.find].
  destruct (isfile (join use_path (name ++ ext))); [reflexivity|].
  destruct (isfile (join use_path (default name (page_file_map name) ++ ext)));
    [reflexivity | exact IH].
Qed.

Lemma try_keys_find (isfile : str -> bool) (self : t) (name : str)
    (keys : list str) :
  try_keys isfile self name keys =
    default []
      (List.find isfile
         (concat (map (fun k =>
            concat (map (fun ext =>
              [join (join (path self) k) (name ++ ext);
               join (join (path self) k)
                 (default name (page_file_map name) ++ ext)]) EXTS)) keys))).
Proof.
  induction keys as [|k keys IH]; [reflexivity|].
  cbn [try_keys map concat]. rewrite find_app, try_exts_find, IH.
  now destruct (List.find isfile (concat (map _ EXTS))).
Qed.

(** X19. [SavedPages.get_page] returns the first of the paths it probes
    that is a file, and the empty text exactly when none is: a path it
    returns is a file and one of the candidates. *)
Theorem get_page_first_file (isfile : str -> bool) (self : t) (name : str)
    (test_key : option str) :
  isfile [] = false ->
  get_page isfile self name test_key =
    default [] (List.find isfile (page_candidates self name test_key)) /\
  (get_page isfile self name test_key <> [] ->
   isfile (get_page isfile self name test_key) = true /\
   get_page isfile self name test_key ∈ page_candidates self name test_key) /\
  (get_page isfile self name test_key = [] <->
   forall f, f ∈ page_candidates self name test_key -> isfile f = false).
Proof.
  intros Hnil.
  assert (Heq : get_page isfile self name test_key =
                default [] (List.find isfile (page_candidates self name test_key))).
  { unfold get_page, page_candidates. apply try_keys_find. }
  split; [exact Heq|]. rewrite Heq.
  destruct (List.find isfile _) as [f|] eqn:E; cbn [default from_option id].
  - pose proof (find_some _ _ E) as [Hin Hf]. split.
    + intros _. split; [exact Hf | now apply list_elem_of_In].
    + split.
      * intros ->. congruence.
      * intros Hall. apply list_elem_of_In in Hin. rewrite (Hall f Hin) in Hf.
        discriminate.
  - split; [congruence|]. split; [|reflexivity]. intros _ g Hg.
    apply (find_none _ _ E). now apply list_elem_of_In.
Qed.

Lemma get_page_first_file_witness :
  get_page (fun f => pystr.eqb f (py "/pages/k/Account summary.html"))
    (mk (py "/pages") (Some (py "k"))) (py "acctInfo_acctBal.ctl") None
  = py "/pages/k/Account summary.html".
Proof.
  destruct (get_page_first_file
              (fun f => pystr.eqb f (py "/pages/k/Account summary.html"))
              (mk (py "/pages") (Some (py "k"))) (py "acctInfo_acctBal.ctl") None
              eq_refl) as (-> & _).
  vm_compute. reflexivity.
Defined.

End Pages.

Section SummaryPage.

Lemma new_built (row : AccountRow) (end_date today : datetime.date)
    (trans_type : str) (available : Account.balance) (a : Account.t) :
  AccountInit.new trans_type (row_number row) (Some (row_nick_name row))
    Account.Float0 (Some available) end_date today = Ok a ->
  built_from row end_date today a.
Proof.
  unfold AccountInit.new. intros Hn. bind_as Hn bn Hbn. destruct bn as [bsb n].
  unfold Account.__init__ in Hn. rewrite of_text_zero in Hn.
  cbn [mbind res_bind] in Hn. injection Hn as <-.
  unfold built_from, closing.
  cbn [Account.bsb Account.number Account.nick_name Account.current_balance
       Account.at_date Account.closing_balance Account.closing_balance_date
       Account.transactions Account.var_names Account._payee_category_map].
  repeat split; try assumption.
Qed.

Lemma get_accounts_from_spec (end_date today : datetime.date)
    (rows : list AccountRow) :
  forall acc accts,
    get_accounts_from rows end_date today acc = Ok accts ->
    (forall k a, accts !! k = Some a ->
       acc !! k = Some a \/
       exists row, row ∈ rows /\ row_nick_name row = k /\
                   built_from row end_date today a) /\
    (forall k, is_Some (acc !! k) -> is_Some (accts !! k)) /\
    (forall row, row ∈ rows -> is_Some (accts !! row_nick_name row)).
Proof.
  induction rows as [|row rest IH]; intros acc accts Hg.
  - cbn in Hg. injection Hg as <-. split; [auto|]. split; [auto|].
    intros row Hin. inversion Hin.
  - cbn [get_accounts_from] in Hg.
    bind_as Hg available Hav. bind_as Hg account Hacc.
    apply new_built in Hacc.
    apply IH in Hg as (Hentries & Hkeep & Hrows).
    split; [|split].
    + intros k a Hk. destruct (Hentries k a Hk) as [Hold | (r & Hr & Hrk & Hb)].
      * destruct (decide (row_nick_name row = k)) as [<- | Hne].
        -- rewrite lookup_insert_eq in Hold. injection Hold as <-.
           right. exists row. split; [left | auto].
        -- rewrite lookup_insert_ne in Hold by assumption. now left.
      * right. exists r. split; [now right | auto].
    + intros k Hk. apply Hkeep.
      destruct (decide (row_nick_name row = k)) as [<- | Hne].
      * rewrite lookup_insert_eq. eauto.
      * now rewrite lookup_insert_ne.
    + intros r Hr. apply elem_of_cons in Hr as [-> | Hr]; [|now apply Hrows].
      apply Hkeep. rewrite lookup_insert_eq. eauto.
Qed.

(** X20. Every account [get_accounts] returns was made from a row of the
    page with its key as nick name text: it has the BSB and the number of
    that row, a current balance of [0.0] (the current balance of the page
    is not kept), the end date as as-of date, a zero closing balance, no
    transaction and the five column names; every row has its nick name
    among the keys. *)
Theorem accounts_of_the_summary_page (rows : list AccountRow)
    (end_date today : datetime.date) (accts : gmap str Account.t) :
  get_accounts rows end_date today = Ok accts ->
  (forall k a, accts !! k = Some a ->
     exists row, row ∈ rows /\ row_nick_name row = k /\
                 built_from row end_date today a) /\
  (forall row, row ∈ rows -> is_Some (accts !! row_nick_name row)).
Proof.
  unfold get_accounts. intros Hg.
  apply get_accounts_from_spec in Hg as (Hentries & _ & Hrows).
  split; [|exact Hrows].
  intros k a Hk. destruct (Hentries k a Hk) as [Hold | Hnew]; [|exact Hnew].
  rewrite lookup_empty in Hold. discriminate.
Qed.

Lemma accounts_of_the_summary_page_witness :
  exists accts a,
    get_accounts [summary_row] (ymd 2024 1 31) (ymd 2024 2 3) = Ok accts /\
    accts !! py "Main" = Some a /\
    built_from summary_row (ymd 2024 1 31) (ymd 2024 2 3) a.
Proof.
  assert (Hg : exists accts,
            get_accounts [summary_row] (ymd 2024 1 31) (ymd 2024 2 3) = Ok accts).
  { eexists. vm_compute. reflexivity. }
  destruct Hg as [accts Hg].
  destruct (accounts_of_the_summary_page _ _ _ _ Hg) as [Hentries Hrows].
  destruct (Hrows summary_row ltac:(left)) as [a Ha].
  destruct (Hentries _ a Ha) as (row & Hin & Hk & Hb).
  apply list_elem_of_singleton in Hin as ->.
  exists accts, a. auto.
Defined.

(** *** An account without transactions *)

Context `{Runtime}.

(** X21. For an account of [get_accounts], when the page shows no row,
    [generate_qif] returns a zero balance and writes the header with the
    closing balance line [$0.0] and the end date of [get_accounts] as
    closing date, followed by one empty line. *)
Theorem export_without_rows (row : AccountRow) (end_date today : datetime.date)
    (a : Account.t) (fs : filesystem) (alert : bool) (d : datetime.date) :
  built_from row end_date today a ->
  no_LF (Account.number a) = true ->
  no_LF (default [] (Account.bsb a)) = true ->
  exists a2,
    Account.generate_qif fs a alert [] d =
      Ok (zero,
          flush [py "!Account";
                 py "N" ++ match Account.bsb a with
                           | Some b => b ++ py " "
                           | None => []
                           end ++ Account.number a;
                 py "T" ++ Account.acct_type (Account.type a);
                 py "$0.0";
                 py "/" ++ MonthDate.isoformat end_date;
                 py "^";
                 py "!Type:" ++ Account.acct_type (Account.type a)]
          ++ Transaction.nl,
          a2) /\
    closing a2 = (Account.Float0, end_date).
Proof.
  intros (_ & _ & Hcur & Hat & _ & Htr & _) Hnum Hbsb.
  unfold Account.generate_qif, Account.download_transactions.
  rewrite of_text_zero. cbn [mbind res_bind].
  set (a1 := if alert then _ else a).
  assert (Hsame : Account.transactions a1 = [] /\
                  Account.current_balance a1 = Account.Float0 /\
                  Account.at_date a1 = end_date /\
                  Account.number a1 = Account.number a /\
                  Account.bsb a1 = Account.bsb a /\
                  Account.type a1 = Account.type a).
  { subst a1. destruct alert; cbn; auto 10. }
  destruct Hsame as (Htr1 & Hcur1 & Hat1 & Hn1 & Hb1 & Hty1).
  destruct (qif_returns a1) as (out & a2 & Hq).
  { rewrite Htr1. apply not_elem_of_nil. }
  { now rewrite Htr1, Hcur1. }
  rewrite Hq. cbn [mbind res_bind]. exists a2.
  pose proof (qif_closing a1 out a2 Hq) as (_ & _ & Hcl & _).
  rewrite Htr1, Hcur1, Hat1 in Hcl. cbn [last closing_of] in Hcl.
  split; [|exact Hcl].
  unfold closing in Hcl. injection Hcl as Hcb Hcbd.
  destruct (qif_text a1 out a2 Hq) as (txs & nan & Htxs & Hnan & ->).
  { now rewrite Hn1. } { now rewrite Hb1. } { now rewrite Hcb. }
  rewrite Htr1 in Htxs. destruct txs; [|discriminate].
  rewrite Hcb in Hnan. injection Hnan as <-.
  rewrite Hcb, Hcbd, Hn1, Hb1, Hty1. cbn [map concat]. now rewrite app_nil_r.
Qed.

End SummaryPage.

Lemma export_without_rows_witness :
  exists a2,
    Account.generate_qif no_files summary_account false [] (ymd 2024 1 31) =
      Ok (zero,
          flush [py "!Account"; py "N083-004 Acct No: 123456789"; py "TBank";
                 py "$0.0"; py "/2024-01-31"; py "^"; py "!Type:Bank"]
          ++ Transaction.nl,
          a2) /\
    closing a2 = (Account.Float0, ymd 2024 1 31).
Proof.
  apply (@export_without_rows PythonRuntime summary_row (ymd 2024 1 31)
           (ymd 2024 2 3) summary_account no_files false (ymd 2024 1 31));
    [repeat split; reflexivity | reflexivity | reflexivity].
Defined.

Section Waiting.

Lemma wait_spinner_from_spec (spinner_count : nat -> nat) (remaining : nat) :
  forall index, exists k,
    (k <= remaining)%nat /\
    wait_spinner_from spinner_count index remaining = seq index k /\
    (forall i, (index <= i < index + k)%nat -> (0 < spinner_count i)%nat) /\
    ((k < remaining)%nat -> spinner_count (index + k)%nat = 0%nat).
Proof.
  induction remaining as [|n IH]; intros index.
  - exists 0%nat. repeat split; [lia | lia | lia].
  - cbn [wait_spinner_from].
    destruct (Nat.ltb_spec 0 (spinner_count index)) as [Hpos|Hzero].
    + destruct (IH (S index)) as (k & Hk & Heq & Hall & Hstop).
      exists (S k). split; [lia|]. split; [cbn [seq]; now rewrite Heq|]. split.
      * intros i Hi. destruct (decide (i = index)) as [->|]; [exact Hpos|].
        apply Hall. lia.
      * intros Hlt. replace (index + S k)%nat with (S index + k)%nat by lia.
        apply Hstop. lia.
    + exists 0%nat. split; [lia|]. split; [reflexivity|]. split; [lia|].
      intros _. rewrite Nat.add_0_r. lia.
Qed.

Lemma sum_seq (i k : nat) :
  (2 * list_sum (seq i k) = 2 * i * k + k * (k - 1))%nat.
Proof.
  revert i. induction k as [|k IH]; intros i; [cbn; lia|].
  cbn [seq list_sum]. specialize (IH (S i)). destruct k; cbn in *; nia.
Qed.

(** X22. [wait_spinner] sleeps 0, 1, 2, ... seconds while the page shows
    a spinner, stops at the first look that shows none, looks [timeout]
    times at most, and sleeps [k (k - 1) / 2] seconds in all after [k]
    looks with a spinner, hence no more than [timeout (timeout - 1) / 2]. *)
Theorem wait_spinner_sleeps (spinner_count : nat -> nat) (timeout : nat) :
  exists k,
    (k <= timeout)%nat /\
    wait_spinner spinner_count timeout = seq 0 k /\
    (forall i, (i < k)%nat -> (0 < spinner_count i)%nat) /\
    ((k < timeout)%nat -> spinner_count k = 0%nat) /\
    (2 * list_sum (wait_spinner spinner_count timeout) = k * (k - 1))%nat /\
    (2 * list_sum (wait_spinner spinner_count timeout)
       <= timeout * (timeout - 1))%nat.
Proof.
  destruct (wait_spinner_from_spec spinner_count timeout 0)
    as (k & Hk & Heq & Hall & Hstop).
  exists k. unfold wait_spinner. rewrite Heq.
  split; [exact Hk|]. split; [reflexivity|].
  split; [intros i Hi; apply Hall; lia|].
  split; [exact Hstop|].
  pose proof (sum_seq 0 k) as Hs. split; [lia|]. nia.
Qed.

End Waiting.

Section MalformedRules.
Context `{Runtime}.

Lemma split_length (sep : ascii) (s : str) :
  length (pystr.split sep s) = S (count_char sep s).
Proof.
  unfold count_char. induction s as [|c s IH]; [reflexivity|].
  cbn [pystr.split List.filter]. rewrite (Ascii.eqb_sym sep c).
  destruct (Ascii.eqb c sep).
  - cbn [length]. now rewrite IH.
  - destruct (pystr.split sep s); [discriminate|]. exact IH.
Qed.

Lemma read_rules_raises (lines : list str) :
  forall m e, Account.read_rules lines m = Raise e -> e = ValueError.
Proof.
  induction lines as [|line rest IH]; intros m e; [discriminate|].
  cbn [Account.read_rules]. destruct line as [|c l]; [apply IH|].
  destruct (pystr.split "|" (c :: l)) as [|p [|cat [|x r]]];
    try (now intros [= <-]). apply IH.
Qed.

Lemma read_rules_malformed (lines : list str) (line : str) :
  line ∈ lines -> line <> [] -> count_char "|" line <> 1%nat ->
  forall m, Account.read_rules lines m = Raise ValueError.
Proof.
  intros Hin Hne Hcount. induction lines as [|l rest IH]; [inversion Hin|].
  intros m. cbn [Account.read_rules].
  apply elem_of_cons in Hin as [<- | Hin].
  - destruct line as [|c t]; [congruence|].
    pose proof (split_length "|" (c :: t)) as Hl.
    destruct (pystr.split "|" (c :: t)) as [|p [|cat [|x r]]]; try reflexivity.
    cbn [length] in Hl. lia.
  - destruct l as [|c t]; [now apply IH|].
    destruct (pystr.split "|" (c :: t)) as [|p [|cat [|x r]]]; try reflexivity.
    now apply IH.
Qed.

Lemma load_rules_malformed (fs : filesystem) (names : list str)
    (name content line : str) :
  name ∈ names -> fs name = Some content ->
  line ∈ Account.stripped_lines content -> line <> [] ->
  count_char "|" line <> 1%nat ->
  forall m, Account.load_rules fs names m = Raise ValueError.
Proof.
  intros Hin Hfs Hline Hne Hcount. induction names as [|n rest IH]; [inversion Hin|].
  intros m. cbn [Account.load_rules].
  apply elem_of_cons in Hin as [<- | Hin].
  - rewrite Hfs. now rewrite (read_rules_malformed _ line Hline Hne Hcount).
  - destruct (fs n) as [c|]; [|now apply IH].
    destruct (Account.read_rules _ m) as [m'|e] eqn:E; cbn [mbind res_bind].
    + now apply IH.
    + now rewrite (read_rules_raises _ _ _ E).
Qed.

(** X23. A line of a rule file that is not blank and has not exactly one
    [|] makes the loading of the rules raise ValueError, and then no row
    with enough cells is processed. *)
Theorem malformed_rule_line (fs : filesystem) (a : Account.t)
    (name content line : str) :
  Account._payee_category_map a = None ->
  name ∈ Account.rule_files (Account.nick_name a) ->
  fs name = Some content ->
  line ∈ Account.stripped_lines content -> line <> [] ->
  count_char "|" line <> 1%nat ->
  Account.payee_category_map fs a = Raise ValueError /\
  forall row : RawRow,
    (length (Account.var_names a) <= cells row)%nat ->
    is_ok (Account.process_row fs a row) = false.
Proof.
  intros Hnone Hin Hfs Hline Hne Hcount.
  assert (Hmap : Account.payee_category_map fs a = Raise ValueError).
  { unfold Account.payee_category_map. rewrite Hnone.
    now rewrite (load_rules_malformed fs _ name content line). }
  split; [exact Hmap|].
  intros row Hcells.
  destruct (Account.process_row fs a row) as [[[tr|] a']|e] eqn:Hp; [| |reflexivity].
  - apply process_row_inv in Hp as (_ & _ & Hp).
    destruct Hp as (dv & cv & btext & bal & cnan & dnan & c & date &
                    _ & _ & _ & _ & _ & _ & _ & Hcat & _).
    unfold Account.categorise in Hcat. rewrite Hmap in Hcat. discriminate.
  - apply process_row_none in Hp as [Hlt _]. lia.
Qed.

End MalformedRules.

Lemma malformed_rule_line_witness :
  Account.payee_category_map bad_rules (main_account Account.Float0)
    = Raise ValueError /\
  is_ok (Account.process_row bad_rules (main_account Account.Float0) row_coffee)
    = false.
Proof.
  destruct (@malformed_rule_line PythonRuntime bad_rules
              (main_account Account.Float0)
              (py "PayeeCategories.txt") (py "coffee|Dining|Cafe")
              (py "coffee|Dining|Cafe")) as [H1 H2].
  - reflexivity.
  - right. left.
  - reflexivity.
  - left.
  - discriminate.
  - vm_compute. lia.
  - split; [exact H1|]. apply H2. vm_compute. lia.
Defined.

(** * The claims on amounts, closing fields and rules *)

(** ** Amounts: text that cannot be read *)

Section Unparseable.
Import decimal.
Local Open Scope Z_scope.

Lemma foreign_not_symbol (c : ascii) :
  foreign_char c = true -> NABNumber.is_symbol c = false.
Proof. by_cases_on_ascii c. Qed.

Lemma foreign_not_number (c : ascii) :
  foreign_char c = true ->
  is_digit c = false /\ Ascii.eqb c "."%char = false /\ is_E c = false /\
  Ascii.eqb c "-"%char = false /\ Ascii.eqb c "+"%char = false.
Proof. by_cases_on_ascii c; intros _; repeat split; reflexivity. Qed.

Lemma foreign_not_special (c : ascii) :
  foreign_char c = true ->
  is_digit (pystr.lower_char c) = false /\
  existsb (Ascii.eqb (pystr.lower_char c)) (py "infinitysnan") = false.
Proof. by_cases_on_ascii c; intros _; split; reflexivity. Qed.

Lemma foreign_not_minus (c : ascii) :
  foreign_char c = true -> c ∉ py "-minus".
Proof.
  intros Hc Hin. cbn in Hin.
  repeat (apply elem_of_cons in Hin as [-> | Hin]; [discriminate Hc|]).
  inversion Hin.
Qed.

Lemma existsb_elem (c : ascii) (l : str) :
  c ∈ l -> existsb (Ascii.eqb c) l = true.
Proof.
  induction l as [|x l IH]; intros Hin; [inversion Hin|].
  cbn [existsb]. apply elem_of_cons in Hin as [-> | Hin].
  - now rewrite Ascii.eqb_refl.
  - rewrite (IH Hin). apply orb_true_r.
Qed.

(** While an occurrence of [old] is passed over, the characters passed are
    those of [old]; [w] is what is left of the occurrence. A character that
    is not in [old] is therefore kept by [str.replace]. *)
Lemma replace_from_elem (c : ascii) (old new : str) :
  old <> [] -> c ∉ old ->
  forall (s w : str) (skip : nat),
    skip = length w -> (forall x, x ∈ w -> x ∈ old) ->
    (exists r, s = w ++ r) ->
    c ∈ s -> c ∈ pystr.replace_from old new skip s.
Proof.
  intros Hne Hold. induction s as [|a s IH]; intros w skip Hs Hw [r Hr] Hin;
    [inversion Hin|].
  cbn [pystr.replace_from]. destruct skip as [|k].
  - destruct (pystr.startswith old (a :: s)) eqn:E.
    + apply elem_of_app. right.
      destruct (startswith_inv _ _ E) as [r' Hr'].
      destruct old as [|o old']; [congruence|].
      injection Hr' as -> ->. cbn [length]. rewrite Nat.sub_succ, Nat.sub_0_r.
      apply (IH old'); [reflexivity | intros x Hx; now right | now exists r' |].
      apply elem_of_cons in Hin as [-> | Hin]; [|exact Hin].
      exfalso. apply Hold. left.
    + apply elem_of_cons in Hin as [-> | Hin]; [left|right].
      apply (IH []); [reflexivity | intros x Hx; inversion Hx | now exists s | exact Hin].
  - destruct w as [|a0 w']; [discriminate|]. injection Hs as ->.
    injection Hr as -> ->.
    apply (IH w'); [reflexivity | intros x Hx; apply Hw; now right | now exists r |].
    apply elem_of_cons in Hin as [-> | Hin]; [|exact Hin].
    exfalso. apply Hold, Hw. left.
Qed.

Lemma replace_elem (c : ascii) (old new s : str) :
  old <> [] -> c ∉ old -> c ∈ s -> c ∈ pystr.replace old new s.
Proof.
  intros Hne Hold Hin. unfold pystr.replace.
  apply (replace_from_elem c old new Hne Hold s []);
    [reflexivity | intros x Hx; inversion Hx | now exists s | exact Hin].
Qed.

Lemma forallb_replace_from (p : ascii -> bool) (old new : str) :
  forallb p new = true ->
  forall (s : str) (skip : nat),
    forallb p s = true -> forallb p (pystr.replace_from old new skip s) = true.
Proof.
  intros Hnew. induction s as [|a s IH]; intros skip Hs; [reflexivity|].
  cbn [forallb] in Hs. apply andb_true_iff in Hs as [Ha Hs].
  cbn [pystr.replace_from]. destruct skip as [|k]; [|now apply IH].
  destruct (pystr.startswith old (a :: s)).
  - rewrite forallb_app, Hnew. now apply IH.
  - cbn [forallb]. rewrite Ha. now apply IH.
Qed.

Lemma elem_filter (p : ascii -> bool) (c : ascii) (s : str) :
  c ∈ s -> p c = true -> c ∈ List.filter p s.
Proof.
  intros Hin Hp. apply list_elem_of_In, filter_In. split; [|exact Hp].
  now apply list_elem_of_In.
Qed.

Lemma forallb_filter (p q : ascii -> bool) (s : str) :
  forallb p s = true -> forallb p (List.filter q s) = true.
Proof.
  induction s as [|a s IH]; [reflexivity|]. cbn [forallb List.filter].
  intros H. apply andb_true_iff in H as [Ha Hs].
  destruct (q a); [cbn [forallb]; rewrite Ha|]; now apply IH.
Qed.

(** The grammar of a number admits digits, the point, the letter E and the
    signs only. *)
Lemma parse_exp_chars (c : ascii) (s : str) :
  foreign_char c = true -> c ∈ s -> parse_exp s = None.
Proof.
  intros Hc Hin. destruct (foreign_not_number c Hc) as (Hd & _ & He & Hm & Hp).
  destruct s as [|e t]; [inversion Hin|]. cbn [parse_exp].
  destruct (is_E e) eqn:E; [|reflexivity].
  apply elem_of_cons in Hin as [-> | Hin]; [congruence|].
  assert (Hnd : forall ds, c ∈ ds -> forallb is_digit ds = false).
  { intros ds Hds. apply not_true_iff_false. intros Hall.
    rewrite forallb_forall in Hall.
    apply list_elem_of_In in Hds. apply Hall in Hds. congruence. }
  destruct t as [|x t']; [inversion Hin|].
  destruct (Ascii.eqb x "-") eqn:Ex; [|destruct (Ascii.eqb x "+") eqn:Ex2].
  - apply elem_of_cons in Hin as [-> | Hin]; [congruence|].
    destruct t'; [inversion Hin|]. now rewrite (Hnd _ Hin).
  - apply elem_of_cons in Hin as [-> | Hin]; [congruence|].
    destruct t'; [inversion Hin|]. now rewrite (Hnd _ Hin).
  - now rewrite (Hnd _ Hin).
Qed.

Lemma parse_number_chars (c : ascii) (s : str) :
  foreign_char c = true -> c ∈ s -> parse_number s = None.
Proof.
  intros Hc Hin. destruct (foreign_not_number c Hc) as (Hd & Hpt & _).
  unfold parse_number, span.
  rewrite <- (take_drop_while is_digit s) in Hin.
  apply elem_of_app in Hin as [Hin | Hin];
    [apply in_take_while in Hin; congruence|].
  set (ip := pystr.take_while is_digit s) in *.
  destruct (pystr.drop_while is_digit s) as [|x r1] eqn:E1; [inversion Hin|].
  destruct (Ascii.eqb x ".") eqn:Ex.
  - apply elem_of_cons in Hin as [-> | Hin]; [congruence|].
    rewrite <- (take_drop_while is_digit r1) in Hin.
    apply elem_of_app in Hin as [Hin | Hin];
      [apply in_take_while in Hin; congruence|].
    rewrite (parse_exp_chars c _ Hc Hin).
    destruct ip, (pystr.take_while is_digit r1); reflexivity.
  - rewrite (parse_exp_chars c (x :: r1) Hc Hin). destruct ip; reflexivity.
Qed.

(** The special values are spelt with the letters of [infinity] and [snan]
    and with digits. *)
Lemma parse_special_chars (sign : bool) (c : ascii) (s : str) :
  foreign_char c = true -> c ∈ s -> parse_special sign s = None.
Proof.
  intros Hc Hin. destruct (foreign_not_special c Hc) as [Hd Hl].
  assert (Hlow : pystr.lower_char c ∈ pystr.lower s).
  { apply list_elem_of_In, in_map. now apply list_elem_of_In. }
  set (lc := pystr.lower_char c) in *.
  assert (Hword : forall w : str,
            (forall x, x ∈ w -> x ∈ py "infinitysnan") -> lc ∉ w).
  { intros w Hw Hx. apply Hw, existsb_elem in Hx. congruence. }
  assert (Hdig : forall w : str, lc ∈ w -> forallb is_digit w = false).
  { intros w Hw. apply not_true_iff_false. intros Hall.
    rewrite forallb_forall in Hall. apply list_elem_of_In in Hw.
    apply Hall in Hw. congruence. }
  unfold parse_special. fold (pystr.lower s).
  set (l := pystr.lower s) in *.
  assert (E1 : pystr.eqb l (py "inf") = false).
  { apply bool_decide_eq_false. intros Heq. rewrite Heq in Hlow.
    revert Hlow. apply Hword. intros x Hx. cbn in *.
    repeat (apply elem_of_cons in Hx as [-> | Hx]; [apply list_elem_of_In; cbn; tauto|]). inversion Hx. }
  assert (E2 : pystr.eqb l (py "infinity") = false).
  { apply bool_decide_eq_false. intros Heq. rewrite Heq in Hlow.
    revert Hlow. apply Hword. intros x Hx. cbn in *.
    repeat (apply elem_of_cons in Hx as [-> | Hx]; [apply list_elem_of_In; cbn; tauto|]). inversion Hx. }
  rewrite E1, E2. cbn [orb].
  assert (Hpre : forall (w : str) (n : nat), n = length w ->
            (forall x, x ∈ w -> x ∈ py "infinitysnan") ->
            pystr.startswith w l && forallb is_digit (drop n l) = false).
  { intros w n -> Hw. destruct (pystr.startswith w l) eqn:Es; [|reflexivity].
    destruct (startswith_inv _ _ Es) as [r Hr]. rewrite Hr in Hlow |- *.
    rewrite drop_app_length. apply elem_of_app in Hlow as [Hlow | Hlow].
    - exfalso. revert Hlow. now apply Hword.
    - now rewrite (Hdig _ Hlow). }
  rewrite (Hpre (py "nan") 3%nat eq_refl), (Hpre (py "snan") 4%nat eq_refl);
    [reflexivity | |];
    intros x Hx; cbn in *;
    repeat (apply elem_of_cons in Hx as [-> | Hx]; [apply list_elem_of_In; cbn; tauto|]); inversion Hx.
Qed.

Lemma of_str_foreign (c : ascii) (s : str) :
  foreign_char c = true -> c ∈ s ->
  forallb (fun c => negb (pystr.is_space c)) s = true ->
  of_str s = Raise InvalidOperation.
Proof.
  intros Hc Hin Hs. destruct (foreign_not_number c Hc) as (_ & _ & _ & Hm & Hp).
  unfold of_str. rewrite (strip_none s Hs).
  assert (Hbody : forall sign body, c ∈ body ->
            match parse_number body with
            | Some (ip, fp, e) => Ok (Finite sign (norm_int (ip ++ fp)) (e - len fp))
            | None =>
                match parse_special sign body with
                | Some d => Ok d
                | None => Raise InvalidOperation
                end
            end = Raise InvalidOperation).
  { intros sign body Hb.
    now rewrite (parse_number_chars c body Hc Hb), (parse_special_chars sign c body Hc Hb). }
  destruct s as [|x t]; [inversion Hin|].
  destruct (Ascii.eqb x "-") eqn:E1; [|destruct (Ascii.eqb x "+") eqn:E2].
  - apply Hbody. apply elem_of_cons in Hin as [-> | Hin]; [congruence | exact Hin].
  - apply Hbody. apply elem_of_cons in Hin as [-> | Hin]; [congruence | exact Hin].
  - now apply Hbody.
Qed.

(** A text without white space that holds a foreign character, and is not
    ["N/A"] once the symbols are gone, reaches [Decimal] with that character
    in it. *)
Lemma new_foreign (x : str) (c : ascii) :
  forallb (fun c => negb (pystr.is_space c)) x = true ->
  c ∈ x -> foreign_char c = true ->
  NABNumber.remove_symbols x <> py "N/A" ->
  NABNumber.__new__ (NABNumber.VText (Some x)) = Raise InvalidOperation.
Proof.
  intros Hx Hin Hc Hna. unfold NABNumber.__new__.
  destruct x as [|c0 x']; [inversion Hin|]. set (x := c0 :: x') in *.
  rewrite (split_absent NABNumber.LF x)
    by (revert Hx; apply forallb_impl; intros a Ha; apply negb_true_iff in Ha;
        now rewrite not_space_not_LF).
  cbn [map concat]. rewrite (strip_none x Hx), app_nil_r.
  set (t := NABNumber.remove_symbols x) in *.
  assert (Ht : forallb (fun c => negb (pystr.is_space c)) t = true)
    by now apply forallb_filter.
  assert (Hct : c ∈ t).
  { apply elem_filter; [exact Hin|]. now rewrite (foreign_not_symbol c Hc). }
  rewrite (strip_none t Ht).
  rewrite (split_absent " " t)
    by (revert Ht; apply forallb_impl; intros a Ha; apply negb_true_iff in Ha;
        apply negb_true_iff; destruct (Ascii.eqb_spec a " ") as [->|];
        [discriminate Ha | reflexivity]).
  cbn [app take].
  replace (pystr.eqb t (py "N/A")) with false
    by (symmetry; now apply bool_decide_eq_false).
  replace (pystr.eqb t []) with false
    by (symmetry; apply bool_decide_eq_false; intros E; rewrite E in Hct;
        inversion Hct).
  cbn [orb]. change (pystr.eqb [] (py "DR")) with false. cbv iota. cbn [app].
  apply (of_str_foreign c); [exact Hc | |].
  - apply replace_elem; [discriminate | now apply foreign_not_minus | exact Hct].
  - now apply forallb_replace_from.
Qed.

Lemma forallb_split (p : ascii -> bool) (sep : ascii) (s : str) :
  forallb p s = true -> Forall (fun l => forallb p l = true) (pystr.split sep s).
Proof.
  induction s as [|c s IH]; intros H; [repeat constructor|].
  cbn [forallb] in H. apply andb_true_iff in H as [Hc Hs].
  cbn [pystr.split]. specialize (IH Hs).
  destruct (Ascii.eqb c sep); [constructor; [reflexivity | exact IH]|].
  destruct (pystr.split sep s) as [|h r]; [repeat constructor; cbn; now rewrite Hc|].
  inversion IH as [|? ? Hh Hr]; subst. constructor; [|exact Hr].
  cbn [forallb]. now rewrite Hc.
Qed.

Lemma forallb_concat_strip (p : ascii -> bool) (ls : list str) :
  Forall (fun l => forallb p l = true) ls ->
  forallb p (concat (map pystr.strip ls)) = true.
Proof.
  induction 1 as [|l ls Hl _ IH]; [reflexivity|].
  cbn [map concat]. rewrite forallb_app, IH, (forallb_strip p l Hl). reflexivity.
Qed.

Lemma strip_all_space (s : str) :
  forallb pystr.is_space s = true -> pystr.strip s = [].
Proof.
  intros H. unfold pystr.strip, pystr.rstrip, pystr.lstrip.
  rewrite (drop_while_all _ (rev s)) by now rewrite forallb_rev. reflexivity.
Qed.

(** A text of white space and symbols is empty once it is cleaned. *)
Lemma new_blank (x : str) :
  forallb blank_or_symbol x = true ->
  NABNumber.__new__ (NABNumber.VText (Some x)) = Ok (NaN false []).
Proof.
  intros Hx. unfold NABNumber.__new__.
  destruct x as [|c0 x']; [reflexivity|]. set (x := c0 :: x') in *.
  set (j := concat (map pystr.strip (pystr.split NABNumber.LF x))).
  assert (Hj : forallb blank_or_symbol j = true)
    by (apply forallb_concat_strip, forallb_split, Hx).
  assert (Hr : forallb pystr.is_space (NABNumber.remove_symbols j) = true).
  { clear -Hj. induction j as [|a j IH]; [reflexivity|].
    cbn [forallb] in Hj. apply andb_true_iff in Hj as [Ha Hj].
    unfold NABNumber.remove_symbols in *. cbn [List.filter].
    destruct (NABNumber.is_symbol a) eqn:E; cbn [negb]; [now apply IH|].
    cbn [forallb]. unfold blank_or_symbol in Ha. rewrite E, orb_false_r in Ha.
    rewrite Ha. now apply IH. }
  rewrite (strip_all_space _ Hr). reflexivity.
Qed.



End Unparseable.

(** ** Amounts: the padding of the rendering *)

Section Padding.
Import decimal.
Local Open Scope Z_scope.

Lemma or_zero_nonempty (s : str) : or_zero s <> [].
Proof. destruct s; discriminate. Qed.

Lemma places_digits (n : str) :
  forallb is_digit n = true ->
  fst (places n) <> [] /\
  forallb is_digit (fst (places n)) = true /\
  forallb is_digit (snd (places n)) = true.
Proof.
  intros Hn. unfold places. destruct (len n - 2 <? 0); cbn [fst snd].
  - split; [discriminate|]. split; [reflexivity|].
    now rewrite forallb_app, zeros_digits, Hn.
  - split; [apply or_zero_nonempty|].
    split; [apply or_zero_digits, forallb_take, Hn | apply forallb_drop, Hn].
Qed.

(** The rendering of a finite amount whose coefficient is a text of digits. *)
Lemma str_finite_digits (s : bool) (n : str) (e : Z) :
  forallb is_digit n = true ->
  exists ip fp,
    NABNumber.__str__ (Finite s n e) =
      pystr.rjust 6 (_format_sign s ++ ip ++ py "." ++ fp) /\
    ip <> [] /\ forallb is_digit ip = true /\
    forallb is_digit fp = true /\ length fp = 2%nat.
Proof.
  intros Hn. unfold NABNumber.__str__, format, spec_6_2f. change (Z.opp 2) with (-2).
  destruct (rescale_digits s n e (-2) Hn) as (n' & -> & Hn').
  destruct (places_digits n' Hn') as (H1 & H2 & H3).
  exists (fst (places n')), (snd (places n')).
  split; [apply layout_exp2|]. repeat split; try assumption. apply places_length.
Qed.

Lemma norm_int_digits (s : str) :
  forallb is_digit s = true -> forallb is_digit (norm_int s) = true.
Proof.
  intros Hs. unfold norm_int.
  destruct (pystr.drop_while is_zero_char s) eqn:E; [reflexivity|].
  rewrite <- E. now apply forallb_drop_while.
Qed.

Lemma amount_digits_only (neg : bool) (i f : str) :
  two_decimals i f = true ->
  digits_only (Finite neg (norm_int (i ++ f)) (-2)) = true.
Proof.
  intros H. apply two_decimals_inv in H as (Hi & _ & Hf & _).
  cbn [digits_only]. apply norm_int_digits. now rewrite forallb_app, Hi, Hf.
Qed.

(** The padding of a short rendering: spaces before the text, up to six
    characters. *)
Lemma rjust_short (w : nat) (t : str) :
  (length t < w)%nat ->
  exists pad, pad <> [] /\ forallb (Ascii.eqb " "%char) pad = true /\
              pystr.rjust w t = pad ++ t /\ length (pad ++ t) = w.
Proof.
  intros Hl. unfold pystr.rjust. exists (repeat " "%char (w - length t)).
  split; [destruct (w - length t)%nat eqn:E; [lia | discriminate]|].
  split; [now apply forallb_repeat|]. split; [reflexivity|].
  rewrite length_app, repeat_length. lia.
Qed.




End Padding.

(** ** Accounts: the closing fields *)

Section ClosingBalance.
Context `{Runtime}.

Lemma process_row_full (fs : filesystem) (a : Account.t) (row : RawRow) x :
  (length (Account.var_names a) <= cells row)%nat ->
  outcome (Account.process_row fs a row) = Ok x -> exists t, x = Some t.
Proof.
  intros Hfull Ho. unfold outcome in Ho.
  destruct (Account.process_row fs a row) as [[y a']|e] eqn:Hp; [|discriminate].
  cbn in Ho. injection Ho as <-. destruct y as [t|]; [eauto|].
  apply process_row_none in Hp as [Hlt _]. lia.
Qed.

(** The rows that are not skipped give a list of transactions. *)
Lemma full_rows_transactions (fs : filesystem) (a : Account.t)
    (rows : list RawRow) (trs : list (option Transaction.t)) :
  full_rows a rows ->
  Forall2 (fun row tr => outcome (Account.process_row fs a row) = Ok tr) rows trs ->
  exists txs,
    trs = map Some txs /\
    Forall2 (fun row t => outcome (Account.process_row fs a row) = Ok (Some t))
      rows txs.
Proof.
  intros Hfull Hall. induction Hall as [|row tr rows trs Hrow _ IH].
  - exists []. split; [reflexivity | constructor].
  - inversion Hfull as [|? ? Hr Hrest]; subst.
    destruct (process_row_full fs a row tr Hr Hrow) as [t ->].
    destruct (IH Hrest) as (txs & -> & Htxs).
    exists (t :: txs). split; [reflexivity | now constructor].
Qed.

Lemma last_map_Some {A} (l : list A) : last (map Some l) = option_map Some (last l).
Proof.
  induction l as [|x [|y l] IH]; [reflexivity | reflexivity |].
  change (map Some (x :: y :: l)) with (Some x :: map Some (y :: l)).
  now rewrite !last_cons_cons.
Qed.

(** Extraction, when it returns on at least one row: the rows are
    normalised with the account as it was, the sequence is the reverse of
    what they gave, and the closing fields are read from its last element. *)
Lemma download_rows (fs : filesystem) (a : Account.t) (alert : bool)
    (rows : list RawRow) (end_date : datetime.date) cb a1 :
  rows <> [] ->
  Account.download_transactions fs a alert rows end_date = Ok (cb, a1) ->
  Forall2 (fun row tr =>
             outcome (Account.process_row fs (reading a alert) row) = Ok tr)
          rows (rev (Account.transactions a1)) /\
  (forall tr, last (Account.transactions a1) = Some (Some tr) ->
     closing a1 = (Account.Amount (Transaction.balance tr), Transaction.date tr) /\
     cb = Transaction.balance tr) /\
  Account.current_balance a1 = Account.current_balance a /\
  Account.at_date a1 = Account.at_date a.
Proof.
  intros Hne Hd. unfold Account.download_transactions in Hd.
  rewrite of_text_zero in Hd. cbn [mbind res_bind] in Hd.
  destruct rows as [|row rest]; [congruence|].
  fold (without_balance a) in Hd. fold (reading a alert) in Hd.
  bind_as Hd ta Hrows. destruct ta as [trs a'].
  pose proof (process_rows_spec fs _ _ _ _ Hrows) as [_ [c ->]].
  apply (process_rows_each fs (reading a alert)) in Hrows;
    [|apply rules_only_refl | reflexivity].
  cbn [Account.transactions Account.set_transactions] in Hd.
  assert (Hkeep : Account.current_balance (reading a alert) = Account.current_balance a /\
                  Account.at_date (reading a alert) = Account.at_date a)
    by (destruct alert; split; reflexivity).
  destruct Hkeep as [Hcur Hat].
  destruct (last (rev trs)) as [[tr|]|] eqn:El; injection Hd as <- <-;
    cbn [Account.transactions Account.set_closing Account.set_transactions closing
         Account.closing_balance Account.closing_balance_date with_rules
         Account.current_balance Account.at_date];
    rewrite rev_involutive, El;
    (split; [exact Hrows|]); (split; [|split; assumption]);
    intros t [= <-] || intros t [=]; split; reflexivity.
Qed.

Lemma download_keeps (fs : filesystem) (a : Account.t) (alert : bool)
    (rows : list RawRow) (end_date : datetime.date) cb a1 :
  Account.download_transactions fs a alert rows end_date = Ok (cb, a1) ->
  Account.current_balance a1 = Account.current_balance a /\
  Account.at_date a1 = Account.at_date a.
Proof.
  intros Hd. destruct rows as [|r rest].
  - destruct (download_none fs a alert end_date) as (a1' & Hd' & _ & _ & Hc & Ha).
    rewrite Hd in Hd'. injection Hd' as -> ->. auto.
  - now apply download_rows in Hd as (_ & _ & Hc & Ha).
Qed.

(** C1, as amended. After an extraction that returns on at least one row
    and skips none, the sequence of the account holds the transactions of
    the rows in reverse order (the oldest first, for a page that shows the
    newest first); the closing balance and the closing date are the balance
    and the date of the last transaction of the sequence, which is that of
    the first row, and the balance returned is that closing balance. After
    an export that returns, every element of the sequence is a transaction,
    the sequence is unchanged, the closing balance and date are those of
    the last transaction, or the current balance and the as-of date of the
    account when the sequence is empty, and a second export returns the same
    text and leaves the account as it is. *)
Theorem C1_closing_balance (fs : filesystem) (a : Account.t)
    (alert : bool) (rows : list RawRow) (end_date : datetime.date)
    (cb : decimal.Decimal) (a1 : Account.t) :
  Account.download_transactions fs a alert rows end_date = Ok (cb, a1) ->
  closing_settled fs a alert rows cb a1.
Proof.
  intros Hd. split.
  - intros row rest -> Hfull.
    apply download_rows in Hd as (Hrows & Hclose & _); [|discriminate].
    destruct (full_rows_transactions fs _ _ _ Hfull Hrows) as (rtxs & Hrev & Htxs).
    assert (Hseq : Account.transactions a1 = map Some (rev rtxs)).
    { rewrite <- (rev_involutive (Account.transactions a1)), Hrev.
      now rewrite map_rev. }
    inversion Htxs as [|? t ? rtxs' Hrow Hrest]; subst.
    exists (rev (t :: rtxs')), t.
    assert (Hlast : last (rev (t :: rtxs')) = Some t)
      by (cbn [rev]; apply last_snoc).
    split; [exact Hseq|]. rewrite rev_involutive.
    split; [exact Htxs|]. split; [exact Hlast|]. split; [exact Hrow|].
    apply Hclose. now rewrite Hseq, last_map_Some, Hlast.
  - intros out a2 Hq. apply download_keeps in Hd as [Hcur Hat].
    apply qif_closing in Hq as (Hnone & Hseq & Hclose & Hagain).
    destruct (all_transactions _ Hnone) as [txs Htxs].
    exists txs. split; [exact Htxs|]. split; [exact Hseq|]. split; [|exact Hagain].
    rewrite Hclose, Htxs, last_map_Some, Hcur, Hat.
    now destruct (last txs).
Qed.

End ClosingBalance.

(** The two rows of January 2024, the newest first. *)
Lemma C1_witness :
  exists a1,
    Account.download_transactions no_files (main_account Account.Float0) false
      [row_coffee; row_salary] (ymd 2024 1 31)
      = Ok (decimal.Finite false (py "10000") (-2), a1) /\
    option_map (map Transaction.memo)
      (mapM id (Account.transactions a1))
      = Some [py "SALARY ACME"; py "COFFEE SHOP"] /\
    closing a1 = (Account.Amount (decimal.Finite false (py "10000") (-2)),
                  ymd 2024 1 15) /\
    closing_settled no_files (main_account Account.Float0) false
      [row_coffee; row_salary] (decimal.Finite false (py "10000") (-2)) a1.
Proof.
  eexists. split; [vm_compute; reflexivity|].
  split; [vm_compute; reflexivity|]. split; [vm_compute; reflexivity|].
  apply (@C1_closing_balance PythonRuntime no_files (main_account Account.Float0)
           false _ (ymd 2024 1 31)).
  vm_compute. reflexivity.
Defined.

(** C1 as stated fails on an account without transactions. The account is
    made with an opening balance of 5.00 and the as-of date 31 January
    2024; the period asked for ends on 29 February 2024 and the page shows
    no row. Extraction and export return, the sequence is empty, and the
    closing balance is the opening balance 5.00, not zero, and the closing
    date the as-of date of the account, not the end date asked for. *)
Lemma C1_counterexample :
  ('(cb, a1) ← Account.download_transactions no_files
                 (main_account (Account.Amount five)) false [] (ymd 2024 2 29);
   '(out, a2) ← Account.qif a1;
   Ok (Account.transactions a2, closing a2))
  = Ok ([], (Account.Amount five, ymd 2024 1 31)) /\
  five <> zero /\ ymd 2024 1 31 <> ymd 2024 2 29.
Proof.
  split; [vm_compute; reflexivity|]. split; discriminate.
Qed.

(** ** Category rules: keys as patterns *)

Section PlainKey.
Import sre.

(** **** Characters *)

Lemma lower_char_eq (c : ascii) : sre.lower c = pystr.lower_char c.
Proof. destruct c as [[] [] [] [] [] [] [] []]; reflexivity. Qed.

Lemma is_linebreak_eq (c : ascii) : is_linebreak c = Ascii.eqb c NABNumber.LF.
Proof. destruct c as [[] [] [] [] [] [] [] []]; reflexivity. Qed.

Lemma lower_char_LF (c : ascii) :
  Ascii.eqb c NABNumber.LF = false ->
  Ascii.eqb (pystr.lower_char c) NABNumber.LF = false.
Proof. destruct c as [[] [] [] [] [] [] [] []]; intros H; try reflexivity; exact H. Qed.

Lemma lower_char_LF_l (c : ascii) :
  Ascii.eqb c NABNumber.LF = false ->
  Ascii.eqb (pystr.lower_char c) (pystr.lower_char NABNumber.LF) = false.
Proof. apply lower_char_LF. Qed.

Lemma plain_cons (c : ascii) (k : str) :
  plain_key (c :: k) = true ->
  is_special c = false /\ Ascii.eqb c NABNumber.LF = false /\ plain_key k = true.
Proof.
  unfold plain_key. cbn [forallb]. intros H.
  apply andb_prop in H as [H1 H2]. apply negb_true_iff, orb_false_elim in H1 as [? ?].
  auto.
Qed.

Lemma not_special (c x : ascii) :
  is_special c = false -> In x SPECIAL_CHARS ->
  Ascii.eqb x c = false /\ Ascii.eqb c x = false.
Proof.
  intros Hc Hx.
  assert (Hne : Ascii.eqb c x = false).
  { destruct (Ascii.eqb c x) eqn:E; [|reflexivity].
    assert (Hs : is_special c = true); [|congruence].
    unfold is_special. apply existsb_exists. eauto. }
  split; [|exact Hne]. now rewrite Ascii.eqb_sym.
Qed.

Ltac special_char :=
  match goal with
  | Hc : is_special ?c = false |- context [Ascii.eqb ?x ?c] =>
      rewrite (proj1 (not_special c x Hc ltac:(cbn; tauto)))
  | Hc : is_special ?c = false |- context [Ascii.eqb ?c ?x] =>
      rewrite (proj2 (not_special c x Hc ltac:(cbn; tauto)))
  end.

(** **** The parser on a plain key *)

Lemma next_plain (k : str) :
  plain_key k = true -> __next (k ++ py ".*") = Ok (tok (k ++ py ".*")).
Proof.
  intros Hk. destruct k as [|c k]; [reflexivity|].
  apply plain_cons in Hk as (Hc & _ & _).
  cbn [app __next tok]. now special_char.
Qed.

Lemma _parse_literal (f : nat) (c : ascii) (t : str) (sub : list node) :
  is_special c = false ->
  _parse (S f) (mkTokenizer (Some (Ch c)) t) st0 sub =
    (s ← __next t; _parse f s st0 (LITERAL c :: sub)).
Proof.
  intros Hc. cbn [_parse]. unfold at_char, get. cbn [next rest].
  repeat special_char. cbn [orb].
  destruct (__next t) as [s|e]; [|reflexivity].
  cbn [mbind res_bind flags st0 VERBOSE IGNORECASE_only andb].
  rewrite Hc. reflexivity.
Qed.

Lemma _parse_key (k : str) : forall (f : nat) (sub : list node),
  plain_key k = true ->
  _parse (length k + f) (tok (k ++ py ".*")) st0 sub =
    _parse f (tok (py ".*")) st0 (map LITERAL (rev k) ++ sub).
Proof.
  induction k as [|c k IH]; intros f sub Hk; [reflexivity|].
  pose proof (plain_cons c k Hk) as (Hc & _ & Hk').
  cbn [length Nat.add app tok]. rewrite (_parse_literal _ c _ sub Hc).
  rewrite (next_plain k Hk'). cbn [mbind res_bind].
  rewrite (IH f (LITERAL c :: sub) Hk').
  cbn [rev]. rewrite map_app, <- app_assoc. reflexivity.
Qed.

Lemma _parse_head (k : str) (f : nat) :
  plain_key k = true ->
  _parse (S (S (S f))) (tok (py "^.*" ++ k ++ py ".*")) st0 [] =
    _parse f (tok (k ++ py ".*")) st0 [star; AT AT_BEGINNING].
Proof.
  intros Hk. pose proof (next_plain k Hk) as Hn.
  assert (Hq : at_char "?" (tok (k ++ py ".*")) = false).
  { destruct k as [|c k]; [reflexivity|].
    apply plain_cons in Hk as (Hc & _ & _). unfold at_char. cbn [app tok next].
    now special_char. }
  set (tl := py ".*") in *.
  change (py "^.*") with ["^"; "."; "*"]%char. cbn [app tok].
  cbn [_parse]. unfold at_char at 1 2, get. cbn [next rest orb Ascii.eqb Bool.eqb].
  cbn [__next Ascii.eqb Bool.eqb mbind res_bind flags st0 VERBOSE IGNORECASE_only andb].
  change (is_special "^") with true. cbn [negb Ascii.eqb Bool.eqb].
  unfold at_char at 1 2, get. cbn [next rest orb Ascii.eqb Bool.eqb].
  cbn [__next Ascii.eqb Bool.eqb mbind res_bind flags st0 VERBOSE IGNORECASE_only andb].
  change (is_special ".") with true. cbn [negb Ascii.eqb Bool.eqb].
  unfold at_char at 1 2, get. cbn [next rest orb Ascii.eqb Bool.eqb].
  rewrite Hn. cbn [mbind res_bind flags st0 VERBOSE IGNORECASE_only andb].
  change (is_special "*") with true. cbn [negb Ascii.eqb Bool.eqb].
  unfold repeat_last. cbn [is_at is_repeat]. rewrite Hq.
  cbn [mbind res_bind]. reflexivity.
Qed.

Lemma _parse_tail (f : nat) (sub : list node) :
  _parse (S (S (S f))) (tok (py ".*")) st0 sub =
    Ok (seq_of (star :: sub), tok [], st0).
Proof. reflexivity. Qed.

Lemma lits_app (a b : str) (t : node) : lits (a ++ b) t = lits a (lits b t).
Proof. induction a as [|c a IH]; [reflexivity|]. cbn [app lits]. now rewrite IH. Qed.

Lemma fold_lits (l : str) : forall (rest : list node) (acc : node),
  acc <> EMPTY ->
  fold_left seq_step (map LITERAL l ++ rest) acc =
    fold_left seq_step rest (lits (rev l) acc).
Proof.
  induction l as [|c l IH]; intros rest acc Hacc; [reflexivity|].
  cbn [map app fold_left rev]. rewrite lits_app. cbn [lits].
  rewrite <- IH by (destruct acc; discriminate).
  destruct acc; try reflexivity. now destruct Hacc.
Qed.

Lemma seq_of_key (k : str) :
  seq_of (star :: map LITERAL (rev k) ++ [star; AT AT_BEGINNING]) = pattern_of k.
Proof.
  unfold seq_of. fold seq_step. cbn [fold_left seq_step].
  rewrite fold_lits by discriminate. rewrite rev_involutive.
  cbn [fold_left]. unfold pattern_of. destruct k; reflexivity.
Qed.

Lemma parse_key (k : str) :
  plain_key k = true ->
  parse (py "^.*" ++ k ++ py ".*") IGNORECASE_only = Ok (pattern_of k, st0).
Proof.
  intros Hk. unfold parse, parse_once.
  change (__next (py "^.*" ++ k ++ py ".*"))
    with (Ok (tok (py "^.*" ++ k ++ py ".*")) : res Tokenizer).
  cbn [mbind res_bind]. fold st0.
  replace (4 * length (py "^.*" ++ k ++ py ".*") + 8)%nat
    with (S (S (S (S (length k + S (S (S (3 * length k + 21))))))))
    by (rewrite !length_app; cbn [length py list_ascii_of_string]; lia).
  cbn [_parse_sub]. rewrite (_parse_head k _ Hk), (_parse_key k _ _ Hk), _parse_tail.
  cbn [mbind res_bind]. rewrite seq_of_key. reflexivity.
Qed.

(** **** The compiler on a plain key *)

Lemma check_lits (f : flagset) (k : str) (t : node) : check f (lits k t) = check f t.
Proof. induction k as [|c k IH]; [reflexivity|]. cbn [lits check mbind res_bind]. exact IH. Qed.

Lemma conditions_lits (k : str) (t : node) : conditions (lits k t) = conditions t.
Proof. induction k as [|c k IH]; [reflexivity|]. cbn [lits conditions app]. exact IH. Qed.

Lemma compile_key (k : str) :
  plain_key k = true ->
  compile (py "^.*" ++ k ++ py ".*") IGNORECASE_only =
    Ok (mkPattern (pattern_of k) IGNORECASE_only 0).
Proof.
  intros Hk. unfold compile. rewrite (parse_key k Hk). cbn [mbind res_bind].
  assert (Hcheck : check (flags st0) (pattern_of k) = Ok tt).
  { unfold pattern_of. cbn [check mbind res_bind].
    change (check (flags st0) star) with (Ok tt : res unit). cbn [mbind res_bind].
    now rewrite check_lits. }
  rewrite Hcheck. cbn [mbind res_bind].
  assert (Hcond : conditions (pattern_of k) = []).
  { unfold pattern_of. cbn [conditions app]. now rewrite conditions_lits. }
  rewrite Hcond. reflexivity.
Qed.

(** **** The matcher on a plain key *)

Variable subject : str.

Abbreviation run := (_match IGNORECASE_only subject).

Lemma star_success (item : cont -> cont) (hi : N) (fuel : nat) (count : N)
    (last : option nat) (s : state) :
  is_success (max_until item hi Success fuel count last s) = true.
Proof.
  destruct fuel as [|fl]; [reflexivity|]. cbn [max_until].
  destruct (_ && _); [|reflexivity]. now destruct (item _ s).
Qed.

Lemma run_lits (k : str) : forall s : state,
  is_success (run (lits k star) Success s) = ci_prefix k (after s).
Proof.
  induction k as [|x k IH]; intros s.
  - cbn [lits ci_prefix]. unfold star. cbn [_match times]. apply star_success.
  - cbn [lits _match]. unfold same_char. cbn [IGNORECASE IGNORECASE_only].
    unfold lower_of. cbn [LOCALE UNICODE IGNORECASE_only].
    destruct (after s) as [|c r] eqn:Ea; [reflexivity|]. cbn [ci_prefix].
    rewrite !lower_char_eq.
    destruct (Ascii.eqb _ _); [|reflexivity]. cbn [andb].
    rewrite IH. reflexivity.
Qed.

Lemma run_star (k : str) : forall (fuel : nat) (count : N) (last : option nat)
    (s : state),
  (length (after s) < fuel)%nat -> last <> Some (pos s) ->
  is_success (max_until (run ANY) MAXREPEAT (run (lits k star) Success)
                fuel count last s) = scan k (after s).
Proof.
  induction fuel as [|fl IH]; intros count last s Hf Hl; [lia|].
  cbn [max_until]. rewrite N.eqb_refl, orb_true_r.
  rewrite bool_decide_eq_false_2 by exact Hl. cbn [negb andb _match].
  destruct (after s) as [|c r] eqn:Ea.
  - cbn [scan]. rewrite run_lits, Ea. now rewrite orb_false_r.
  - cbn [DOTALL IGNORECASE_only orb scan]. rewrite is_linebreak_eq.
    destruct (Ascii.eqb c NABNumber.LF) eqn:Ec; cbn [negb andb].
    + rewrite run_lits, Ea. now rewrite orb_false_r.
    + specialize (IH (count + 1)%N (Some (pos s)) (step c r s)).
      cbn [after step pos] in IH. cbn [length] in Hf.
      assert (Hs : is_success
                (max_until (run ANY) MAXREPEAT (run (lits k star) Success) fl
                   (count + 1) (Some (pos s)) (step c r s)) = scan k r).
      { apply IH; [lia|]. intros [= E]. lia. }
      destruct (max_until _ _ _ fl _ _ _) as [s'|m].
      * cbn in Hs. rewrite <- Hs. cbn. now rewrite orb_true_r.
      * cbn in Hs. rewrite <- Hs, orb_false_r. rewrite run_lits, Ea. reflexivity.
Qed.

Lemma run_pattern (k : str) :
  is_success (run (pattern_of k) Success (mkSt 0 [] subject [])) = scan k subject.
Proof.
  unfold pattern_of. cbn [_match at_place before]. unfold star at 1.
  cbn [_match times]. apply (run_star k); cbn [after pos length]; [lia | discriminate].
Qed.

End PlainKey.

(** **** Containment *)

Lemma ci_prefix_startswith (k : str) : forall a : str,
  plain_key k = true ->
  ci_prefix k a =
    pystr.startswith (pystr.lower k) (pystr.lower (literal.first_line a)).
Proof.
  induction k as [|x k IH]; intros a Hk; [reflexivity|].
  apply plain_cons in Hk as (_ & Hx & Hk').
  destruct a as [|c r]; [reflexivity|].
  unfold literal.first_line. cbn [ci_prefix pystr.take_while].
  destruct (Ascii.eqb c NABNumber.LF) eqn:Ec; cbn [negb].
  - apply Ascii.eqb_eq in Ec as ->. cbn [pystr.lower map pystr.startswith].
    now rewrite (lower_char_LF_l x Hx).
  - cbn [pystr.lower map pystr.startswith]. f_equal. now apply IH.
Qed.

Lemma scan_contains (k : str) : forall a : str,
  plain_key k = true ->
  scan k a =
    literal.contains (pystr.lower k) (pystr.lower (literal.first_line a)).
Proof.
  intros a Hk. induction a as [|c r IH].
  - cbn [scan]. rewrite (ci_prefix_startswith k [] Hk). reflexivity.
  - cbn [scan]. rewrite (ci_prefix_startswith k (c :: r) Hk).
    unfold literal.first_line in *. cbn [pystr.take_while].
    destruct (Ascii.eqb c NABNumber.LF) eqn:Ec; cbn [negb andb].
    + reflexivity.
    + cbn [pystr.lower map literal.contains]. f_equal. exact IH.
Qed.

(** On a plain key the engine looks for the text of the key in the first
    line of the field, letter case apart. *)
Lemma re_match_plain (k field : str) :
  plain_key k = true ->
  sre.re_match (py "^.*" ++ k ++ py ".*") field sre.IGNORECASE_only =
    Ok (literal.contains (pystr.lower k) (pystr.lower (literal.first_line field))).
Proof.
  intros Hk. unfold sre.re_match. rewrite (compile_key k Hk).
  cbn [mbind res_bind sre.pflags sre.code]. rewrite run_pattern.
  now rewrite scan_contains.
Qed.

(** **** The mapping alone decides *)

Section SameRules.
Context `{Runtime}.

Lemma categorise_same_rules (fs fs' : filesystem) (a : Account.t)
    (payee : option str) (memo : str) :
  rules_of fs a = rules_of fs' a ->
  Account.categorise fs a payee memo = Account.categorise fs' a payee memo.
Proof.
  destruct (Account._payee_category_map a) as [m|] eqn:Em.
  { intros _. now apply (categorise_cached fs fs' a m). }
  unfold rules_of, Account.categorise, Account.payee_category_map.
  rewrite Em. intros ->.
  destruct (Account.load_rules fs' _ _) as [m|e]; [|reflexivity].
  cbn [mbind res_bind].
  destruct (Account.first_match _ _) as [[v|]|e]; reflexivity.
Qed.

Lemma process_row_same_rules (fs fs' : filesystem) (a : Account.t) (row : RawRow) :
  rules_of fs a = rules_of fs' a ->
  Account.process_row fs a row = Account.process_row fs' a row.
Proof.
  intros Hm. unfold Account.process_row.
  destruct (_ <? _)%nat; [reflexivity|].
  destruct (Account.location_memo _) as [[l mm]|]; [|reflexivity].
  cbn [mbind res_bind].
  destruct (NABNumber.__new__ _) as [dv|]; [|reflexivity]. cbn [mbind res_bind].
  destruct (NABNumber.__new__ _) as [cv|]; [|reflexivity]. cbn [mbind res_bind].
  destruct (negb _); [reflexivity|].
  destruct (re_sub_empty _ _) as [bt|]; [|reflexivity]. cbn [mbind res_bind].
  destruct (NABNumber.__new__ _) as [bv|]; [|reflexivity]. cbn [mbind res_bind].
  destruct (NABNumber.of_text _) as [z|]; [|reflexivity]. cbn [mbind res_bind].
  destruct (decimal.isnan cv) as [cn|]; [|reflexivity]. cbn [mbind res_bind].
  destruct (decimal.isnan dv) as [dn|]; [|reflexivity]. cbn [mbind res_bind].
  now rewrite (categorise_same_rules fs fs' a _ _ Hm).
Qed.


End SameRules.


